(** * AutoGitLLM: change collection and prompt assembly

    A shallow embedding of [src/git.ts] (change collector, text classifier,
    byte-bounded truncator) and of [src/prompt.ts] (prompt builder), with the
    Node.js primitives they call ([String.prototype.trim], [split], [join],
    [Buffer.from], [Buffer.byteLength], [subarray], [toString("utf8")],
    [Array.prototype.slice], [Set]) modelled next to them.

    Conventions.
    - A JavaScript string is the list of its UTF-16 code units ([jsstring]).
    - A [Buffer] is the list of its bytes.
    - JavaScript numbers that hold counts, budgets and indices are integers
      ([Z]); the one place where the source divides ([looksBinary]) is
      modelled with binary64 floats.
    - Asynchronous calls are sequential ([await] on every call), so a promise
      is its outcome: a value, or a rejection carrying the error message. *)

From Stdlib Require Import NArith ZArith List String Ascii Bool Lia.
From Stdlib Require Import PrimFloat Uint63 DecimalString.
From stdpp Require Import base list gmap.

Set Default Proof Using "Type".

(* ================================================================== *)
(** ** JavaScript strings *)
(* ================================================================== *)

Module JsString.

(** A string is a sequence of 16-bit code units. *)
Definition jsstring : Type := list N.

Local Open Scope N_scope.

(** ECMAScript [WhiteSpace] and [LineTerminator] code points, the set that
    [String.prototype.trim] strips. *)
Definition isWhiteSpace (u : N) : bool :=
  (u =? 0x0009) || (u =? 0x000A) || (u =? 0x000B) || (u =? 0x000C) ||
  (u =? 0x000D) || (u =? 0x0020) || (u =? 0x00A0) || (u =? 0x1680) ||
  ((0x2000 <=? u) && (u <=? 0x200A)) ||
  (u =? 0x2028) || (u =? 0x2029) || (u =? 0x202F) || (u =? 0x205F) ||
  (u =? 0x3000) || (u =? 0xFEFF).

Fixpoint trimStart (s : jsstring) : jsstring :=
  match s with
  | [] => []
  | u :: s' => if isWhiteSpace u then trimStart s' else s
  end.

Definition trimEnd (s : jsstring) : jsstring := rev (trimStart (rev s)).

(** [s.trim()] *)
Definition trim (s : jsstring) : jsstring := trimEnd (trimStart s).

(** Truthiness of a string: the empty string is the only falsy one. *)
Definition truthy (s : jsstring) : bool :=
  match s with [] => false | _ :: _ => true end.

(** [a || b] on strings. *)
Definition orElse (a b : jsstring) : jsstring := if truthy a then a else b.

(** [parts.join(sep)] *)
Fixpoint join (sep : jsstring) (parts : list jsstring) : jsstring :=
  match parts with
  | [] => []
  | [p] => p
  | p :: rest => p ++ sep ++ join sep rest
  end.

(** [s.split(/\r?\n/)]: the pattern matches a line feed, together with the
    carriage return just before it when there is one.  [cur] is the current
    piece, reversed. *)
Fixpoint splitLinesFrom (cur : jsstring) (s : jsstring) : list jsstring :=
  match s with
  | [] => [rev cur]
  | u :: s' =>
      if u =? 0x0A then rev cur :: splitLinesFrom [] s'
      else if u =? 0x0D then
        match s' with
        | v :: s'' =>
            if v =? 0x0A then rev cur :: splitLinesFrom [] s''
            else splitLinesFrom (u :: cur) s'
        | [] => splitLinesFrom (u :: cur) s'
        end
      else splitLinesFrom (u :: cur) s'
  end.

Definition splitLines (s : jsstring) : list jsstring := splitLinesFrom [] s.

(** [arr.slice(0, last)] and [buf.subarray(0, last)]: a negative bound
    counts from the end, and every bound is clamped to the length. *)
Definition sliceEnd (len : nat) (last : Z) : nat :=
  if (last <? 0)%Z then Z.to_nat (Z.max (Z.of_nat len + last) 0)
  else Nat.min (Z.to_nat last) len.

Definition slice0 {A : Type} (l : list A) (last : Z) : list A :=
  take (sliceEnd (length l) last) l.

End JsString.

Export JsString.

(* ================================================================== *)
(** ** UTF-8 *)
(* ================================================================== *)

Module Utf8.

Local Open Scope N_scope.

Definition REPLACEMENT : N := 0xFFFD.

Definition isHighSurrogate (u : N) : bool := (0xD800 <=? u) && (u <=? 0xDBFF).
Definition isLowSurrogate (u : N) : bool := (0xDC00 <=? u) && (u <=? 0xDFFF).
Definition isSurrogate (c : N) : bool := (0xD800 <=? c) && (c <=? 0xDFFF).

(** The code points of a string, as its iterator yields them: a high
    surrogate followed by a low one is a supplementary code point, any
    other unit stands for itself. *)
Fixpoint codePoints (s : jsstring) : list N :=
  match s with
  | [] => []
  | u :: s' =>
      match s' with
      | v :: s'' =>
          if isHighSurrogate u && isLowSurrogate v
          then (0x10000 + (u - 0xD800) * 0x400 + (v - 0xDC00)) :: codePoints s''
          else u :: codePoints s'
      | [] => [u]
      end
  end.

(** The code units of one code point. *)
Definition codeUnits (c : N) : jsstring :=
  if c <? 0x10000 then [c]
  else [0xD800 + (c - 0x10000) / 0x400; 0xDC00 + (c - 0x10000) mod 0x400].

Definition fromCodePoints (cps : list N) : jsstring := flat_map codeUnits cps.

(** What the encoder writes for a code point: a lone surrogate is written
    as U+FFFD. *)
Definition scalarValue (c : N) : N :=
  if isSurrogate c || (0x110000 <=? c) then REPLACEMENT else c.

(** The UTF-8 bytes of one code point. *)
Definition encodeCodePoint (c : N) : list N :=
  if c <? 0x80 then [c]
  else if c <? 0x800 then
    [N.lor 0xC0 (N.shiftr c 6); N.lor 0x80 (N.land c 0x3F)]
  else if c <? 0x10000 then
    if isSurrogate c then [0xEF; 0xBF; 0xBD]
    else [N.lor 0xE0 (N.shiftr c 12);
          N.lor 0x80 (N.land (N.shiftr c 6) 0x3F);
          N.lor 0x80 (N.land c 0x3F)]
  else if c <? 0x110000 then
    [N.lor 0xF0 (N.shiftr c 18);
     N.lor 0x80 (N.land (N.shiftr c 12) 0x3F);
     N.lor 0x80 (N.land (N.shiftr c 6) 0x3F);
     N.lor 0x80 (N.land c 0x3F)]
  else [0xEF; 0xBF; 0xBD].

Definition encodeCodePoints (cps : list N) : list N :=
  flat_map encodeCodePoint cps.

(** [Buffer.from(text, "utf8")] *)
Definition bufferFrom (text : jsstring) : list N :=
  encodeCodePoints (codePoints text).

(** [Buffer.byteLength(text, "utf8")] *)
Definition byteLength (text : jsstring) : nat := length (bufferFrom text).

(** The decoder: the state of the UTF-8 decoder of the Encoding Standard,
    which V8 follows. *)
Record decoder := Decoder {
  d_codePoint : N;
  d_seen : N;
  d_needed : N;
  d_lower : N;
  d_upper : N
}.

Definition decoderInit : decoder := Decoder 0 0 0 0x80 0xBF.

(** A byte read when no sequence is open. *)
Definition decodeLead (b : N) : list N * decoder :=
  if b <=? 0x7F then ([b], decoderInit)
  else if (0xC2 <=? b) && (b <=? 0xDF) then
    ([], Decoder (N.land b 0x1F) 0 1 0x80 0xBF)
  else if (0xE0 <=? b) && (b <=? 0xEF) then
    ([], Decoder (N.land b 0xF) 0 2
                 (if b =? 0xE0 then 0xA0 else 0x80)
                 (if b =? 0xED then 0x9F else 0xBF))
  else if (0xF0 <=? b) && (b <=? 0xF4) then
    ([], Decoder (N.land b 0x7) 0 3
                 (if b =? 0xF0 then 0x90 else 0x80)
                 (if b =? 0xF4 then 0x8F else 0xBF))
  else ([REPLACEMENT], decoderInit).

(** One byte: a continuation byte extends the open sequence; a byte out of
    range closes it with U+FFFD and is read again as a lead byte. *)
Definition decodeByte (st : decoder) (b : N) : list N * decoder :=
  if d_needed st =? 0 then decodeLead b
  else if (d_lower st <=? b) && (b <=? d_upper st) then
    let cp := N.lor (N.shiftl (d_codePoint st) 6) (N.land b 0x3F) in
    let seen := d_seen st + 1 in
    if seen =? d_needed st then ([cp], decoderInit)
    else ([], Decoder cp seen (d_needed st) 0x80 0xBF)
  else
    let '(out, st') := decodeLead b in (REPLACEMENT :: out, st').

Fixpoint decodeFrom (st : decoder) (bytes : list N) : list N * decoder :=
  match bytes with
  | [] => ([], st)
  | b :: bytes' =>
      let '(out, st1) := decodeByte st b in
      let '(out', st2) := decodeFrom st1 bytes' in
      (out ++ out', st2)
  end.

(** End of input: a sequence still open is one U+FFFD. *)
Definition decodeFlush (st : decoder) : list N :=
  if d_needed st =? 0 then [] else [REPLACEMENT].

Definition decode (bytes : list N) : list N :=
  let '(out, st) := decodeFrom decoderInit bytes in out ++ decodeFlush st.

(** [buffer.toString("utf8")] *)
Definition toString (bytes : list N) : jsstring := fromCodePoints (decode bytes).

(** String literals of the source, written here as UTF-8 text. *)
Fixpoint bytesOfLiteral (s : string) : list N :=
  match s with
  | EmptyString => []
  | String a s' => N_of_ascii a :: bytesOfLiteral s'
  end.

Definition js (s : string) : jsstring := toString (bytesOfLiteral s).

End Utf8.

Export Utf8.
Arguments js _%_string.

(* ================================================================== *)
(** ** Promises and the host *)
(* ================================================================== *)

Module Host.

(** The outcome of an awaited promise, or of a call inside [try]: a value,
    or a rejection carrying the message of the error. *)
Inductive result (A : Type) : Type :=
  | Ok (value : A)
  | Rejected (message : jsstring).
Arguments Ok {A} value.
Arguments Rejected {A} message.

(** What [execFile] hands to its callback: [error] ([None] for [null], else
    the message of the error), [stdout] and [stderr]. *)
Record ExecOutcome := {
  exec_error : option jsstring;
  exec_stdout : jsstring;
  exec_stderr : jsstring
}.

(** The collaborators of the collector: the process runner ([execFile] with
    its file, arguments, [cwd], [timeout] and [maxBuffer]), the file system
    ([fs.stat] followed by [isFile()], [fs.readFile]) and [path.join]. *)
Record Host := {
  execFile : jsstring -> list jsstring -> jsstring -> Z -> Z -> ExecOutcome;
  fs_stat_isFile : jsstring -> result bool;
  fs_readFile : jsstring -> result (list N);
  path_join : jsstring -> jsstring -> jsstring
}.

(** Code that runs git: the argument lists passed to [runGit] so far, in
    order, and the outcome.  A rejection ends the run. *)
Definition GitM (A : Type) : Type := list (list jsstring) * result A.

Definition ret {A : Type} (a : A) : GitM A := ([], Ok a).

Definition bind {A B : Type} (m : GitM A) (f : A -> GitM B) : GitM B :=
  match m with
  | (log, Ok a) => let '(log', r) := f a in (log ++ log', r)
  | (log, Rejected message) => (log, Rejected message)
  end.

Definition issued {A : Type} (m : GitM A) : list (list jsstring) := fst m.
Definition outcome {A : Type} (m : GitM A) : result A := snd m.

End Host.

Export Host.

Notation "'await!' x := m 'in' k" := (bind m (fun x => k))
  (at level 10, x name, m at level 100, k at level 200).

(* ================================================================== *)
(** ** src/types.ts *)
(* ================================================================== *)

Inductive UiLanguage : Type := zh | en.

(** The fields of [ExtensionConfig] that the collector and the prompt
    builder read. *)
Record ExtensionConfig := {
  language : UiLanguage;
  commandTimeoutMs : Z;
  includeOnlyStaged : bool;
  maxChangedFiles : Z;
  maxDiffBytes : Z;
  truncateDiff : bool;
  systemPrompt : jsstring;
  ruleTemplate : jsstring;
  additionalRules : jsstring
}.

Record ChangeSnapshot := {
  status : jsstring;
  diff : jsstring;
  wasTruncated : bool;
  wasFileLimited : bool;
  totalChangedFiles : Z;
  includedChangedFiles : Z
}.

Record PromptPayload := {
  payload_systemPrompt : jsstring;
  payload_userPrompt : jsstring
}.

(* ================================================================== *)
(** ** src/git.ts *)
(* ================================================================== *)

Module Git.

Definition nl : jsstring := [10%N].

Definition GIT_MAX_BUFFER_BYTES : Z := 64 * 1024 * 1024.

(** JavaScript numbers: the binary64 value of an integer, division and
    comparison. *)
Definition number (z : Z) : float := PrimFloat.of_uint63 (Uint63.of_Z z).

(** The binary64 value of the literal [0.1]. *)
Definition oneTenth : float := 0x1.999999999999ap-4%float.

Definition runGit (h : Host) (args : list jsstring) (cwd : jsstring)
    (timeoutMs : Z) : GitM jsstring :=
  let r := execFile h (js "git") ([js "-c"; js "core.quotepath=false"] ++ args)
                    cwd timeoutMs GIT_MAX_BUFFER_BYTES in
  ([args],
   match exec_error r with
   | Some message =>
       let details := orElse (trim (exec_stderr r)) message in
       Rejected (js "git " ++ join (js " ") args ++ js " failed: " ++ details)
   | None => Ok (trim (exec_stdout r))
   end).

Definition parseLines (value : jsstring) : list jsstring :=
  filter (fun line => (0 < length line)%nat) (map trim (splitLines value)).

(** The loop of [uniqueLines]: [seen] is the [Set], [output] the array. *)
Fixpoint uniqueLinesLoop (lines : list jsstring) (seen : gset jsstring)
    (output : list jsstring) : list jsstring :=
  match lines with
  | [] => output
  | line :: rest =>
      if bool_decide (line ∈ seen) then uniqueLinesLoop rest seen output
      else uniqueLinesLoop rest ({[line]} ∪ seen) (output ++ [line])
  end.

Definition uniqueLines (lines : list jsstring) : list jsstring :=
  uniqueLinesLoop lines ∅ [].

Definition isControl (byte : N) : bool :=
  (byte <? 32)%N && negb (byte =? 9)%N && negb (byte =? 10)%N
  && negb (byte =? 13)%N.

Fixpoint countNonText (sample : list N) (nonTextCount : Z) : Z :=
  match sample with
  | [] => nonTextCount
  | byte :: rest =>
      countNonText rest (if isControl byte then nonTextCount + 1 else nonTextCount)
  end.

Definition looksBinary (buffer : list N) : bool :=
  if (length buffer =? 0)%nat then false
  else if existsb (N.eqb 0) buffer then true
  else
    let sampleSize := Z.min (Z.of_nat (length buffer)) 1024 in
    let nonTextCount := countNonText (take (Z.to_nat sampleSize) buffer) 0 in
    PrimFloat.ltb oneTenth (PrimFloat.div (number nonTextCount) (number sampleSize)).

Definition readUntrackedFileContent (h : Host) (filePath : jsstring) : jsstring :=
  match fs_stat_isFile h filePath with
  | Rejected reason => js "[Untracked file unavailable: " ++ reason ++ js "]"
  | Ok isFile =>
      if negb isFile then js "[Skipped non-regular file]"
      else
        match fs_readFile h filePath with
        | Rejected reason => js "[Untracked file unavailable: " ++ reason ++ js "]"
        | Ok buffer =>
            if looksBinary buffer then js "[Skipped binary file]"
            else
              let text := toString buffer in
              orElse (trim text) (js "[Empty text file]")
        end
  end.

Definition truncationMarker : jsstring :=
  nl ++ nl ++ js "[Diff truncated due to maxDiffBytes limit]".

Definition trimUtf8 (text : jsstring) (maxBytes : Z) : jsstring * bool :=
  let bytes := byteLength text in
  if (Z.of_nat bytes <=? maxBytes)%Z then (text, false)
  else
    let buffer := bufferFrom text in
    let sliced := toString (slice0 buffer maxBytes) in
    (sliced ++ truncationMarker, true).

(** The sections of one file of the working set. *)
Definition fileSections (h : Host) (repositoryPath : jsstring)
    (config : ExtensionConfig)
    (stagedSet unstagedSet untrackedSet : gset jsstring)
    (filePath : jsstring) : GitM (list jsstring) :=
  await! staged :=
    (if bool_decide (filePath ∈ stagedSet) then
       await! stagedDiff := runGit h
         [js "diff"; js "--staged"; js "--no-color"; js "--no-ext-diff";
          js "--"; filePath]
         repositoryPath (commandTimeoutMs config) in
       ret (if truthy (trim stagedDiff)
            then [js "# Staged diff" ++ nl ++ stagedDiff] else [])
     else ret []) in
  await! unstaged :=
    (if bool_decide (filePath ∈ unstagedSet) then
       await! unstagedDiff := runGit h
         [js "diff"; js "--no-color"; js "--no-ext-diff"; js "--"; filePath]
         repositoryPath (commandTimeoutMs config) in
       ret (if truthy (trim unstagedDiff)
            then [js "# Unstaged diff" ++ nl ++ unstagedDiff] else [])
     else ret []) in
  await! untracked :=
    (if bool_decide (filePath ∈ untrackedSet) then
       let untrackedContent :=
         readUntrackedFileContent h (path_join h repositoryPath filePath) in
       ret (if truthy (trim untrackedContent)
            then [js "# Untracked file content" ++ nl ++ untrackedContent]
            else [])
     else ret []) in
  ret (staged ++ unstaged ++ untracked).

(** The per-file loop: [diffParts] grows by one block for every file that
    has a section. *)
Fixpoint diffPartsLoop (h : Host) (repositoryPath : jsstring)
    (config : ExtensionConfig)
    (stagedSet unstagedSet untrackedSet : gset jsstring)
    (files : list jsstring) (diffParts : list jsstring)
    : GitM (list jsstring) :=
  match files with
  | [] => ret diffParts
  | filePath :: rest =>
      await! sections := fileSections h repositoryPath config
                    stagedSet unstagedSet untrackedSet filePath in
      diffPartsLoop h repositoryPath config stagedSet unstagedSet untrackedSet
        rest
        (if (0 <? length sections)%nat
         then diffParts ++
              [js "## " ++ filePath ++ nl ++ join (nl ++ nl) sections]
         else diffParts)
  end.

(** The local variables of [collectRepositoryChanges] at its [return], and
    the snapshot it returns. *)
Record Locals := {
  l_stagedFiles : list jsstring;
  l_unstagedFiles : list jsstring;
  l_untrackedFiles : list jsstring;
  l_allChangedFiles : list jsstring;
  l_limitedFiles : list jsstring;
  l_diffParts : list jsstring;
  l_merged : jsstring;
  l_returned : ChangeSnapshot
}.

Definition collectBody (h : Host) (repositoryPath : jsstring)
    (config : ExtensionConfig) : GitM Locals :=
  await! status := runGit h [js "status"; js "--short"] repositoryPath
              (commandTimeoutMs config) in
  await! stagedFiles :=
    (await! out := runGit h [js "diff"; js "--name-only"; js "--staged"]
              repositoryPath (commandTimeoutMs config) in
     ret (parseLines out)) in
  await! unstagedFiles :=
    (if includeOnlyStaged config then ret []
     else await! out := runGit h [js "diff"; js "--name-only"] repositoryPath
                   (commandTimeoutMs config) in
          ret (parseLines out)) in
  await! untrackedFiles :=
    (if includeOnlyStaged config then ret []
     else await! out := runGit h [js "ls-files"; js "--others"; js "--exclude-standard"]
                   repositoryPath (commandTimeoutMs config) in
          ret (parseLines out)) in
  let allChangedFiles := uniqueLines (stagedFiles ++ unstagedFiles ++ untrackedFiles) in
  let limitedFiles := slice0 allChangedFiles (maxChangedFiles config) in
  let wasFileLimited := (length limitedFiles <? length allChangedFiles)%nat in
  let stagedSet : gset jsstring := list_to_set stagedFiles in
  let unstagedSet : gset jsstring := list_to_set unstagedFiles in
  let untrackedSet : gset jsstring := list_to_set untrackedFiles in
  await! diffParts := diffPartsLoop h repositoryPath config
                 stagedSet unstagedSet untrackedSet limitedFiles [] in
  let merged := join (nl ++ nl) diffParts in
  let trimmed :=
    if truncateDiff config then trimUtf8 merged (maxDiffBytes config)
    else (merged, false) in
  ret {| l_stagedFiles := stagedFiles;
         l_unstagedFiles := unstagedFiles;
         l_untrackedFiles := untrackedFiles;
         l_allChangedFiles := allChangedFiles;
         l_limitedFiles := limitedFiles;
         l_diffParts := diffParts;
         l_merged := merged;
         l_returned :=
           {| status := status;
              diff := fst trimmed;
              wasTruncated := snd trimmed;
              wasFileLimited := wasFileLimited;
              totalChangedFiles := Z.of_nat (length allChangedFiles);
              includedChangedFiles := Z.of_nat (length limitedFiles) |} |}.

Definition collectRepositoryChanges (h : Host) (repositoryPath : jsstring)
    (config : ExtensionConfig) : GitM ChangeSnapshot :=
  await! locals := collectBody h repositoryPath config in
  ret (l_returned locals).

End Git.

Export Git.

(* ================================================================== *)
(** ** src/prompt.ts *)
(* ================================================================== *)

Module Prompt.

Definition quote : jsstring := [34%N].

(** [`${n}`] for an integer. *)
Definition numberToString (n : Z) : jsstring :=
  js (NilZero.string_of_int (Z.to_int n)).

Definition zhConstraints : jsstring :=
  js "输出约束:" ++ nl ++
  js "- 输出 1 条完整提交信息（可多行）" ++ nl ++
  js "- 第一行格式：<gitmoji> <type>(可选scope): <subject>" ++ nl ++
  js "- 后续每行描述一个具体改动点" ++ nl ++
  js "- 不要使用 markdown" ++ nl ++
  js "- 不要加引号" ++ nl ++
  js "- 冒号后必须有主题内容" ++ nl ++
  js "- 主题必须具体，不能只写“添加/修改/更新”等泛化词".

Definition enConstraints : jsstring :=
  js "Output constraints:" ++ nl ++
  js "- Return one complete commit message (multiple lines allowed)" ++ nl ++
  js "- First line format: <gitmoji> <type>(optional-scope): <subject>" ++ nl ++
  js "- Each following line should describe one concrete change" ++ nl ++
  js "- Do not use markdown" ++ nl ++
  js "- Do not wrap in quotes" ++ nl ++
  js "- Subject must exist after " ++ quote ++ js ":" ++ quote ++ nl ++
  js "- Subject must be specific and not generic words like " ++
  quote ++ js "update" ++ quote ++ js " or " ++ quote ++ js "changes" ++ quote.

(** The array [sections] of [buildPrompt] at its [return]: each optional
    [push] is a list of zero or one section. *)
Definition promptSections (snapshot : ChangeSnapshot) (config : ExtensionConfig)
    : list jsstring :=
  [js "Task: Create one detailed git commit message based on the repository changes."]
  ++ [js "Rules:" ++ nl ++ ruleTemplate config]
  ++ (if truthy (trim (additionalRules config))
      then [js "Additional rules:" ++ nl ++ trim (additionalRules config)]
      else [])
  ++ (match language config with
      | zh => [js "语言要求：输出必须为简体中文。"; zhConstraints]
      | en => [js "Language requirement: Output must be in English.";
               enConstraints]
      end)
  ++ (if truthy (trim (status snapshot))
      then [js "Git status (short):" ++ nl ++ status snapshot]
      else [])
  ++ [js "Git diff:" ++ nl ++ orElse (diff snapshot) (js "(no diff provided)")]
  ++ (if wasFileLimited snapshot
      then [js "Note: Changed files were limited to "
            ++ numberToString (includedChangedFiles snapshot) ++ js "/"
            ++ numberToString (totalChangedFiles snapshot)
            ++ js " by maxChangedFiles."]
      else [])
  ++ (if wasTruncated snapshot
      then [js "Note: Diff content was truncated for performance limits."]
      else []).

Definition buildPrompt (snapshot : ChangeSnapshot) (config : ExtensionConfig)
    : PromptPayload :=
  {| payload_systemPrompt := systemPrompt config;
     payload_userPrompt := join (nl ++ nl) (promptSections snapshot config) |}.

End Prompt.

Export Prompt.

(* ================================================================== *)
(** ** src/git.ts: the git extension and the choice of a repository *)
(* ================================================================== *)

Module Repositories.

(** The parts of a [vscode.Uri] that the code reads. *)
Record Uri := {
  scheme : jsstring;
  fsPath : jsstring
}.

(** A repository of the git extension: its root and the text of its
    commit input box. *)
Record GitRepository := {
  rootUri : Uri;
  inputBox : jsstring
}.

Record GitAPI := {
  repositories : list GitRepository
}.

Record GitExtension := {
  enabled : bool;
  getAPI : GitAPI
}.

(** What [vscode.extensions.getExtension] returns: an extension that is
    active, with its exports, or one still to activate, with the outcome of
    activating it. *)
Inductive ExtensionHandle : Type :=
  | Active (exports : GitExtension)
  | Inactive (activate : result GitExtension).

Definition getGitApi (extension : option ExtensionHandle)
    : result (option GitAPI) :=
  match extension with
  | None => Ok None
  | Some handle =>
      let activated :=
        match handle with
        | Active exports => Ok exports
        | Inactive activate => activate
        end in
      match activated with
      | Rejected message => Rejected message
      | Ok gitExtension =>
          if negb (enabled gitExtension) then Ok None
          else Ok (Some (getAPI gitExtension))
      end
  end.

(** A value of type [unknown], as [extractContextRoot] tells values apart:
    anything that is falsy or whose [typeof] is not ["object"], or an
    object, with its [rootUri] when that is a [vscode.Uri]. *)
Inductive Unknown : Type :=
  | NotAnObject
  | AnObject (rootUri : option Uri).

Definition extractContextRoot (value : Unknown) : option Uri :=
  match value with
  | NotAnObject => None
  | AnObject maybeRoot => maybeRoot
  end.

(** [s.startsWith(search)] *)
Fixpoint startsWith (s search : jsstring) {struct search} : bool :=
  match search with
  | [] => true
  | c :: search' =>
      match s with
      | [] => false
      | d :: s' => (d =? c)%N && startsWith s' search'
      end
  end.

(** [value.replace(/\\/g, "/")] *)
Definition slashes (value : jsstring) : jsstring :=
  map (fun u => if (u =? 0x5C)%N then 0x2F%N else u) value.

Section Paths.

(** [String.prototype.toLowerCase], left as the runtime has it. *)
Variable toLowerCase : jsstring -> jsstring.

(** [vscode.window.activeTextEditor?.document.uri] *)
Variable activeUri : option Uri.

Definition normalizePath (value : jsstring) : jsstring :=
  toLowerCase (slashes value).

Definition sameFsPath (left right : jsstring) : bool :=
  bool_decide (normalizePath left = normalizePath right).

Definition isPathInside (targetPath rootPath : jsstring) : bool :=
  let normalizedTarget := normalizePath targetPath in
  let normalizedRoot := normalizePath rootPath in
  bool_decide (normalizedTarget = normalizedRoot)
  || startsWith normalizedTarget (normalizedRoot ++ js "/").

(** [sort((a, b) => b.rootUri.fsPath.length - a.rootUri.fsPath.length)]:
    the sort is stable, so the result is the one of inserting each
    repository, from the last to the first, before the first repository
    whose root is not longer than its own. *)
Fixpoint insertByRootLength (repo : GitRepository)
    (sorted : list GitRepository) : list GitRepository :=
  match sorted with
  | [] => [repo]
  | other :: rest =>
      if (length (fsPath (rootUri repo))
          <? length (fsPath (rootUri other)))%nat
      then other :: insertByRootLength repo rest
      else repo :: sorted
  end.

Definition sortByRootLength (repos : list GitRepository)
    : list GitRepository :=
  fold_right insertByRootLength [] repos.

Definition pickRepository (repos : list GitRepository)
    (scmContext : Unknown) : option GitRepository :=
  if (length repos =? 0)%nat then None
  else
    let byContext :=
      match extractContextRoot scmContext with
      | Some fromContext =>
          List.find
            (fun repo => sameFsPath (fsPath (rootUri repo)) (fsPath fromContext))
            repos
      | None => None
      end in
    match byContext with
    | Some found => Some found
    | None =>
        let byEditor :=
          match activeUri with
          | Some uri =>
              if bool_decide (scheme uri = js "file") then
                List.find
                  (fun repo => isPathInside (fsPath uri) (fsPath (rootUri repo)))
                  (sortByRootLength repos)
              else None
          | None => None
          end in
        match byEditor with
        | Some found => Some found
        | None => head repos
        end
    end.

End Paths.

End Repositories.

Export Repositories.

(* ================================================================== *)
(** ** src/config.ts: base URL and request path *)
(* ================================================================== *)

Module Config.

Inductive Provider : Type :=
  | openai | deepseek | gemini | kimi | glm | custom.

(** The table has no entry for [custom]. *)
Definition DEFAULT_BASE_URLS (provider : Provider) : option jsstring :=
  match provider with
  | openai => Some (js "https://api.openai.com/v1")
  | deepseek => Some (js "https://api.deepseek.com/v1")
  | gemini => Some (js "https://generativelanguage.googleapis.com")
  | kimi => Some (js "https://api.moonshot.cn/v1")
  | glm => Some (js "https://open.bigmodel.cn/api/paas/v4")
  | custom => None
  end.

(** The fields of [ExtensionConfig] that [resolveBaseUrl] reads. *)
Record EndpointConfig := {
  provider : Provider;
  baseUrl : jsstring
}.

Fixpoint dropLeadingSlashes (s : jsstring) : jsstring :=
  match s with
  | [] => []
  | u :: s' => if (u =? 0x2F)%N then dropLeadingSlashes s' else s
  end.

(** [value.replace(/\/+$/, "")]: the pattern matches the run of slashes
    that ends the string, where there is one. *)
Definition stripTrailingSlashes (value : jsstring) : jsstring :=
  rev (dropLeadingSlashes (rev value)).

Definition ensureLeadingSlash (value : jsstring) : jsstring :=
  if negb (truthy value) then js "/chat/completions"
  else if startsWith value (js "/") then value
  else js "/" ++ value.

Definition resolveBaseUrl (config : EndpointConfig) : jsstring :=
  if truthy (baseUrl config) then stripTrailingSlashes (baseUrl config)
  else
    match DEFAULT_BASE_URLS (provider config) with
    | None => []
    | Some url => url
    end.

End Config.

Export Config.

(* ================================================================== *)
(** ** src/extension.ts: the command *)
(* ================================================================== *)

Module Extension.

(** What the command does that can be seen from outside, in order. *)
Inductive Effect : Type :=
  | RunGit (args : list jsstring)
  | AskModel (prompt : PromptPayload)
  | SetInputBox (repository : GitRepository) (value : jsstring)
  | WriteClipboard (text : jsstring)
  | ShowInformationMessage (message : jsstring)
  | ShowErrorMessage (message : jsstring).

(** Code of the command: the effects so far, and the outcome. *)
Definition Run (A : Type) : Type := list Effect * result A.

Definition done {A : Type} (a : A) : Run A := ([], Ok a).

Definition andThen {A B : Type} (m : Run A) (f : A -> Run B) : Run B :=
  match m with
  | (log, Ok a) => let '(log', r) := f a in (log ++ log', r)
  | (log, Rejected message) => (log, Rejected message)
  end.

Definition effect (e : Effect) : Run unit := ([e], Ok tt).

Definition awaited {A : Type} (r : result A) : Run A := ([], r).

(** A run of the collector, seen from the command. *)
Definition git {A : Type} (m : GitM A) : Run A :=
  (map RunGit (issued m), outcome m).

(** The editor around the command: [readConfig()] with the
    [copyToClipboard] setting, the git extension, the active editor, the
    model client of [./ai] and the clipboard. *)
Record Editor := {
  readConfig : ExtensionConfig;
  copyToClipboard : bool;
  gitExtension : option ExtensionHandle;
  activeTextEditorUri : option Uri;
  generateCommitText : PromptPayload -> ExtensionConfig -> result jsstring;
  clipboard_writeText : jsstring -> result unit
}.

End Extension.

Export Extension.

Notation "'do!' x := m 'in' k" := (andThen m (fun x => k))
  (at level 10, x name, m at level 100, k at level 200).
Notation "'run!' m 'in' k" := (andThen m (fun _ => k))
  (at level 10, m at level 100, k at level 200).

Module Command.

Section Command.

Variable toLowerCase : jsstring -> jsstring.
Variable editor : Editor.
Variable h : Host.

(** The task that [runGenerateCommitMessage] hands to [withProgress], for
    the repository it has chosen. *)
Definition generationTask (repository : GitRepository) : Run unit :=
  let config := readConfig editor in
  do! snapshot :=
    git (collectRepositoryChanges h (fsPath (rootUri repository)) config) in
  if negb (truthy (trim (status snapshot))) then
    effect (ShowInformationMessage
              (js "No changes detected in this repository."))
  else
    let prompt := buildPrompt snapshot config in
    do! commitMessage :=
      (run! effect (AskModel prompt) in
       awaited (generateCommitText editor prompt config)) in
    run! effect (SetInputBox repository commitMessage) in
    run! (if copyToClipboard editor then
            run! effect (WriteClipboard commitMessage) in
            awaited (clipboard_writeText editor commitMessage)
          else done tt) in
    effect (ShowInformationMessage
              (js "Commit message generated and filled into Source Control input.")).

(** The body of the [try] of [runGenerateCommitMessage]. *)
Definition commandBody (scmContext : Unknown) : Run unit :=
  do! gitApi := awaited (getGitApi (gitExtension editor)) in
  match gitApi with
  | None =>
      effect (ShowErrorMessage
                (js "Git extension is unavailable or disabled in VS Code."))
  | Some api =>
      match pickRepository toLowerCase (activeTextEditorUri editor)
              (repositories api) scmContext with
      | None =>
          effect (ShowErrorMessage
                    (js "No Git repository found in the current workspace."))
      | Some repository => generationTask repository
      end
  end.

(** [runGenerateCommitMessage]: the [catch] shows the message of whatever
    the body rejected with. *)
Definition runGenerateCommitMessage (scmContext : Unknown) : list Effect :=
  match commandBody scmContext with
  | (log, Ok _) => log
  | (log, Rejected message) =>
      log ++ [ShowErrorMessage (js "AutoGit LLM failed: " ++ message)]
  end.

End Command.

End Command.

Export Command.

(* ================================================================== *)
(** ** The earlier collector (the [git.ts] kept beside [prompt.ts]) *)
(* ================================================================== *)

Module GitV1.

Record ChangeSnapshot := {
  status : jsstring;
  diff : jsstring;
  wasTruncated : bool
}.

Definition runGit (h : Host) (args : list jsstring) (cwd : jsstring)
    (timeoutMs : Z) : GitM jsstring :=
  let r := execFile h (js "git") ([js "-c"; js "core.quotepath=false"] ++ args)
                    cwd timeoutMs (8 * 1024 * 1024) in
  ([args],
   match exec_error r with
   | Some message =>
       let details := orElse (trim (exec_stderr r)) message in
       Rejected (js "git " ++ join (js " ") args ++ js " failed: " ++ details)
   | None => Ok (trim (exec_stdout r))
   end).

Definition collectRepositoryChanges (h : Host) (repositoryPath : jsstring)
    (config : ExtensionConfig) : GitM ChangeSnapshot :=
  await! status := runGit h [js "status"; js "--short"] repositoryPath
                     (commandTimeoutMs config) in
  await! staged := runGit h
                     [js "diff"; js "--staged"; js "--no-color"; js "--no-ext-diff"]
                     repositoryPath (commandTimeoutMs config) in
  let stagedParts :=
    if truthy (trim staged) then [js "# Staged changes"; staged] else [] in
  await! unstagedParts :=
    (if negb (includeOnlyStaged config) then
       await! unstaged := runGit h
                            [js "diff"; js "--no-color"; js "--no-ext-diff"]
                            repositoryPath (commandTimeoutMs config) in
       ret (if truthy (trim unstaged)
            then [js "# Unstaged changes"; unstaged] else [])
     else ret []) in
  let diffParts := stagedParts ++ unstagedParts in
  let merged := join (nl ++ nl) diffParts in
  let trimmed := trimUtf8 merged (maxDiffBytes config) in
  ret {| status := status;
         diff := fst trimmed;
         wasTruncated := snd trimmed |}.

End GitV1.

(* ================================================================== *)
(** ** Vocabulary of the specification *)
(* ================================================================== *)

Module Spec.

(** No leading and no trailing white space. *)
Definition trimmed (s : jsstring) : Prop :=
  (forall u, head s = Some u -> isWhiteSpace u = false) /\
  (forall u, last s = Some u -> isWhiteSpace u = false).

(** The spec's merge: each distinct path once, at its first occurrence. *)
Fixpoint firstSeen (paths : list jsstring) : list jsstring :=
  match paths with
  | [] => []
  | p :: rest => p :: filter (fun q => q <> p) (firstSeen rest)
  end.

(** [x] occurs in [l] before every occurrence of [y]. *)
Definition seenBefore (l : list jsstring) (x y : jsstring) : Prop :=
  exists a, l !! a = Some x /\ forall b, l !! b = Some y -> (a < b)%nat.

(** The longest prefix of whole code points whose UTF-8 bytes fit in
    [budget] bytes: the first [budget] bytes of the encoding, less a
    trailing partial code point. *)
Fixpoint wholePrefix (cps : list N) (budget : nat) : list N :=
  match cps with
  | [] => []
  | c :: rest =>
      let n := length (encodeCodePoint c) in
      if (n <=? budget)%nat then c :: wholePrefix rest (budget - n) else []
  end.

(** The truncator as the spec words it: the whole code points that fit,
    then the marker. *)
Definition truncateDropping (text : jsstring) (maxBytes : Z) : jsstring :=
  fromCodePoints (map scalarValue (wholePrefix (codePoints text) (Z.to_nat maxBytes)))
  ++ truncationMarker.

(** A string that decodes cleanly: decoding its UTF-8 bytes gives it back,
    with no byte replaced. *)
Definition decodesCleanly (s : jsstring) : Prop :=
  toString (bufferFrom s) = s.

(** [nonTextCount / sampleSize > 0.1] as the source computes it. *)
Definition ratioExceeds (count size : Z) : bool :=
  PrimFloat.ltb oneTenth (PrimFloat.div (number count) (number size)).

(** The binary64 quotient agrees with the exact fraction on every sample
    the classifier can meet: sizes up to 1024, counts up to the size.  The
    table is checked by evaluation. *)
Fixpoint checkCounts (fuel : nat) (count size : Z) : bool :=
  match fuel with
  | O => true
  | S k => Bool.eqb (ratioExceeds count size) (size <? 10 * count)%Z
           && checkCounts k (count + 1)%Z size
  end.

Fixpoint checkSizes (fuel : nat) (size : Z) : bool :=
  match fuel with
  | O => true
  | S k => checkCounts (S (Z.to_nat size)) 0%Z size
           && checkSizes k (size + 1)%Z
  end.

(** The states the decoder goes through on the bytes of one code point:
    [open] holds of the state after each strict, non-empty prefix. *)
Definition opens (c : N) : Prop :=
  forall k, (0 < k < length (encodeCodePoint c))%nat ->
    fst (decodeFrom decoderInit (take k (encodeCodePoint c))) = [] /\
    d_needed (snd (decodeFrom decoderInit (take k (encodeCodePoint c))))
      <> 0%N.

(** A Unicode scalar value: the encoder writes it as it is. *)
Definition isScalar (c : N) : Prop := scalarValue c = c.

(** The code points kept by a cut after [n] bytes. *)
Definition keptCodePoints (text : jsstring) (n : nat) : list N :=
  map scalarValue (wholePrefix (codePoints text) n) ++
  (if (length (encodeCodePoints (wholePrefix (codePoints text) n)) =? n)%nat
   then [] else [REPLACEMENT]).

(** What [execFile] reports for [runGit args]. *)
Definition gitOutcome (h : Host) (repositoryPath : jsstring)
    (config : ExtensionConfig) (args : list jsstring) : ExecOutcome :=
  execFile h (js "git") ([js "-c"; js "core.quotepath=false"] ++ args)
           repositoryPath (commandTimeoutMs config) GIT_MAX_BUFFER_BYTES.

(** The message of the error [runGit args] rejects with. *)
Definition commandError (h : Host) (repositoryPath : jsstring)
    (config : ExtensionConfig) (args : list jsstring) (message : jsstring)
    : jsstring :=
  js "git " ++ join (js " ") args ++ js " failed: "
  ++ orElse (trim (exec_stderr (gitOutcome h repositoryPath config args))) message.

(** A run in which a failing command is the end of the run. *)
Definition abortsOnFailure (h : Host) (repositoryPath : jsstring)
    (config : ExtensionConfig) {A : Type} (m : GitM A) : Prop :=
  forall args message,
    args ∈ issued m ->
    exec_error (gitOutcome h repositoryPath config args) = Some message ->
    outcome m = Rejected (commandError h repositoryPath config args message).

(** [sections] holds a section that starts with [header]. *)
Definition hasSection (header : jsstring) (sections : list jsstring) : Prop :=
  exists s, s ∈ sections /\ header `prefix_of` s.

(** [s.includes(search)] *)
Fixpoint includes (s search : jsstring) : bool :=
  startsWith s search ||
  match s with
  | [] => false
  | _ :: s' => includes s' search
  end.

(** [part] is what an optional section adds to the prompt: a blank line
    and the section when [present] holds, nothing otherwise. *)
Definition sectionWhen (present : Prop) (section part : jsstring) : Prop :=
  (present /\ part = nl ++ nl ++ section) \/ (~ present /\ part = []).

(** The texts that the caller hands to [buildPrompt] and that end up in
    the user prompt hold [phrase] somewhere. *)
Definition quotes (snapshot : ChangeSnapshot) (config : ExtensionConfig)
    (phrase : jsstring) : bool :=
  includes (ruleTemplate config) phrase
  || includes (additionalRules config) phrase
  || includes (status snapshot) phrase
  || includes (diff snapshot) phrase.

(** A decimal digit or the minus sign. *)
Definition numeral (u : N) : Prop := u = 45%N \/ (48 <= u <= 57)%N.

End Spec.

Export Spec.

(* ================================================================== *)
(** ** Scripted hosts *)
(* ================================================================== *)

Module Examples.

Definition succeeded (stdout : jsstring) : ExecOutcome :=
  {| exec_error := None; exec_stdout := stdout; exec_stderr := [] |}.

Definition failed (message stderr : jsstring) : ExecOutcome :=
  {| exec_error := Some message; exec_stdout := []; exec_stderr := stderr |}.

Fixpoint reply (script : list (list jsstring * ExecOutcome))
    (args : list jsstring) : ExecOutcome :=
  match script with
  | [] => succeeded []
  | (expected, r) :: rest =>
      if bool_decide (args = expected) then r else reply rest args
  end.

(** An entry of the scripted file system: a directory, or a regular file
    with the outcome of reading it. *)
Inductive entry : Type :=
  | Directory
  | RegularFile (read : result (list N)).

Fixpoint find (entries : list (jsstring * entry)) (path : jsstring)
    : option entry :=
  match entries with
  | [] => None
  | (p, e) :: rest => if bool_decide (path = p) then Some e else find rest path
  end.

Definition noEntry : jsstring := js "ENOENT: no such file or directory".

(** A host that answers git commands from [script] and serves [entries]
    from disk. *)
Definition scripted (script : list (list jsstring * ExecOutcome))
    (entries : list (jsstring * entry)) : Host :=
  {| execFile := fun _ argv _ _ _ => reply script (drop 2 argv);
     fs_stat_isFile := fun path =>
       match find entries path with
       | None => Rejected noEntry
       | Some Directory => Ok false
       | Some (RegularFile _) => Ok true
       end;
     fs_readFile := fun path =>
       match find entries path with
       | Some (RegularFile read) => read
       | Some Directory => Rejected (js "EISDIR: illegal operation on a directory")
       | None => Rejected noEntry
       end;
     path_join := fun a b => a ++ js "/" ++ b |}.

Definition repo : jsstring := js "/work/repo".

Definition settings (onlyStaged : bool) (files bytes : Z) (truncate : bool)
    : ExtensionConfig :=
  {| language := en; commandTimeoutMs := 12000;
     includeOnlyStaged := onlyStaged; maxChangedFiles := files;
     maxDiffBytes := bytes; truncateDiff := truncate;
     systemPrompt := js "You write commit messages.";
     ruleTemplate := js "One line."; additionalRules := [] |}.

Definition stagedDiffOf (path : jsstring) : list jsstring :=
  [js "diff"; js "--staged"; js "--no-color"; js "--no-ext-diff"; js "--"; path].

(** One staged file [f] whose diff is [content]. *)
Definition stagedOnly (content : jsstring) : Host :=
  scripted
    [([js "status"; js "--short"], succeeded (js "M  f"));
     ([js "diff"; js "--name-only"; js "--staged"], succeeded (js "f"));
     (stagedDiffOf (js "f"), succeeded content)]
    [].

(** 2100 times U+00E9, two bytes each. *)
Definition accents : jsstring := flat_map (fun _ => js "é") (seq 0 2100).

(** A working tree with two staged files, the first with an empty diff,
    and an untracked binary file. *)
Definition workingTree : Host :=
  scripted
    [([js "status"; js "--short"],
      succeeded (js "M  gone.txt" ++ nl ++ js "M  a.txt" ++ nl ++ js "?? b.bin"));
     ([js "diff"; js "--name-only"; js "--staged"],
      succeeded (js "gone.txt" ++ nl ++ js "a.txt"));
     ([js "diff"; js "--name-only"], succeeded []);
     ([js "ls-files"; js "--others"; js "--exclude-standard"],
      succeeded (js "b.bin"));
     (stagedDiffOf (js "gone.txt"), succeeded []);
     (stagedDiffOf (js "a.txt"),
      succeeded (js "--- a/a.txt" ++ nl ++ js "+content"))]
    [(js "/work/repo/b.bin", RegularFile (Ok [0; 1]%N))].

(** A repository in which listing the unstaged files fails. *)
Definition brokenIndex : Host :=
  scripted
    [([js "status"; js "--short"], succeeded (js "M  a.txt"));
     ([js "diff"; js "--name-only"; js "--staged"], succeeded (js "a.txt"));
     ([js "diff"; js "--name-only"],
      failed (js "Command failed: git diff --name-only")
             (js "fatal: index file corrupt" ++ nl))]
    [].

(** A directory, a binary file, an empty file and a file that cannot be
    read. *)
Definition disk : Host :=
  scripted []
    [(js "/work/repo/dir", Directory);
     (js "/work/repo/zeros", RegularFile (Ok [0; 0]%N));
     (js "/work/repo/empty", RegularFile (Ok []));
     (js "/work/repo/locked", RegularFile (Rejected (js "EACCES: permission denied")))].

(** A snapshot of a limited run, with a blank line inside its diff. *)
Definition limitedTree : ChangeSnapshot :=
  {| status := js "M  a.txt";
     diff := js "## a.txt" ++ nl ++ js "# Staged diff" ++ nl ++ js "+x" ++ nl
             ++ nl ++ js "+y";
     wasTruncated := false;
     wasFileLimited := true;
     totalChangedFiles := 12;
     includedChangedFiles := 10 |}.

End Examples.

Export Examples.

(* ================================================================== *)
(** ** Vocabulary of the further properties *)
(* ================================================================== *)

Module Properties.

(** A line as git prints a path: not empty, no white space at either end,
    no line feed inside. *)
Definition pathLine (line : jsstring) : Prop :=
  line <> [] /\ trimmed line /\ 10%N ∉ line.

(** A string of 16-bit code units in which every surrogate is paired. *)
Definition wellFormedText (text : jsstring) : Prop :=
  Forall (fun u => (u < 0x10000)%N) text /\ Forall isScalar (codePoints text).

(** The three commands that only look at the index. *)
Definition stagedQuery (args : list jsstring) : Prop :=
  args = [js "status"; js "--short"] \/
  args = [js "diff"; js "--name-only"; js "--staged"] \/
  exists filePath,
    args = [js "diff"; js "--staged"; js "--no-color"; js "--no-ext-diff";
            js "--"; filePath].

(** A section of a block: one of the three labels, a line feed, and a text
    that is not blank. *)
Definition labelledSection (section : jsstring) : Prop :=
  exists label text,
    (label = js "# Staged diff" \/ label = js "# Unstaged diff" \/
     label = js "# Untracked file content") /\
    trim text <> [] /\ section = label ++ nl ++ text.

(** The block of [filePath]: its header and at least one section. *)
Definition blockOf (part filePath : jsstring) : Prop :=
  exists sections,
    sections <> [] /\ Forall labelledSection sections /\
    part = js "## " ++ filePath ++ nl ++ join (nl ++ nl) sections.

(** [value] is what the model answered for the changes of [repository]. *)
Definition modelReply (editor : Editor) (h : Host)
    (repository : GitRepository) (value : jsstring) : Prop :=
  exists snapshot,
    outcome (collectRepositoryChanges h (fsPath (rootUri repository))
               (readConfig editor)) = Ok snapshot /\
    trim (status snapshot) <> [] /\
    generateCommitText editor (buildPrompt snapshot (readConfig editor))
      (readConfig editor) = Ok value.

(** A list of repositories with the longest root first. *)
Definition longestFirst (repos : list GitRepository) : Prop :=
  forall l1 x l2 y, repos = l1 ++ x :: l2 -> y ∈ l2 ->
    (length (fsPath (rootUri y)) <= length (fsPath (rootUri x)))%nat.

Definition isMessage (e : Effect) : bool :=
  match e with
  | ShowInformationMessage _ | ShowErrorMessage _ => true
  | _ => false
  end.

Definition isAskModel (e : Effect) : bool :=
  match e with AskModel _ => true | _ => false end.

Definition isSetInputBox (e : Effect) : bool :=
  match e with SetInputBox _ _ => true | _ => false end.

Definition isRunGit (e : Effect) : bool :=
  match e with RunGit _ => true | _ => false end.

(** One message, at the end; the model asked and the input box set at most
    once. *)
Definition wellEnded (effects : list Effect) : Prop :=
  (exists before message,
     effects = before ++ [message] /\ isMessage message = true /\
     Forall (fun e => isMessage e = false) before) /\
  (length (List.filter isAskModel effects) <= 1)%nat /\
  (length (List.filter isSetInputBox effects) <= 1)%nat.

(** The same, as a check of the effects that follow the git commands. *)
Definition endsWell (tail : list Effect) : bool :=
  match rev tail with
  | message :: before =>
      isMessage message && forallb (fun e => negb (isMessage e)) before
  | [] => false
  end
  && (length (List.filter isAskModel tail) <=? 1)%nat
  && (length (List.filter isSetInputBox tail) <=? 1)%nat.

End Properties.

Export Properties.

(* ================================================================== *)
(** ** More scripted hosts *)
(* ================================================================== *)

Module MoreExamples.

(** Lower case for the letters A to Z, other code units as they are. *)
Definition lowerAscii (s : jsstring) : jsstring :=
  map (fun u => if ((65 <=? u) && (u <=? 90))%N then (u + 32)%N else u) s.

Definition fileUri (path : jsstring) : Uri :=
  {| scheme := js "file"; fsPath := path |}.

Definition repoAt (path : jsstring) : GitRepository :=
  {| rootUri := fileUri path; inputBox := [] |}.

(** A workspace with a repository and another one nested in it. *)
Definition workspace : list GitRepository :=
  [repoAt (js "/Work"); repoAt (js "/work/app"); repoAt (js "/other")].

(** A text file with white space around its text. *)
Definition notes : jsstring := js "  héllo 😀 " ++ nl.

Definition textDisk : Host :=
  scripted [] [(js "/work/repo/notes.txt", RegularFile (Ok (bufferFrom notes)))].

(** An editor with the git extension active on one repository, and a model
    that answers [reply]. *)
Definition editorWith (copy : bool) (reply : result jsstring) : Editor :=
  {| readConfig := settings true 10 4096 true;
     copyToClipboard := copy;
     gitExtension :=
       Some (Active {| enabled := true;
                       getAPI := {| repositories := [repoAt repo] |} |});
     activeTextEditorUri := None;
     generateCommitText := fun _ _ => reply;
     clipboard_writeText := fun _ => Ok tt |}.

(** A repository whose status is clean. *)
Definition cleanTree : Host :=
  scripted [([js "status"; js "--short"], succeeded [])] [].

(** A directory that is not a repository. *)
Definition notARepository : Host :=
  scripted
    [([js "status"; js "--short"],
      failed (js "Command failed: git status --short")
             (js "fatal: not a git repository" ++ nl))]
    [].

(** A working tree as the earlier collector sees it: one staged diff. *)
Definition earlierTree : Host :=
  scripted
    [([js "status"; js "--short"], succeeded (js "M  f"));
     ([js "diff"; js "--staged"; js "--no-color"; js "--no-ext-diff"],
      succeeded accents)]
    [].

End MoreExamples.

Export MoreExamples.

(* ================================================================== *)
(** ** Strings: trimming, splitting, joining *)
(* ================================================================== *)

Section StringFacts.

Lemma trimStart_decompose (s : jsstring) :
  exists k, s = k ++ trimStart s /\ forallb isWhiteSpace k = true.
Proof.
  induction s as [|u s IH]; simpl.
  - exists []. auto.
  - destruct (isWhiteSpace u) eqn:Hu.
    + destruct IH as (k & Hk & Hall). exists (u :: k). simpl.
      rewrite Hu, Hall. split; [congruence | reflexivity].
    + exists []. auto.
Qed.

Lemma trimStart_head (s : jsstring) (u : N) :
  head (trimStart s) = Some u -> isWhiteSpace u = false.
Proof.
  induction s as [|v s IH]; simpl; [discriminate|].
  destruct (isWhiteSpace v) eqn:Hv; [exact IH|].
  simpl. intros [= <-]. exact Hv.
Qed.

Lemma trimStart_fixed (s : jsstring) :
  (forall u, head s = Some u -> isWhiteSpace u = false) -> trimStart s = s.
Proof.
  destruct s as [|u s]; simpl; [reflexivity|].
  intros H. rewrite (H u eq_refl). reflexivity.
Qed.

Lemma trimStart_idem (s : jsstring) : trimStart (trimStart s) = trimStart s.
Proof. apply trimStart_fixed, trimStart_head. Qed.

Lemma trimEnd_decompose (s : jsstring) :
  exists k, s = trimEnd s ++ k /\ forallb isWhiteSpace k = true.
Proof.
  destruct (trimStart_decompose (rev s)) as (k & Hk & Hall).
  exists (rev k). split.
  - unfold trimEnd. rewrite <- rev_app_distr, <- Hk, rev_involutive. reflexivity.
  - rewrite forallb_forall in *. intros x Hx. apply Hall, in_rev, Hx.
Qed.

Lemma last_rev_head (s : jsstring) : last (rev s) = head s.
Proof. destruct s as [|u s]; simpl; [reflexivity | apply last_snoc]. Qed.

Lemma trimEnd_last (s : jsstring) (u : N) :
  last (trimEnd s) = Some u -> isWhiteSpace u = false.
Proof.
  unfold trimEnd. rewrite last_rev_head. apply trimStart_head.
Qed.

Lemma trimEnd_fixed (s : jsstring) :
  (forall u, last s = Some u -> isWhiteSpace u = false) -> trimEnd s = s.
Proof.
  intros H. unfold trimEnd. rewrite trimStart_fixed.
  - apply rev_involutive.
  - intros u Hu. apply H. rewrite <- (rev_involutive s), last_rev_head. exact Hu.
Qed.

Lemma trimEnd_head (s : jsstring) (u : N) :
  head (trimEnd s) = Some u -> head s = Some u.
Proof.
  destruct (trimEnd_decompose s) as (k & Hk & _).
  intros H. rewrite Hk. destruct (trimEnd s); [discriminate | exact H].
Qed.

Lemma trim_trimmed (s : jsstring) : trimmed (trim s).
Proof.
  split; intros u Hu.
  - apply trimEnd_head in Hu. eapply trimStart_head, Hu.
  - eapply trimEnd_last, Hu.
Qed.

Lemma trimmed_trim (s : jsstring) : trimmed s -> trim s = s.
Proof.
  intros [Hh Hl]. unfold trim. rewrite (trimStart_fixed s Hh).
  apply trimEnd_fixed, Hl.
Qed.

Lemma trim_idem (s : jsstring) : trim (trim s) = trim s.
Proof. apply trimmed_trim, trim_trimmed. Qed.

Lemma trimmed_ends (a b : N) (s : jsstring) :
  head s = Some a -> last s = Some b ->
  isWhiteSpace a = false -> isWhiteSpace b = false -> trimmed s.
Proof.
  intros Hh Hl Ha Hb. split; intros u Hu; congruence.
Qed.

Lemma truthy_true (s : jsstring) : truthy s = true <-> s <> [].
Proof. destruct s; simpl; split; congruence. Qed.

Lemma truthy_false (s : jsstring) : truthy s = false <-> s = [].
Proof. destruct s; simpl; split; congruence. Qed.

Lemma orElse_truthy (a b : jsstring) :
  truthy b = true -> truthy (orElse a b) = true.
Proof. unfold orElse. destruct (truthy a) eqn:Ha; auto. Qed.

End StringFacts.

(* ================================================================== *)
(** ** Runs: outcomes and issued commands *)
(* ================================================================== *)

Section RunFacts.

Context {A B : Type}.

Lemma outcome_ret (a : A) : outcome (ret a) = Ok a.
Proof. reflexivity. Qed.

Lemma outcome_bind_Ok (m : GitM A) (f : A -> GitM B) (b : B) :
  outcome (bind m f) = Ok b ->
  exists a, outcome m = Ok a /\ outcome (f a) = Ok b.
Proof.
  unfold outcome, bind. destruct m as [log [a|e]]; simpl.
  - destruct (f a) as [log' r] eqn:Hf. simpl. intros ->.
    exists a. rewrite Hf. auto.
  - discriminate.
Qed.

Lemma outcome_bind_Rejected (m : GitM A) (f : A -> GitM B) (e : jsstring) :
  outcome (bind m f) = Rejected e ->
  outcome m = Rejected e \/
  exists a, outcome m = Ok a /\ outcome (f a) = Rejected e.
Proof.
  unfold outcome, bind. destruct m as [log [a|e']]; simpl.
  - destruct (f a) as [log' r] eqn:Hf. simpl. intros ->.
    right. exists a. rewrite Hf. auto.
  - intros [= ->]. auto.
Qed.

Lemma issued_bind_Ok (m : GitM A) (f : A -> GitM B) (a : A) :
  outcome m = Ok a -> issued (bind m f) = issued m ++ issued (f a).
Proof.
  unfold outcome, issued, bind. destruct m as [log [a'|e]]; simpl.
  - intros [= ->]. destruct (f a). reflexivity.
  - discriminate.
Qed.

Lemma outcome_bind_of_Ok (m : GitM A) (f : A -> GitM B) (a : A) :
  outcome m = Ok a -> outcome (bind m f) = outcome (f a).
Proof.
  unfold outcome, bind. destruct m as [log [a'|e]]; simpl.
  - intros [= ->]. destruct (f a). reflexivity.
  - discriminate.
Qed.

Lemma bind_of_Rejected (m : GitM A) (f : A -> GitM B) (e : jsstring) :
  outcome m = Rejected e ->
  issued (bind m f) = issued m /\ outcome (bind m f) = Rejected e.
Proof.
  unfold outcome, issued, bind. destruct m as [log [a'|e']]; simpl.
  - discriminate.
  - intros [= ->]. auto.
Qed.

Lemma head_issued_bind (m : GitM A) (f : A -> GitM B) (args : list jsstring) :
  head (issued m) = Some args -> head (issued (bind m f)) = Some args.
Proof.
  unfold issued, bind. destruct m as [log [a|e]]; cbn [fst]; [|auto].
  destruct (f a) as [log' r]. cbn [fst].
  destruct log; [discriminate | auto].
Qed.

End RunFacts.

(** Splits a hypothesis [outcome (await! x := m in k) = Ok b]. *)
Ltac bind_inv H :=
  let a := fresh "v" in
  let Hm := fresh "Hm" in
  apply outcome_bind_Ok in H; destruct H as (a & Hm & H).

Section CollectorFacts.

Variable h : Host.
Variable repositoryPath : jsstring.
Variable config : ExtensionConfig.

Lemma runGit_outcome_Ok (args : list jsstring) (out : jsstring) :
  outcome (runGit h args repositoryPath (commandTimeoutMs config)) = Ok out ->
  trim out = out.
Proof.
  unfold runGit, outcome. simpl.
  destruct (exec_error _); [discriminate|].
  intros [= <-]. apply trim_idem.
Qed.

(** What a successful run of the body of [collectRepositoryChanges] leaves
    in its local variables. *)
Lemma collectBody_Ok (l : Locals) :
  outcome (collectBody h repositoryPath config) = Ok l ->
  (exists v, l_stagedFiles l = parseLines v) /\
  (exists v, l_unstagedFiles l = parseLines v) /\
  (exists v, l_untrackedFiles l = parseLines v) /\
  (includeOnlyStaged config = true ->
     l_unstagedFiles l = [] /\ l_untrackedFiles l = []) /\
  l_allChangedFiles l =
    uniqueLines (l_stagedFiles l ++ l_unstagedFiles l ++ l_untrackedFiles l) /\
  l_limitedFiles l = slice0 (l_allChangedFiles l) (maxChangedFiles config) /\
  outcome (diffPartsLoop h repositoryPath config
             (list_to_set (l_stagedFiles l)) (list_to_set (l_unstagedFiles l))
             (list_to_set (l_untrackedFiles l)) (l_limitedFiles l) [])
    = Ok (l_diffParts l) /\
  l_merged l = join (nl ++ nl) (l_diffParts l) /\
  diff (l_returned l) =
    fst (if truncateDiff config
         then trimUtf8 (l_merged l) (maxDiffBytes config)
         else (l_merged l, false)) /\
  wasTruncated (l_returned l) =
    snd (if truncateDiff config
         then trimUtf8 (l_merged l) (maxDiffBytes config)
         else (l_merged l, false)) /\
  wasFileLimited (l_returned l) =
    (length (l_limitedFiles l) <? length (l_allChangedFiles l))%nat /\
  totalChangedFiles (l_returned l) = Z.of_nat (length (l_allChangedFiles l)) /\
  includedChangedFiles (l_returned l) = Z.of_nat (length (l_limitedFiles l)).
Proof.
  unfold collectBody. intros H.
  bind_inv H. bind_inv H. bind_inv H. bind_inv H. bind_inv H.
  rewrite outcome_ret in H. injection H as <-. simpl.
  assert (Hs : exists x, v0 = parseLines x).
  { bind_inv Hm0. rewrite outcome_ret in Hm0. injection Hm0 as <-. eauto. }
  assert (Hu : (exists x, v1 = parseLines x) /\
               (includeOnlyStaged config = true -> v1 = [])).
  { destruct (includeOnlyStaged config).
    - rewrite outcome_ret in Hm1. injection Hm1 as <-.
      split; [exists []; reflexivity | auto].
    - bind_inv Hm1. rewrite outcome_ret in Hm1. injection Hm1 as <-.
      split; [eauto | discriminate]. }
  assert (Ht : (exists x, v2 = parseLines x) /\
               (includeOnlyStaged config = true -> v2 = [])).
  { destruct (includeOnlyStaged config).
    - rewrite outcome_ret in Hm2. injection Hm2 as <-.
      split; [exists []; reflexivity | auto].
    - bind_inv Hm2. rewrite outcome_ret in Hm2. injection Hm2 as <-.
      split; [eauto | discriminate]. }
  destruct Hu as [Hu Hu'], Ht as [Ht Ht'].
  repeat split; auto.
Qed.

Lemma collect_Ok (snapshot : ChangeSnapshot) :
  outcome (collectRepositoryChanges h repositoryPath config) = Ok snapshot ->
  exists l, outcome (collectBody h repositoryPath config) = Ok l /\
            snapshot = l_returned l.
Proof.
  unfold collectRepositoryChanges. intros H. bind_inv H.
  rewrite outcome_ret in H. injection H as <-. eauto.
Qed.

End CollectorFacts.

(* ================================================================== *)
(** ** Line parsing and merging *)
(* ================================================================== *)

Section Lines.

Lemma parseLines_entry (value line : jsstring) :
  line ∈ parseLines value -> line <> [] /\ trimmed line.
Proof.
  unfold parseLines. rewrite list_elem_of_filter.
  intros [Hlen Hin]. split.
  - intros ->. simpl in Hlen. lia.
  - apply list_elem_of_In, in_map_iff in Hin.
    destruct Hin as (raw & <- & _). apply trim_trimmed.
Qed.

Lemma firstSeen_elem (l : list jsstring) (x : jsstring) :
  x ∈ firstSeen l <-> x ∈ l.
Proof.
  induction l as [|p l IH]; simpl; [reflexivity|].
  rewrite !elem_of_cons, list_elem_of_filter, IH.
  destruct (decide (x = p)); intuition.
Qed.

Lemma firstSeen_NoDup (l : list jsstring) : NoDup (firstSeen l).
Proof.
  induction l as [|p l IH]; simpl; constructor.
  - rewrite list_elem_of_filter. intros [Hne _]. congruence.
  - apply NoDup_filter, IH.
Qed.

Lemma filter_lookup_order (P : jsstring -> Prop) `{!forall x, Decision (P x)}
    (l : list jsstring) (i j : nat) (x y : jsstring) :
  filter P l !! i = Some x -> filter P l !! j = Some y -> (i < j)%nat ->
  exists i' j', (i' < j')%nat /\ l !! i' = Some x /\ l !! j' = Some y.
Proof.
  revert i j. induction l as [|z l IH]; intros i j; [discriminate|].
  rewrite filter_cons. destruct (decide (P z)).
  - destruct i as [|i]; destruct j as [|j]; simpl; try lia.
    + intros [= ->] Hy _.
      assert (Hin : y ∈ filter P l) by (eapply list_elem_of_lookup_2, Hy).
      apply list_elem_of_filter in Hin as [_ Hin].
      apply list_elem_of_lookup in Hin as [k Hk].
      exists 0%nat, (S k). repeat split; [lia | exact Hk].
    + intros Hx Hy Hlt. destruct (IH i j Hx Hy) as (i' & j' & ? & ? & ?); [lia|].
      exists (S i'), (S j'). repeat split; [lia | assumption..].
  - intros Hx Hy Hlt. destruct (IH i j Hx Hy Hlt) as (i' & j' & ? & ? & ?).
    exists (S i'), (S j'). repeat split; [lia | assumption..].
Qed.

Lemma firstSeen_order (l : list jsstring) (i j : nat) (x y : jsstring) :
  firstSeen l !! i = Some x -> firstSeen l !! j = Some y -> (i < j)%nat ->
  seenBefore l x y.
Proof.
  revert i j. induction l as [|p l IH]; intros i j; [discriminate|].
  simpl. destruct i as [|i]; destruct j as [|j]; simpl; try lia.
  - intros [= ->] Hy _.
    assert (Hin : y ∈ filter (fun q => q <> x) (firstSeen l))
      by (eapply list_elem_of_lookup_2, Hy).
    apply list_elem_of_filter in Hin as [Hne _].
    exists 0%nat. split; [reflexivity|].
    intros [|b]; simpl; [intros [= ->]; congruence | lia].
  - intros Hx Hy Hlt.
    assert (Hne : y <> p).
    { assert (Hin : y ∈ filter (fun q => q <> p) (firstSeen l))
        by (eapply list_elem_of_lookup_2, Hy).
      apply list_elem_of_filter in Hin as [Hne _]. exact Hne. }
    destruct (filter_lookup_order _ _ _ _ _ _ Hx Hy) as (i' & j' & Hlt' & Hx' & Hy');
      [lia|].
    destruct (IH _ _ Hx' Hy' Hlt') as (a & Ha & Hb).
    exists (S a). split; [exact Ha|].
    intros [|b]; simpl; [intros [= ->]; congruence|].
    intros Hb'. apply Hb in Hb'. lia.
Qed.

(** The loop computes the spec's merge of what is still to be read, after
    what it has already put out. *)
Lemma uniqueLinesLoop_spec (lines : list jsstring) (seen : gset jsstring)
    (output : list jsstring) :
  (forall x, x ∈ seen <-> x ∈ output) ->
  uniqueLinesLoop lines seen output =
    output ++ filter (fun q => q ∉ output) (firstSeen lines).
Proof.
  revert seen output. induction lines as [|line rest IH]; intros seen output Hseen.
  - simpl. rewrite app_nil_r. reflexivity.
  - simpl. rewrite filter_cons. case_bool_decide as Hin.
    + rewrite (IH _ _ Hseen). apply Hseen in Hin.
      destruct (decide (line ∉ output)); [contradiction|].
      f_equal. rewrite list_filter_filter. apply list_filter_iff.
      intros q. split; [|tauto]. intros Hq. split; [exact Hq|]. congruence.
    + assert (Hout : line ∉ output) by (rewrite <- Hseen; exact Hin).
      destruct (decide (line ∉ output)); [|contradiction].
      rewrite IH.
      * rewrite <- app_assoc. simpl. do 2 f_equal.
        rewrite list_filter_filter. apply list_filter_iff.
        intros q. rewrite not_elem_of_app, list_elem_of_singleton. tauto.
      * intros x. rewrite elem_of_union, elem_of_singleton, elem_of_app,
          list_elem_of_singleton, Hseen. tauto.
Qed.

Lemma uniqueLines_firstSeen (lines : list jsstring) :
  uniqueLines lines = firstSeen lines.
Proof.
  unfold uniqueLines. rewrite uniqueLinesLoop_spec.
  - simpl. induction (firstSeen lines) as [|q l IH]; [reflexivity|].
    rewrite filter_cons_True by apply not_elem_of_nil. f_equal. exact IH.
  - intros x. rewrite elem_of_empty, elem_of_nil. tauto.
Qed.

Lemma slice0_prefix {A : Type} (l : list A) (last : Z) :
  slice0 l last `prefix_of` l.
Proof. apply prefix_take. Qed.

Lemma slice0_nonneg {A : Type} (l : list A) (last : Z) :
  (0 <= last)%Z -> slice0 l last = take (Z.to_nat last) l.
Proof.
  intros H. unfold slice0, sliceEnd.
  destruct (Z.ltb_spec last 0); [lia|].
  destruct (Nat.le_ge_cases (Z.to_nat last) (length l)).
  - rewrite Nat.min_l by assumption. reflexivity.
  - rewrite Nat.min_r by assumption.
    rewrite !take_ge by lia. reflexivity.
Qed.

End Lines.

(* ================================================================== *)
(** ** The text classifier *)
(* ================================================================== *)

Section Classifier.

Local Open Scope Z_scope.

Lemma checkCounts_sound (fuel : nat) (count size c : Z) :
  checkCounts fuel count size = true ->
  count <= c < count + Z.of_nat fuel ->
  ratioExceeds c size = (size <? 10 * c).
Proof.
  revert count. induction fuel as [|k IH]; intros count; simpl; [lia|].
  rewrite andb_true_iff. intros [Hhere Hrest] Hc.
  destruct (Z.eq_dec c count) as [->|Hne].
  - apply eqb_prop, Hhere.
  - apply (IH (count + 1)); [exact Hrest | lia].
Qed.

Lemma checkSizes_sound (fuel : nat) (size s c : Z) :
  checkSizes fuel size = true ->
  0 <= size -> size <= s < size + Z.of_nat fuel -> 0 <= c <= s ->
  ratioExceeds c s = (s <? 10 * c).
Proof.
  revert size. induction fuel as [|k IH]; intros size; [simpl; lia|].
  cbn [checkSizes]. rewrite andb_true_iff. intros [Hhere Hrest] Hsize Hs Hc.
  destruct (Z.eq_dec s size) as [->|Hne].
  - apply (checkCounts_sound _ _ _ _ Hhere). lia.
  - apply (IH (size + 1)); [exact Hrest | lia..].
Qed.

Lemma ratio_table : checkSizes 1024 1 = true.
Proof. vm_compute. reflexivity. Qed.

Lemma ratioExceeds_exact (count size : Z) :
  1 <= size <= 1024 -> 0 <= count <= size ->
  ratioExceeds count size = (size <? 10 * count).
Proof.
  intros Hs Hc. apply (checkSizes_sound _ _ _ _ ratio_table); lia.
Qed.

Lemma countNonText_filter (sample : list N) (acc : Z) :
  countNonText sample acc =
    acc + Z.of_nat (length (filter (fun b => isControl b = true) sample)).
Proof.
  revert acc. induction sample as [|b sample IH]; intros acc; simpl; [lia|].
  rewrite IH, filter_cons. destruct (isControl b); simpl.
  - destruct (decide (true = true)); [simpl; lia | congruence].
  - destruct (decide (false = true)); [congruence | lia].
Qed.

Lemma existsb_zero (buffer : list N) :
  existsb (N.eqb 0) buffer = true <-> 0%N ∈ buffer.
Proof.
  rewrite existsb_exists. split.
  - intros (b & Hin & Heq). apply N.eqb_eq in Heq. subst.
    apply list_elem_of_In, Hin.
  - intros Hin. exists 0%N. split; [apply list_elem_of_In, Hin | reflexivity].
Qed.

Lemma isControl_spec (b : N) :
  isControl b = true <-> (b < 32 /\ b <> 9 /\ b <> 10 /\ b <> 13)%N.
Proof.
  unfold isControl. rewrite !andb_true_iff, !negb_true_iff, N.ltb_lt,
    !N.eqb_neq. tauto.
Qed.

(** Without a NUL byte, the verdict is the exact comparison of the count of
    control bytes in the sample with a tenth of the sample. *)
Lemma looksBinary_sample (buffer : list N) :
  buffer <> [] -> 0%N ∉ buffer ->
  looksBinary buffer =
    (Z.of_nat (length (take 1024 buffer)) <?
     10 * Z.of_nat (length (filter (fun b => isControl b = true)
                                   (take 1024 buffer)))).
Proof.
  intros Hne Hnul. unfold looksBinary.
  destruct buffer as [|b0 buffer]; [congruence|].
  change (length (b0 :: buffer) =? 0)%nat with false. cbv iota.
  destruct (existsb (N.eqb 0) (b0 :: buffer)) eqn:Hex.
  { apply existsb_zero in Hex. contradiction. }
  set (buf := b0 :: buffer) in *.
  assert (Hlen : (0 < length buf)%nat) by (simpl; lia).
  cbv zeta. rewrite countNonText_filter, Z.add_0_l.
  assert (Hsample : Z.to_nat (Z.min (Z.of_nat (length buf)) 1024) =
                    length (take 1024 buf)).
  { rewrite length_take. lia. }
  assert (Htake : take (Z.to_nat (Z.min (Z.of_nat (length buf)) 1024)) buf =
                  take 1024 buf).
  { rewrite Hsample. destruct (Nat.le_ge_cases 1024 (length buf)).
    - rewrite length_take, Nat.min_l by assumption. reflexivity.
    - rewrite length_take, Nat.min_r by assumption.
      rewrite !take_ge by lia. reflexivity. }
  rewrite Htake.
  assert (Hsz : Z.min (Z.of_nat (length buf)) 1024 =
                Z.of_nat (length (take 1024 buf))).
  { rewrite length_take. lia. }
  rewrite Hsz.
  apply ratioExceeds_exact.
  - rewrite length_take. lia.
  - split; [lia|]. apply inj_le, length_filter.
Qed.

End Classifier.

(* ================================================================== *)
(** ** UTF-8: decoding what was encoded *)
(* ================================================================== *)

Section Utf8Facts.

Local Open Scope N_scope.

(** Case analysis on a small number. *)
Lemma below_cases (P : N -> Prop) (n : nat) :
  Forall P (map N.of_nat (seq 0 n)) -> forall q, q < N.of_nat n -> P q.
Proof.
  intros Hall q Hq. rewrite Forall_forall in Hall. apply Hall.
  apply list_elem_of_In, in_map_iff. exists (N.to_nat q).
  split; [apply N2Nat.id|]. apply in_seq. lia.
Qed.

Ltac by_cases n :=
  lazymatch goal with
  | |- forall q, q < _ -> @?P q => apply (below_cases P n)
  end;
  repeat constructor.

Lemma continuation_byte (d : N) :
  d < 64 -> N.lor 0x80 d = 0x80 + d /\ N.land (N.lor 0x80 d) 0x3F = d.
Proof. revert d. by_cases 64%nat. Qed.

Lemma lead_two (q : N) :
  q < 32 -> 2 <= q ->
  decodeLead (N.lor 0xC0 q) = ([], Decoder q 0 1 0x80 0xBF).
Proof.
  revert q. by_cases 32%nat;
    intros H; solve [reflexivity | vm_compute in H; congruence].
Qed.

Lemma lead_three (q : N) :
  q < 16 ->
  decodeLead (N.lor 0xE0 q) =
    ([], Decoder q 0 2 (if q =? 0 then 0xA0 else 0x80)
                       (if q =? 13 then 0x9F else 0xBF)).
Proof. revert q. by_cases 16%nat. Qed.

Lemma lead_four (q : N) :
  q < 5 ->
  decodeLead (N.lor 0xF0 q) =
    ([], Decoder q 0 3 (if q =? 0 then 0x90 else 0x80)
                       (if q =? 4 then 0x8F else 0xBF)).
Proof. revert q. by_cases 5%nat. Qed.

Lemma lor_shiftl_low (x d : N) :
  d < 64 -> N.lor (N.shiftl x 6) d = x * 64 + d.
Proof.
  intros Hd.
  assert (Hand : N.land (N.shiftl x 6) d = 0).
  { apply N.bits_inj_0. intros n. rewrite N.land_spec.
    destruct (N.lt_ge_cases n 6) as [Hn|Hn].
    - rewrite N.shiftl_spec_low by exact Hn. reflexivity.
    - rewrite <- (N.mod_small d (2 ^ 6)) by exact Hd.
      rewrite N.mod_pow2_bits_high by exact Hn. apply andb_false_r. }
  rewrite <- N.lxor_lor, <- N.add_nocarry_lxor by exact Hand.
  rewrite N.shiftl_mul_pow2. reflexivity.
Qed.

(** A continuation byte in range extends the open sequence. *)
Lemma continuation_step (st : decoder) (d : N) :
  d_needed st <> 0 -> d < 64 ->
  d_lower st <= 0x80 + d -> 0x80 + d <= d_upper st ->
  decodeByte st (N.lor 0x80 d) =
    if d_seen st + 1 =? d_needed st
    then ([d_codePoint st * 64 + d], decoderInit)
    else ([], Decoder (d_codePoint st * 64 + d) (d_seen st + 1)
                      (d_needed st) 0x80 0xBF).
Proof.
  intros Hneed Hd Hlo Hhi. unfold decodeByte.
  destruct (continuation_byte d Hd) as [Hor Hand].
  rewrite Hand, Hor, lor_shiftl_low by exact Hd.
  apply N.eqb_neq in Hneed. rewrite Hneed.
  apply N.leb_le in Hlo, Hhi. rewrite Hlo, Hhi. reflexivity.
Qed.

Lemma shiftr_div (c : N) (k : N) : N.shiftr c k = c / 2 ^ k.
Proof. apply N.shiftr_div_pow2. Qed.

Lemma land_low6 (c : N) : N.land c 0x3F = c mod 64.
Proof. change 0x3F with (N.ones 6). apply N.land_ones. Qed.

End Utf8Facts.

Section Utf8RoundTrip.

Local Open Scope N_scope.

Local Ltac Zify.zify_post_hook ::= Z.to_euclidean_division_equations.

Lemma decodeFrom_cons (st : decoder) (b : N) (bytes : list N) :
  decodeFrom st (b :: bytes) =
    (fst (decodeByte st b) ++ fst (decodeFrom (snd (decodeByte st b)) bytes),
     snd (decodeFrom (snd (decodeByte st b)) bytes)).
Proof.
  cbn [decodeFrom]. destruct (decodeByte st b) as [out st1]. cbn [fst snd].
  destruct (decodeFrom st1 bytes) as [out' st2]. reflexivity.
Qed.

Lemma decodeFrom_app (st : decoder) (l1 l2 : list N) :
  decodeFrom st (l1 ++ l2) =
    (fst (decodeFrom st l1) ++ fst (decodeFrom (snd (decodeFrom st l1)) l2),
     snd (decodeFrom (snd (decodeFrom st l1)) l2)).
Proof.
  revert st. induction l1 as [|b l1 IH]; intros st.
  - simpl. destruct (decodeFrom st l2). reflexivity.
  - rewrite <- app_comm_cons, !decodeFrom_cons, IH. simpl.
    rewrite app_assoc. reflexivity.
Qed.

Lemma encode_one (c : N) :
  c < 0x80 ->
  decodeFrom decoderInit (encodeCodePoint c) = ([c], decoderInit) /\ opens c.
Proof.
  intros Hc. unfold opens, encodeCodePoint.
  apply N.ltb_lt in Hc as Hc'. rewrite Hc'. split.
  - cbn [decodeFrom]. unfold decodeByte, decodeLead. cbn [d_needed decoderInit].
    change (0 =? 0) with true. cbv iota.
    assert (H : (c <=? 0x7F) = true) by (apply N.leb_le; lia).
    rewrite H. reflexivity.
  - simpl. intros k Hk. lia.
Qed.

Lemma encode_two (c : N) :
  0x80 <= c -> c < 0x800 ->
  decodeFrom decoderInit (encodeCodePoint c) = ([c], decoderInit) /\ opens c.
Proof.
  intros Hlo Hhi. unfold opens, encodeCodePoint.
  assert (H1 : (c <? 0x80) = false) by (apply N.ltb_ge; lia).
  assert (H2 : (c <? 0x800) = true) by (apply N.ltb_lt; lia).
  rewrite H1, H2, shiftr_div, land_low6. change (2 ^ 6) with 64.
  assert (Hq : c / 64 < 32) by lia.
  assert (Hq' : 2 <= c / 64) by lia.
  assert (Hd : c mod 64 < 64) by lia.
  assert (Hfirst : decodeByte decoderInit (N.lor 0xC0 (c / 64)) =
                   ([], Decoder (c / 64) 0 1 0x80 0xBF))
    by (apply lead_two; assumption).
  assert (Hsecond : decodeByte (Decoder (c / 64) 0 1 0x80 0xBF)
                      (N.lor 0x80 (c mod 64)) = ([c], decoderInit)).
  { rewrite continuation_step; cbn [d_needed d_lower d_upper d_seen d_codePoint];
      try lia.
    change (0 + 1 =? 1) with true. cbv iota. do 2 f_equal. lia. }
  split.
  - rewrite !decodeFrom_cons, Hfirst. cbn [fst snd]. rewrite Hsecond. reflexivity.
  - intros k Hk. cbn [length] in Hk.
    assert (k = 1%nat) as -> by lia.
    cbn [take]. rewrite decodeFrom_cons, Hfirst. cbn. split; [reflexivity | lia].
Qed.

Lemma encode_three (c : N) :
  0x800 <= c -> c < 0x10000 -> isSurrogate c = false ->
  decodeFrom decoderInit (encodeCodePoint c) = ([c], decoderInit) /\ opens c.
Proof.
  intros Hlo Hhi Hsur. unfold opens, encodeCodePoint.
  assert (H1 : (c <? 0x80) = false) by (apply N.ltb_ge; lia).
  assert (H2 : (c <? 0x800) = false) by (apply N.ltb_ge; lia).
  assert (H3 : (c <? 0x10000) = true) by (apply N.ltb_lt; lia).
  rewrite H1, H2, H3, Hsur, !shiftr_div, !land_low6.
  change (2 ^ 12) with 4096. change (2 ^ 6) with 64.
  unfold isSurrogate in Hsur.
  assert (Hns : c < 0xD800 \/ 0xDFFF < c).
  { apply andb_false_iff in Hsur as [H|H]; [apply N.leb_gt in H | apply N.leb_gt in H]; lia. }
  set (q := c / 4096). set (d1 := (c / 64) mod 64). set (d0 := c mod 64).
  assert (Hq : q < 16) by (subst q; lia).
  assert (Hd1 : d1 < 64) by (subst d1; lia).
  assert (Hd0 : d0 < 64) by (subst d0; lia).
  set (lo := if q =? 0 then 0xA0 else 0x80).
  set (hi := if q =? 13 then 0x9F else 0xBF).
  assert (Hfirst : decodeByte decoderInit (N.lor 0xE0 q) =
                   ([], Decoder q 0 2 lo hi))
    by (apply lead_three; assumption).
  assert (Hlower : lo <= 0x80 + d1).
  { subst lo. destruct (N.eqb_spec q 0); subst q d1; lia. }
  assert (Hupper : 0x80 + d1 <= hi).
  { subst hi. destruct (N.eqb_spec q 13); subst q d1; lia. }
  assert (Hsecond : decodeByte (Decoder q 0 2 lo hi) (N.lor 0x80 d1) =
                    ([], Decoder (q * 64 + d1) 1 2 0x80 0xBF)).
  { rewrite continuation_step; cbn [d_needed d_lower d_upper d_seen d_codePoint];
      try lia.
    reflexivity. }
  assert (Hthird : decodeByte (Decoder (q * 64 + d1) 1 2 0x80 0xBF)
                     (N.lor 0x80 d0) = ([c], decoderInit)).
  { rewrite continuation_step; cbn [d_needed d_lower d_upper d_seen d_codePoint];
      try lia.
    change (1 + 1 =? 2) with true. cbv iota. do 2 f_equal. subst q d1 d0. lia. }
  split.
  - rewrite !decodeFrom_cons, Hfirst. cbn [fst snd]. rewrite Hsecond.
    cbn [fst snd]. rewrite Hthird. reflexivity.
  - intros k Hk. cbn [length] in Hk.
    assert (k = 1 \/ k = 2)%nat as [-> | ->] by lia; cbn [take].
    + rewrite decodeFrom_cons, Hfirst. cbn. split; [reflexivity | lia].
    + rewrite !decodeFrom_cons, Hfirst. cbn [fst snd]. rewrite Hsecond.
      cbn. split; [reflexivity | lia].
Qed.

Lemma encode_four (c : N) :
  0x10000 <= c -> c < 0x110000 ->
  decodeFrom decoderInit (encodeCodePoint c) = ([c], decoderInit) /\ opens c.
Proof.
  intros Hlo Hhi. unfold opens, encodeCodePoint.
  assert (H1 : (c <? 0x80) = false) by (apply N.ltb_ge; lia).
  assert (H2 : (c <? 0x800) = false) by (apply N.ltb_ge; lia).
  assert (H3 : (c <? 0x10000) = false) by (apply N.ltb_ge; lia).
  assert (H4 : (c <? 0x110000) = true) by (apply N.ltb_lt; lia).
  rewrite H1, H2, H3, H4, !shiftr_div, !land_low6.
  change (2 ^ 18) with 262144. change (2 ^ 12) with 4096.
  change (2 ^ 6) with 64.
  set (q := c / 262144). set (d2 := (c / 4096) mod 64).
  set (d1 := (c / 64) mod 64). set (d0 := c mod 64).
  assert (Hq : q < 5) by (subst q; lia).
  assert (Hd2 : d2 < 64) by (subst d2; lia).
  assert (Hd1 : d1 < 64) by (subst d1; lia).
  assert (Hd0 : d0 < 64) by (subst d0; lia).
  set (lo := if q =? 0 then 0x90 else 0x80).
  set (hi := if q =? 4 then 0x8F else 0xBF).
  assert (Hfirst : decodeByte decoderInit (N.lor 0xF0 q) =
                   ([], Decoder q 0 3 lo hi))
    by (apply lead_four; assumption).
  assert (Hlower : lo <= 0x80 + d2).
  { subst lo. destruct (N.eqb_spec q 0); subst q d2; lia. }
  assert (Hupper : 0x80 + d2 <= hi).
  { subst hi. destruct (N.eqb_spec q 4); subst q d2; lia. }
  assert (Hsecond : decodeByte (Decoder q 0 3 lo hi) (N.lor 0x80 d2) =
                    ([], Decoder (q * 64 + d2) 1 3 0x80 0xBF)).
  { rewrite continuation_step; cbn [d_needed d_lower d_upper d_seen d_codePoint];
      try lia.
    reflexivity. }
  assert (Hthird : decodeByte (Decoder (q * 64 + d2) 1 3 0x80 0xBF)
                     (N.lor 0x80 d1) =
                   ([], Decoder ((q * 64 + d2) * 64 + d1) 2 3 0x80 0xBF)).
  { rewrite continuation_step; cbn [d_needed d_lower d_upper d_seen d_codePoint];
      try lia.
    reflexivity. }
  assert (Hfourth : decodeByte (Decoder ((q * 64 + d2) * 64 + d1) 2 3 0x80 0xBF)
                      (N.lor 0x80 d0) = ([c], decoderInit)).
  { rewrite continuation_step; cbn [d_needed d_lower d_upper d_seen d_codePoint];
      try lia.
    change (2 + 1 =? 3) with true. cbv iota. do 2 f_equal.
    subst q d2 d1 d0. lia. }
  split.
  - rewrite !decodeFrom_cons, Hfirst. cbn [fst snd]. rewrite Hsecond.
    cbn [fst snd]. rewrite Hthird. cbn [fst snd]. rewrite Hfourth. reflexivity.
  - intros k Hk. cbn [length] in Hk.
    assert (k = 1 \/ k = 2 \/ k = 3)%nat as [-> | [-> | ->]] by lia; cbn [take].
    + rewrite decodeFrom_cons, Hfirst. cbn. split; [reflexivity | lia].
    + rewrite !decodeFrom_cons, Hfirst. cbn [fst snd]. rewrite Hsecond.
      cbn. split; [reflexivity | lia].
    + rewrite !decodeFrom_cons, Hfirst. cbn [fst snd]. rewrite Hsecond.
      cbn [fst snd]. rewrite Hthird. cbn. split; [reflexivity | lia].
Qed.

End Utf8RoundTrip.

Section Utf8Strings.

Local Open Scope N_scope.

Local Ltac Zify.zify_post_hook ::= Z.to_euclidean_division_equations.

Lemma replacement_bytes :
  decodeFrom decoderInit [0xEF; 0xBF; 0xBD] = ([REPLACEMENT], decoderInit) /\
  forall k, (0 < k < 3)%nat ->
    fst (decodeFrom decoderInit (take k [0xEF; 0xBF; 0xBD])) = [] /\
    d_needed (snd (decodeFrom decoderInit (take k [0xEF; 0xBF; 0xBD]))) <> 0.
Proof.
  split; [reflexivity|]. intros k Hk.
  assert (k = 1 \/ k = 2)%nat as [-> | ->] by lia; vm_compute; split; congruence.
Qed.

(** The decoder reads the bytes of a code point back as its scalar value,
    and is inside a sequence after each strict, non-empty prefix of them. *)
Lemma decodeFrom_encode (c : N) :
  decodeFrom decoderInit (encodeCodePoint c) = ([scalarValue c], decoderInit)
  /\ opens c.
Proof.
  unfold scalarValue.
  destruct (isSurrogate c) eqn:Hsur.
  - unfold isSurrogate in Hsur. apply andb_true_iff in Hsur as [Ha Hb].
    apply N.leb_le in Ha, Hb.
    assert (Henc : encodeCodePoint c = [0xEF; 0xBF; 0xBD]).
    { unfold encodeCodePoint, isSurrogate.
      assert (H1 : (c <? 0x80) = false) by (apply N.ltb_ge; lia).
      assert (H2 : (c <? 0x800) = false) by (apply N.ltb_ge; lia).
      assert (H3 : (c <? 0x10000) = true) by (apply N.ltb_lt; lia).
      apply N.leb_le in Ha, Hb. rewrite H1, H2, H3, Ha, Hb. reflexivity. }
    unfold opens. rewrite Henc. exact replacement_bytes.
  - cbn [orb]. destruct (N.leb_spec 0x110000 c) as [Hbig|Hsmall].
    + assert (Henc : encodeCodePoint c = [0xEF; 0xBF; 0xBD]).
      { unfold encodeCodePoint.
        assert (H1 : (c <? 0x80) = false) by (apply N.ltb_ge; lia).
        assert (H2 : (c <? 0x800) = false) by (apply N.ltb_ge; lia).
        assert (H3 : (c <? 0x10000) = false) by (apply N.ltb_ge; lia).
        assert (H4 : (c <? 0x110000) = false) by (apply N.ltb_ge; lia).
        rewrite H1, H2, H3, H4. reflexivity. }
      unfold opens. rewrite Henc. exact replacement_bytes.
    + destruct (N.lt_ge_cases c 0x80); [apply encode_one; assumption|].
      destruct (N.lt_ge_cases c 0x800); [apply encode_two; assumption|].
      destruct (N.lt_ge_cases c 0x10000); [apply encode_three; assumption|].
      apply encode_four; assumption.
Qed.

Lemma encodeCodePoint_length (c : N) :
  (1 <= length (encodeCodePoint c) <= 4)%nat.
Proof.
  unfold encodeCodePoint.
  repeat match goal with |- context [if ?b then _ else _] => destruct b end;
    simpl; lia.
Qed.

Lemma scalarValue_isScalar (c : N) : isScalar (scalarValue c).
Proof.
  unfold isScalar, scalarValue.
  destruct (isSurrogate c || (0x110000 <=? c)) eqn:H; [reflexivity|].
  rewrite H. reflexivity.
Qed.

Lemma isScalar_range (c : N) :
  isScalar c <-> (c < 0xD800 \/ 0xDFFF < c) /\ c < 0x110000.
Proof.
  unfold isScalar, scalarValue, isSurrogate, REPLACEMENT.
  destruct (N.leb_spec 0xD800 c), (N.leb_spec c 0xDFFF),
    (N.leb_spec 0x110000 c); cbn [andb orb]; lia.
Qed.

Lemma encodeCodePoint_scalarValue (c : N) :
  encodeCodePoint (scalarValue c) = encodeCodePoint c.
Proof.
  unfold scalarValue. destruct (isSurrogate c) eqn:Hsur; cbn [orb].
  - unfold isSurrogate in Hsur. apply andb_true_iff in Hsur as [Ha Hb].
    apply N.leb_le in Ha as Ha', Hb as Hb'.
    unfold encodeCodePoint at 2, isSurrogate.
    assert (H1 : (c <? 0x80) = false) by (apply N.ltb_ge; lia).
    assert (H2 : (c <? 0x800) = false) by (apply N.ltb_ge; lia).
    assert (H3 : (c <? 0x10000) = true) by (apply N.ltb_lt; lia).
    rewrite H1, H2, H3, Ha, Hb. reflexivity.
  - destruct (N.leb_spec 0x110000 c) as [Hbig|Hsmall]; [|reflexivity].
    unfold encodeCodePoint at 2.
    assert (H1 : (c <? 0x80) = false) by (apply N.ltb_ge; lia).
    assert (H2 : (c <? 0x800) = false) by (apply N.ltb_ge; lia).
    assert (H3 : (c <? 0x10000) = false) by (apply N.ltb_ge; lia).
    assert (H4 : (c <? 0x110000) = false) by (apply N.ltb_ge; lia).
    rewrite H1, H2, H3, H4. reflexivity.
Qed.

Lemma encodeCodePoints_scalarValue (cps : list N) :
  encodeCodePoints (map scalarValue cps) = encodeCodePoints cps.
Proof.
  induction cps as [|c cps IH]; [reflexivity|].
  unfold encodeCodePoints in *. simpl.
  rewrite encodeCodePoint_scalarValue, IH. reflexivity.
Qed.

Lemma encodeCodePoints_app (l1 l2 : list N) :
  encodeCodePoints (l1 ++ l2) = encodeCodePoints l1 ++ encodeCodePoints l2.
Proof. apply flat_map_app. Qed.

Lemma decode_encode_app (c : N) (bytes : list N) :
  decode (encodeCodePoint c ++ bytes) = scalarValue c :: decode bytes.
Proof.
  unfold decode. rewrite decodeFrom_app.
  destruct (decodeFrom_encode c) as [-> _]. cbn [fst snd].
  destruct (decodeFrom decoderInit bytes) as [out st]. reflexivity.
Qed.

Lemma decode_partial (c : N) (k : nat) :
  (0 < k < length (encodeCodePoint c))%nat ->
  decode (take k (encodeCodePoint c)) = [REPLACEMENT].
Proof.
  intros Hk. destruct (decodeFrom_encode c) as [_ Hopen].
  destruct (Hopen k Hk) as [Hout Hneed].
  unfold decode.
  destruct (decodeFrom decoderInit (take k (encodeCodePoint c))) as [out st].
  cbn [fst snd] in *. subst out. unfold decodeFlush.
  apply N.eqb_neq in Hneed. rewrite Hneed. reflexivity.
Qed.

(** Decoding the first [n] bytes of an encoding: the whole code points
    that fit, and one U+FFFD when the cut falls inside a code point. *)
Lemma decode_take (cps : list N) (n : nat) :
  (n <= length (encodeCodePoints cps))%nat ->
  decode (take n (encodeCodePoints cps)) =
    map scalarValue (wholePrefix cps n) ++
    (if (length (encodeCodePoints (wholePrefix cps n)) =? n)%nat
     then [] else [REPLACEMENT]).
Proof.
  revert n. induction cps as [|c cps IH]; intros n Hn.
  - simpl in *. assert (n = 0%nat) as -> by lia. reflexivity.
  - change (encodeCodePoints (c :: cps))
      with (encodeCodePoint c ++ encodeCodePoints cps) in *.
    rewrite length_app in Hn. cbn [wholePrefix].
    pose proof (encodeCodePoint_length c) as HL.
    destruct (Nat.leb_spec (length (encodeCodePoint c)) n) as [Hfit|Hcut].
    + rewrite take_app_ge by exact Hfit. rewrite decode_encode_app.
      rewrite IH by lia. cbn [map app].
      change (encodeCodePoints (c :: ?w))
        with (encodeCodePoint c ++ encodeCodePoints w).
      rewrite length_app.
      destruct (Nat.eqb_spec
                  (length (encodeCodePoints
                             (wholePrefix cps (n - length (encodeCodePoint c)))))
                  (n - length (encodeCodePoint c))) as [He|He].
      * rewrite (proj2 (Nat.eqb_eq _ _)) by lia. reflexivity.
      * rewrite (proj2 (Nat.eqb_neq _ _)) by lia. reflexivity.
    + rewrite take_app_le by lia. cbn [map app encodeCodePoints flat_map length].
      destruct n as [|n]; [reflexivity|].
      cbn [Nat.eqb]. apply decode_partial. lia.
Qed.

Lemma wholePrefix_fits (cps : list N) (n : nat) :
  (length (encodeCodePoints (wholePrefix cps n)) <= n)%nat.
Proof.
  revert n. induction cps as [|c cps IH]; intros n; cbn [wholePrefix].
  - simpl. lia.
  - destruct (Nat.leb_spec (length (encodeCodePoint c)) n); [|simpl; lia].
    change (encodeCodePoints (c :: ?w))
      with (encodeCodePoint c ++ encodeCodePoints w).
    rewrite length_app. specialize (IH (n - length (encodeCodePoint c))%nat). lia.
Qed.

Lemma wholePrefix_prefix (cps : list N) (n : nat) :
  wholePrefix cps n `prefix_of` cps.
Proof.
  revert n. induction cps as [|c cps IH]; intros n; cbn [wholePrefix].
  - reflexivity.
  - destruct (Nat.leb (length (encodeCodePoint c)) n).
    + apply prefix_cons, IH.
    + apply prefix_nil.
Qed.

(** The prefix is the longest one: the next code point no longer fits. *)
Lemma wholePrefix_maximal (cps : list N) (n : nat) (c : N) (rest : list N) :
  cps = wholePrefix cps n ++ c :: rest ->
  (n < length (encodeCodePoints (wholePrefix cps n ++ [c])))%nat.
Proof.
  revert n. induction cps as [|c0 cps IH]; intros n; cbn [wholePrefix].
  - simpl. discriminate.
  - destruct (Nat.leb_spec (length (encodeCodePoint c0)) n) as [Hfit|Hcut].
    + rewrite <- app_comm_cons. intros [= H]. apply IH in H.
      change (encodeCodePoints ((c0 :: ?w) ++ [c]))
        with (encodeCodePoint c0 ++ encodeCodePoints (w ++ [c])).
      rewrite length_app. lia.
    + cbn [app]. intros [= <- _]. unfold encodeCodePoints. simpl.
      rewrite app_nil_r. lia.
Qed.

End Utf8Strings.

Section Truncator.

Local Ltac Zify.zify_post_hook ::= Z.to_euclidean_division_equations.

Lemma codePoints_codeUnits (c : N) (s : jsstring) :
  isScalar c -> codePoints (codeUnits c ++ s) = c :: codePoints s.
Proof.
  intros Hc. apply isScalar_range in Hc as [Hns Hmax].
  unfold codeUnits. destruct (N.ltb_spec c 0x10000) as [Hbmp|Hsup].
  - cbn [app codePoints]. destruct s as [|v s]; [reflexivity|].
    assert (Hhigh : isHighSurrogate c = false).
    { unfold isHighSurrogate.
      destruct (N.leb_spec 0xD800 c), (N.leb_spec c 0xDBFF); cbn [andb]; lia. }
    rewrite Hhigh. reflexivity.
  - cbn [app codePoints].
    set (hi := (0xD800 + (c - 0x10000) / 0x400)%N).
    set (lo := (0xDC00 + (c - 0x10000) mod 0x400)%N).
    assert (Hhi : isHighSurrogate hi = true).
    { unfold isHighSurrogate. apply andb_true_iff.
      split; apply N.leb_le; subst hi; lia. }
    assert (Hlo : isLowSurrogate lo = true).
    { unfold isLowSurrogate. apply andb_true_iff.
      split; apply N.leb_le; subst lo; lia. }
    rewrite Hhi, Hlo. cbn [andb]. f_equal. subst hi lo. lia.
Qed.

Lemma codePoints_fromCodePoints_app (cps : list N) (s : jsstring) :
  Forall isScalar cps -> codePoints (fromCodePoints cps ++ s) = cps ++ codePoints s.
Proof.
  induction 1 as [|c cps Hc _ IH]; [reflexivity|].
  unfold fromCodePoints in *. cbn [flat_map]. rewrite <- app_assoc.
  rewrite codePoints_codeUnits by exact Hc. rewrite IH. reflexivity.
Qed.

Lemma bufferFrom_fromCodePoints_app (cps : list N) (s : jsstring) :
  Forall isScalar cps ->
  bufferFrom (fromCodePoints cps ++ s) = encodeCodePoints cps ++ bufferFrom s.
Proof.
  intros H. unfold bufferFrom.
  rewrite codePoints_fromCodePoints_app by exact H.
  apply encodeCodePoints_app.
Qed.

Lemma bufferFrom_fromCodePoints (cps : list N) :
  Forall isScalar cps -> bufferFrom (fromCodePoints cps) = encodeCodePoints cps.
Proof.
  intros H. rewrite <- (app_nil_r (fromCodePoints cps)).
  rewrite bufferFrom_fromCodePoints_app by exact H. apply app_nil_r.
Qed.

Lemma decode_encodeCodePoints (cps : list N) :
  decode (encodeCodePoints cps) = map scalarValue cps.
Proof.
  induction cps as [|c cps IH]; [reflexivity|].
  change (encodeCodePoints (c :: cps))
    with (encodeCodePoint c ++ encodeCodePoints cps).
  rewrite decode_encode_app, IH. reflexivity.
Qed.

Lemma map_scalarValue_id (cps : list N) :
  Forall isScalar cps -> map scalarValue cps = cps.
Proof.
  induction 1 as [|c cps Hc _ IH]; [reflexivity|].
  simpl. rewrite Hc, IH. reflexivity.
Qed.

Lemma fromCodePoints_decodesCleanly (cps : list N) :
  Forall isScalar cps -> decodesCleanly (fromCodePoints cps).
Proof.
  intros H. unfold decodesCleanly, toString.
  rewrite bufferFrom_fromCodePoints, decode_encodeCodePoints by exact H.
  rewrite map_scalarValue_id by exact H. reflexivity.
Qed.

Lemma keptCodePoints_scalar (text : jsstring) (n : nat) :
  Forall isScalar (keptCodePoints text n).
Proof.
  unfold keptCodePoints. apply Forall_app. split.
  - apply Forall_forall. intros c Hc.
    apply list_elem_of_In, in_map_iff in Hc as (c' & <- & _).
    apply scalarValue_isScalar.
  - destruct (_ =? _)%nat; repeat constructor.
Qed.

Lemma keptCodePoints_bytes (text : jsstring) (n : nat) :
  (length (encodeCodePoints (keptCodePoints text n)) <= n + 2)%nat.
Proof.
  unfold keptCodePoints. rewrite encodeCodePoints_app, length_app,
    encodeCodePoints_scalarValue.
  pose proof (wholePrefix_fits (codePoints text) n) as Hfit.
  destruct (Nat.eqb_spec
              (length (encodeCodePoints (wholePrefix (codePoints text) n))) n).
  - simpl. lia.
  - change (length (encodeCodePoints [REPLACEMENT])) with 3%nat. lia.
Qed.

Lemma toString_take (text : jsstring) (n : nat) :
  (n <= byteLength text)%nat ->
  toString (take n (bufferFrom text)) = fromCodePoints (keptCodePoints text n).
Proof.
  intros Hn. unfold toString, bufferFrom. rewrite decode_take by exact Hn.
  reflexivity.
Qed.

Lemma marker_codePoints :
  truncationMarker = fromCodePoints truncationMarker /\
  Forall isScalar truncationMarker.
Proof.
  split; [vm_compute; reflexivity|].
  apply Forall_forall. intros c Hc. apply list_elem_of_In in Hc.
  assert (Hall : forallb (fun c => N.eqb (scalarValue c) c) truncationMarker
                 = true) by (vm_compute; reflexivity).
  rewrite forallb_forall in Hall. apply N.eqb_eq, Hall, Hc.
Qed.

Lemma trimUtf8_within (text : jsstring) (maxBytes : Z) :
  (Z.of_nat (byteLength text) <= maxBytes)%Z ->
  trimUtf8 text maxBytes = (text, false).
Proof.
  intros H. unfold trimUtf8. apply Z.leb_le in H. rewrite H. reflexivity.
Qed.

Lemma trimUtf8_cut (text : jsstring) (maxBytes : Z) :
  (0 <= maxBytes < Z.of_nat (byteLength text))%Z ->
  trimUtf8 text maxBytes =
    (fromCodePoints (keptCodePoints text (Z.to_nat maxBytes)) ++ truncationMarker,
     true).
Proof.
  intros H. unfold trimUtf8.
  destruct (Z.leb_spec (Z.of_nat (byteLength text)) maxBytes); [lia|].
  rewrite slice0_nonneg by lia. rewrite toString_take by lia. reflexivity.
Qed.

Lemma cut_byteLength (text : jsstring) (n : nat) :
  (byteLength (fromCodePoints (keptCodePoints text n) ++ truncationMarker)
   <= n + 2 + byteLength truncationMarker)%nat.
Proof.
  unfold byteLength at 1.
  rewrite bufferFrom_fromCodePoints_app by apply keptCodePoints_scalar.
  rewrite length_app. pose proof (keptCodePoints_bytes text n).
  unfold byteLength. lia.
Qed.

Lemma cut_decodesCleanly (text : jsstring) (n : nat) :
  decodesCleanly (fromCodePoints (keptCodePoints text n) ++ truncationMarker).
Proof.
  destruct marker_codePoints as [Heq Hsc]. rewrite Heq.
  unfold fromCodePoints. rewrite <- flat_map_app.
  apply fromCodePoints_decodesCleanly, Forall_app.
  split; [apply keptCodePoints_scalar | exact Hsc].
Qed.

End Truncator.

(* ================================================================== *)
(** ** The collector: blocks, and failing commands *)
(* ================================================================== *)

Section CollectorRuns.

Variable h : Host.
Variable repositoryPath : jsstring.
Variable config : ExtensionConfig.

Lemma abortsOnFailure_ret {A : Type} (a : A) : abortsOnFailure h repositoryPath config (ret a).
Proof. intros args message Hin. apply elem_of_nil in Hin. contradiction. Qed.

Lemma abortsOnFailure_runGit (args : list jsstring) :
  abortsOnFailure h repositoryPath config (runGit h args repositoryPath (commandTimeoutMs config)).
Proof.
  intros args' message Hin Herr.
  unfold issued, runGit in Hin. cbn [fst] in Hin.
  apply list_elem_of_singleton in Hin. subst args'.
  unfold outcome, runGit. cbn [snd].
  fold (gitOutcome h repositoryPath config args). rewrite Herr. reflexivity.
Qed.

Lemma abortsOnFailure_bind {A B : Type} (m : GitM A) (f : A -> GitM B) :
  abortsOnFailure h repositoryPath config m ->
  (forall a, abortsOnFailure h repositoryPath config (f a)) ->
  abortsOnFailure h repositoryPath config (bind m f).
Proof.
  intros Hm Hf args message Hin Herr.
  destruct (outcome m) as [a|e] eqn:Hout.
  - rewrite (issued_bind_Ok _ _ _ Hout) in Hin.
    rewrite (outcome_bind_of_Ok _ _ _ Hout).
    apply elem_of_app in Hin as [Hin|Hin].
    + rewrite (Hm _ _ Hin Herr) in Hout. discriminate.
    + apply (Hf a _ _ Hin Herr).
  - destruct (bind_of_Rejected m f e Hout) as [Hiss Hrej].
    rewrite Hiss in Hin. pose proof (Hm _ _ Hin Herr) as Hfail.
    rewrite Hout in Hfail. injection Hfail as ->. exact Hrej.
Qed.

Ltac aborts :=
  repeat first
    [ apply abortsOnFailure_bind; [|intros ?]
    | apply abortsOnFailure_runGit
    | apply abortsOnFailure_ret
    | match goal with |- abortsOnFailure _ _ _ (if ?b then _ else _) => destruct b end ].

Lemma abortsOnFailure_fileSections (S U T : gset jsstring) (filePath : jsstring) :
  abortsOnFailure h repositoryPath config (fileSections h repositoryPath config S U T filePath).
Proof. unfold fileSections. aborts. Qed.

Lemma abortsOnFailure_diffPartsLoop (S U T : gset jsstring)
    (files diffParts : list jsstring) :
  abortsOnFailure h repositoryPath config (diffPartsLoop h repositoryPath config S U T files diffParts).
Proof.
  revert diffParts. induction files as [|filePath rest IH]; intros diffParts.
  - apply abortsOnFailure_ret.
  - cbn [diffPartsLoop]. apply abortsOnFailure_bind.
    + apply abortsOnFailure_fileSections.
    + intros sections. apply IH.
Qed.

Lemma abortsOnFailure_collectBody :
  abortsOnFailure h repositoryPath config (collectBody h repositoryPath config).
Proof.
  unfold collectBody.
  repeat first
    [ apply abortsOnFailure_diffPartsLoop
    | apply abortsOnFailure_bind; [|intros ?]
    | apply abortsOnFailure_runGit
    | apply abortsOnFailure_ret
    | match goal with |- abortsOnFailure _ _ _ (if ?b then _ else _) => destruct b end ].
Qed.

Lemma abortsOnFailure_collect :
  abortsOnFailure h repositoryPath config (collectRepositoryChanges h repositoryPath config).
Proof.
  unfold collectRepositoryChanges. apply abortsOnFailure_bind.
  - apply abortsOnFailure_collectBody.
  - intros l. apply abortsOnFailure_ret.
Qed.

(** The status fetch is the first command of every run. *)
Lemma collect_issues_status :
  head (issued (collectRepositoryChanges h repositoryPath config)) =
    Some [js "status"; js "--short"].
Proof.
  unfold collectRepositoryChanges, collectBody.
  do 2 apply head_issued_bind. reflexivity.
Qed.

(** Every block of the diff is headed by a file of the working set. *)
Lemma diffPartsLoop_blocks (S U T : gset jsstring)
    (files diffParts parts : list jsstring) :
  outcome (diffPartsLoop h repositoryPath config S U T files diffParts)
    = Ok parts ->
  forall part, part ∈ parts ->
    part ∈ diffParts \/
    exists filePath sections,
      filePath ∈ files /\
      part = js "## " ++ filePath ++ nl ++ join (nl ++ nl) sections.
Proof.
  revert diffParts. induction files as [|filePath rest IH]; intros diffParts.
  - cbn [diffPartsLoop]. rewrite outcome_ret. intros [= <-] part Hin. auto.
  - cbn [diffPartsLoop]. intros H part Hin. bind_inv H.
    destruct (IH _ H part Hin) as [Hacc | (f & secs & Hf & Heq)].
    + destruct (0 <? length v)%nat; [|auto].
      apply elem_of_app in Hacc as [Hacc|Hnew]; [auto|].
      apply list_elem_of_singleton in Hnew. right.
      exists filePath, v. split; [left | exact Hnew].
    + right. exists f, secs. split; [right; exact Hf | exact Heq].
Qed.

Lemma diffPartsLoop_length (S U T : gset jsstring)
    (files diffParts parts : list jsstring) :
  outcome (diffPartsLoop h repositoryPath config S U T files diffParts)
    = Ok parts ->
  (length parts <= length diffParts + length files)%nat.
Proof.
  revert diffParts. induction files as [|filePath rest IH]; intros diffParts.
  - cbn [diffPartsLoop]. rewrite outcome_ret. intros [= <-]. lia.
  - cbn [diffPartsLoop]. intros H. bind_inv H. apply IH in H.
    destruct (0 <? length v)%nat; [rewrite length_app in H|]; simpl in *; lia.
Qed.

End CollectorRuns.

(* ================================================================== *)
(** ** Untracked files *)
(* ================================================================== *)

(** Replaces the string literals of the goal by their code units. *)
Ltac literals :=
  repeat match goal with
         | |- context [js ?s] =>
             let v := eval vm_compute in (js s) in
             replace (js s) with v by (vm_compute; reflexivity)
         end.

Section Untracked.

Variable h : Host.

Lemma unavailable_nonblank (reason : jsstring) :
  truthy (trim (js "[Untracked file unavailable: " ++ reason ++ js "]")) = true.
Proof.
  literals. rewrite trimmed_trim; [reflexivity|].
  apply (trimmed_ends 91 93); try reflexivity.
  rewrite app_assoc. apply last_snoc.
Qed.

Lemma readUntrackedFileContent_nonblank (filePath : jsstring) :
  truthy (trim (readUntrackedFileContent h filePath)) = true.
Proof.
  unfold readUntrackedFileContent.
  destruct (fs_stat_isFile h filePath) as [isFile|reason];
    [|apply unavailable_nonblank].
  destruct isFile; cbn [negb]; [|vm_compute; reflexivity].
  destruct (fs_readFile h filePath) as [buffer|reason];
    [|apply unavailable_nonblank].
  destruct (looksBinary buffer); [vm_compute; reflexivity|].
  cbv zeta. unfold orElse.
  destruct (truthy (trim (toString buffer))) eqn:Htext.
  - rewrite trim_idem. exact Htext.
  - vm_compute. reflexivity.
Qed.

(** An untracked file of the working set always has its section. *)
Lemma untracked_section (repositoryPath filePath : jsstring) :
  truthy (trim (readUntrackedFileContent h (path_join h repositoryPath filePath)))
  = true.
Proof. apply readUntrackedFileContent_nonblank. Qed.

End Untracked.

(* ================================================================== *)
(** ** The prompt *)
(* ================================================================== *)

Section PromptFacts.

(** Decides a membership or a header in the array of sections: each
    section is told from a header by its first characters. *)
Ltac heads_in H :=
  unfold zhConstraints, enConstraints, quote, nl in H;
  repeat match type of H with
         | context [js ?s] =>
             let v := eval vm_compute in (js s) in
             replace (js s) with v in H by (vm_compute; reflexivity)
         end;
  cbn [app] in H.

Ltac distinct_heads :=
  repeat match goal with
         | H : _ ∈ _ ++ _ |- _ => apply elem_of_app in H as [H|H]
         | H : _ ∈ _ :: _ |- _ => apply elem_of_cons in H as [H|H]
         | H : _ ∈ [] |- _ => apply elem_of_nil in H; contradiction
         | H : _ ∈ (if ?b then _ else _) |- _ => destruct b eqn:?
         | H : _ ∈ (match ?l with zh => _ | en => _ end) |- _ => destruct l
         end.

Variable snapshot : ChangeSnapshot.
Variable config : ExtensionConfig.

Lemma status_section :
  hasSection (js "Git status (short):" ++ nl) (promptSections snapshot config)
  <-> truthy (trim (status snapshot)) = true.
Proof.
  unfold hasSection, promptSections. split.
  - intros (s & Hin & [k Hk]). distinct_heads; subst s; try reflexivity;
      exfalso; heads_in Hk; discriminate.
  - intros ->. exists (js "Git status (short):" ++ nl ++ status snapshot).
    split.
    + rewrite !elem_of_app. do 4 right. left. left.
    + rewrite app_assoc. apply prefix_app_r. reflexivity.
Qed.

Lemma additionalRules_section :
  hasSection (js "Additional rules:" ++ nl) (promptSections snapshot config)
  <-> truthy (trim (additionalRules config)) = true.
Proof.
  unfold hasSection, promptSections. split.
  - intros (s & Hin & [k Hk]). distinct_heads; subst s; try reflexivity;
      exfalso; heads_in Hk; discriminate.
  - intros ->.
    exists (js "Additional rules:" ++ nl ++ trim (additionalRules config)).
    split.
    + rewrite !elem_of_app. do 2 right. left. left.
    + rewrite app_assoc. apply prefix_app_r. reflexivity.
Qed.

Lemma fileLimit_section :
  hasSection (js "Note: Changed files were limited to ")
             (promptSections snapshot config)
  <-> wasFileLimited snapshot = true.
Proof.
  unfold hasSection, promptSections. split.
  - intros (s & Hin & [k Hk]). distinct_heads; subst s; try reflexivity;
      exfalso; heads_in Hk; discriminate.
  - intros ->. eexists. split.
    + rewrite !elem_of_app. do 6 right. left. left.
    + apply prefix_app_r. reflexivity.
Qed.

Lemma truncation_section :
  js "Note: Diff content was truncated for performance limits."
    ∈ promptSections snapshot config
  <-> wasTruncated snapshot = true.
Proof.
  unfold promptSections. split.
  - intros Hin. distinct_heads; try reflexivity;
      exfalso; heads_in Hin; discriminate.
  - intros ->. rewrite !elem_of_app. do 7 right. left.
Qed.

Lemma diff_section :
  js "Git diff:" ++ nl ++ orElse (diff snapshot) (js "(no diff provided)")
    ∈ promptSections snapshot config.
Proof.
  unfold promptSections. rewrite !elem_of_app. do 5 right. left. left.
Qed.

End PromptFacts.

(* ================================================================== *)
(** ** The user prompt as a string *)
(* ================================================================== *)

Section Includes.

Lemma startsWith_prefix (s search : jsstring) :
  startsWith s search = true <-> search `prefix_of` s.
Proof.
  revert s. induction search as [|c search IH]; intros s.
  - split; [intros _; apply prefix_nil | destruct s; reflexivity].
  - destruct s as [|d s]; simpl.
    + split; [discriminate | intros H; apply prefix_nil_not in H; contradiction].
    + rewrite andb_true_iff, N.eqb_eq, IH. split.
      * intros [-> H]. apply prefix_cons, H.
      * intros H. apply prefix_cons_inv_1 in H as Heq.
        apply prefix_cons_inv_2 in H. auto.
Qed.

Lemma includes_unfold (s search : jsstring) :
  includes s search =
    startsWith s search
    || match s with [] => false | _ :: s' => includes s' search end.
Proof. destruct s; reflexivity. Qed.

Lemma includes_spec (s search : jsstring) :
  includes s search = true <-> exists a b, s = a ++ search ++ b.
Proof.
  split.
  - induction s as [|d s IH]; rewrite includes_unfold, orb_true_iff.
    + intros [H|H]; [|discriminate].
      apply startsWith_prefix in H as [k Hk]. exists [], k. exact Hk.
    + intros [H|H].
      * apply startsWith_prefix in H as [k Hk]. exists [], k. exact Hk.
      * destruct (IH H) as (a & b & ->). exists (d :: a), b. reflexivity.
  - intros (a & b & ->). induction a as [|d a IH].
    + rewrite includes_unfold. apply orb_true_iff. left.
      apply startsWith_prefix. exists b. reflexivity.
    + rewrite includes_unfold. apply orb_true_iff. right. exact IH.
Qed.

Lemma includes_here (search b : jsstring) : includes (search ++ b) search = true.
Proof. apply includes_spec. exists [], b. reflexivity. Qed.

Lemma includes_self (search : jsstring) : includes search search = true.
Proof. apply includes_spec. exists [], []. rewrite app_nil_r. reflexivity. Qed.

Lemma includes_nil (search : jsstring) : search <> [] -> includes [] search = false.
Proof. destruct search; [congruence | reflexivity]. Qed.

(** A phrase without [c] lies on one side of a [c]. *)
Lemma includes_around (c : N) (a b search : jsstring) :
  c ∉ search ->
  includes (a ++ c :: b) search = includes a search || includes b search.
Proof.
  intros Hc. apply eq_iff_eq_true.
  rewrite orb_true_iff, !includes_spec. split.
  - intros (x & y & Heq).
    apply app_eq_inv in Heq as [(k & Ha & Heq) | (k & Hx & Heq)].
    + (* a = x ++ k, search ++ y = k ++ c :: b *)
      apply app_eq_inv in Heq as [(k' & Hs & Hb) | (k' & Hk & Hy)].
      * (* search = k ++ k', c :: b = k' ++ y *)
        destruct k' as [|d k'].
        -- left. exists x, []. rewrite Ha, Hs, !app_nil_r. reflexivity.
        -- injection Hb as <- _. exfalso. apply Hc. rewrite Hs.
           apply elem_of_app. right. left.
      * (* k = search ++ k' *)
        left. exists x, k'. rewrite Ha, Hk. reflexivity.
    + (* x = a ++ k, c :: b = k ++ search ++ y *)
      destruct k as [|d k].
      * destruct search as [|d search].
        -- left. exists a, []. rewrite !app_nil_r. reflexivity.
        -- injection Heq as <- _. exfalso. apply Hc. left.
      * injection Heq as _ ->. right. exists k, y. reflexivity.
  - intros [(x & y & ->) | (x & y & ->)].
    + exists x, (y ++ c :: b). rewrite <- !app_assoc. reflexivity.
    + exists (a ++ c :: x), y. rewrite <- app_assoc. reflexivity.
Qed.

Lemma includes_after (c : N) (b search : jsstring) :
  c ∉ search -> search <> [] ->
  includes (c :: b) search = includes b search.
Proof.
  intros Hc Hne. pose proof (includes_around c [] b search Hc) as H.
  cbn [app] in H. rewrite H, includes_nil by exact Hne. reflexivity.
Qed.

(** A phrase with a character that [s] lacks is not in [s]. *)
Lemma includes_lacking (c : N) (s search : jsstring) :
  c ∈ search -> c ∉ s -> includes s search = false.
Proof.
  intros Hin Hout. apply not_true_is_false. intros H.
  apply includes_spec in H as (a & b & ->). apply Hout.
  rewrite !elem_of_app. auto.
Qed.

Lemma includes_trim (s search : jsstring) :
  includes s search = false -> includes (trim s) search = false.
Proof.
  intros H. apply not_true_is_false. intros Ht. apply not_true_iff_false in H.
  apply H. apply includes_spec in Ht as (a & b & Heq). apply includes_spec.
  destruct (trimStart_decompose s) as (k1 & Hk1 & _).
  destruct (trimEnd_decompose (trimStart s)) as (k2 & Hk2 & _).
  fold (trim s) in Hk2. rewrite Heq in Hk2. rewrite Hk2 in Hk1.
  exists (k1 ++ a), (b ++ k2). rewrite Hk1, <- !app_assoc. reflexivity.
Qed.

End Includes.

Section Numbers.

Lemma decodeFrom_ascii (bytes : list N) :
  Forall (fun b => (b < 0x80)%N) bytes ->
  decodeFrom decoderInit bytes = (bytes, decoderInit).
Proof.
  induction 1 as [|b bytes Hb _ IH]; [reflexivity|].
  rewrite decodeFrom_cons.
  assert (Hone : decodeByte decoderInit b = ([b], decoderInit)).
  { unfold decodeByte, decodeLead. cbn [d_needed decoderInit].
    change (0 =? 0)%N with true. cbv iota.
    assert (H : (b <=? 0x7F)%N = true) by (apply N.leb_le; lia).
    rewrite H. reflexivity. }
  rewrite Hone. cbn [fst snd]. rewrite IH. reflexivity.
Qed.

Lemma toString_ascii (bytes : list N) :
  Forall (fun b => (b < 0x80)%N) bytes -> toString bytes = bytes.
Proof.
  intros Hall. unfold toString, decode. rewrite decodeFrom_ascii by exact Hall.
  cbn [decodeFlush decoderInit d_needed]. change (0 =? 0)%N with true.
  cbv iota. rewrite app_nil_r.
  induction Hall as [|b bytes Hb _ IH]; [reflexivity|].
  unfold fromCodePoints in *. cbn [flat_map]. rewrite IH.
  unfold codeUnits. assert (H : (b <? 0x10000)%N = true) by (apply N.ltb_lt; lia).
  rewrite H. reflexivity.
Qed.

Lemma string_of_uint_numerals (d : Decimal.uint) :
  Forall numeral (bytesOfLiteral (NilEmpty.string_of_uint d)).
Proof.
  induction d; cbn [NilEmpty.string_of_uint bytesOfLiteral];
    constructor; try assumption; right; vm_compute; split; discriminate.
Qed.

Lemma numberToString_numerals (n : Z) : Forall numeral (numberToString n).
Proof.
  assert (Hall : Forall numeral
            (bytesOfLiteral (NilZero.string_of_int (Z.to_int n)))).
  { assert (Hzero : Forall numeral (bytesOfLiteral "0")).
    { constructor; [right; vm_compute; split; discriminate | constructor]. }
    unfold NilZero.string_of_int, NilZero.string_of_uint.
    destruct (Z.to_int n) as [d|d].
    - destruct d; solve [exact Hzero | apply string_of_uint_numerals].
    - cbn [bytesOfLiteral]. constructor; [left; reflexivity|].
      destruct d; solve [exact Hzero | apply string_of_uint_numerals]. }
  unfold numberToString, js. rewrite toString_ascii; [exact Hall|].
  eapply Forall_impl; [exact Hall|]. intros u [-> | [_ Hu]]; lia.
Qed.

End Numbers.

Section PromptStrings.

Lemma lacks_check (c : N) (s : jsstring) :
  forallb (fun u => negb (u =? c)%N) s = true -> c ∉ s.
Proof.
  intros Hall Hin. rewrite forallb_forall in Hall.
  apply list_elem_of_In, Hall in Hin. rewrite N.eqb_refl in Hin. discriminate.
Qed.

Lemma has_check (c : N) (s : jsstring) : existsb (N.eqb c) s = true -> c ∈ s.
Proof.
  intros H. apply existsb_exists in H as (u & Hin & Heq).
  apply N.eqb_eq in Heq as ->. apply list_elem_of_In, Hin.
Qed.

Variable snapshot : ChangeSnapshot.
Variable config : ExtensionConfig.

(** The user prompt, written out. *)
Lemma userPrompt_layout :
  payload_userPrompt (buildPrompt snapshot config) =
    js "Task: Create one detailed git commit message based on the repository changes."
    ++ nl ++ nl ++ js "Rules:" ++ nl ++ ruleTemplate config
    ++ (if truthy (trim (additionalRules config))
        then nl ++ nl ++ js "Additional rules:" ++ nl
             ++ trim (additionalRules config)
        else [])
    ++ nl ++ nl
    ++ (match language config with
        | zh => js "语言要求：输出必须为简体中文。" ++ nl ++ nl ++ zhConstraints
        | en => js "Language requirement: Output must be in English."
                ++ nl ++ nl ++ enConstraints
        end)
    ++ (if truthy (trim (status snapshot))
        then nl ++ nl ++ js "Git status (short):" ++ nl ++ status snapshot
        else [])
    ++ nl ++ nl ++ js "Git diff:" ++ nl
    ++ orElse (diff snapshot) (js "(no diff provided)")
    ++ (if wasFileLimited snapshot
        then nl ++ nl
             ++ (js "Note: Changed files were limited to "
                 ++ numberToString (includedChangedFiles snapshot) ++ js "/"
                 ++ numberToString (totalChangedFiles snapshot)
                 ++ js " by maxChangedFiles.")
        else [])
    ++ (if wasTruncated snapshot
        then nl ++ nl
             ++ js "Note: Diff content was truncated for performance limits."
        else []).
Proof.
  unfold buildPrompt, promptSections. cbn [payload_userPrompt].
  repeat match goal with
         | |- context [js ?s] => generalize (js s); intro
         end.
  generalize zhConstraints, enConstraints. intros zhLines enLines.
  destruct (truthy (trim (additionalRules config))), (language config),
    (truthy (trim (status snapshot))), (wasFileLimited snapshot),
    (wasTruncated snapshot);
    cbn [app join]; rewrite <- ?app_assoc, ?app_nil_r; reflexivity.
Qed.

(** The note on limited files holds no phrase with a character that is
    neither in its words nor in a number. *)
Lemma limitNote_lacking (c : N) (phrase : jsstring) :
  existsb (N.eqb c) phrase = true ->
  forallb (fun u => negb (u =? c)%N)
    (js "Note: Changed files were limited to " ++ js "-0123456789/"
     ++ js " by maxChangedFiles.") = true ->
  includes
    (js "Note: Changed files were limited to "
     ++ numberToString (includedChangedFiles snapshot) ++ js "/"
     ++ numberToString (totalChangedFiles snapshot)
     ++ js " by maxChangedFiles.") phrase = false.
Proof.
  intros Hin Hout. apply (includes_lacking c); [apply has_check, Hin|].
  rewrite !forallb_app, !andb_true_iff in Hout.
  destruct Hout as (H1 & H2 & H3).
  assert (Hnum : forall n, c ∉ numberToString n).
  { intros n Hc.
    pose proof (numberToString_numerals n) as Hall.
    rewrite Forall_forall in Hall. specialize (Hall c Hc).
    apply lacks_check in H2. apply H2.
    assert (Hdigits : forall u, numeral u -> existsb (N.eqb u) (js "-0123456789/") = true).
    { intros u [-> | Hu]; [reflexivity|].
      assert (Hcases : (u = 48 \/ u = 49 \/ u = 50 \/ u = 51 \/ u = 52 \/ u = 53
                        \/ u = 54 \/ u = 55 \/ u = 56 \/ u = 57)%N) by lia.
      repeat destruct Hcases as [-> | Hcases]; try subst u; reflexivity. }
    apply has_check, Hdigits, Hall. }
  rewrite !not_elem_of_app. repeat split;
    try apply Hnum; try (apply lacks_check; assumption).
  apply lacks_check in H2. intros Hc. apply H2.
  apply list_elem_of_singleton in Hc. subst c. apply has_check. reflexivity.
Qed.

Lemma includes_join_lines (phrase : jsstring) (lines : list jsstring) :
  10%N ∉ phrase -> phrase <> [] ->
  includes (join nl lines) phrase = existsb (fun line => includes line phrase) lines.
Proof.
  intros Hlf Hne. induction lines as [|p [|q rest] IH].
  - apply includes_nil, Hne.
  - cbn [join existsb]. rewrite orb_false_r. reflexivity.
  - change (join nl (p :: q :: rest)) with (p ++ 10%N :: join nl (q :: rest)).
    rewrite (includes_around 10 _ _ _ Hlf), IH. reflexivity.
Qed.

(** A phrase of one line is in the user prompt when it is in one of its
    lines, the texts of the caller taken as they are. *)
Lemma userPrompt_lines (phrase : jsstring) :
  10%N ∉ phrase -> phrase <> [] ->
  includes (payload_userPrompt (buildPrompt snapshot config)) phrase =
    existsb (fun line => includes line phrase)
      ([js "Task: Create one detailed git commit message based on the repository changes.";
        []; js "Rules:"; ruleTemplate config]
       ++ (if truthy (trim (additionalRules config))
           then [[]; js "Additional rules:"; trim (additionalRules config)]
           else [])
       ++ [[];
           match language config with
           | zh => js "语言要求：输出必须为简体中文。"
           | en => js "Language requirement: Output must be in English."
           end;
           [];
           match language config with
           | zh => zhConstraints
           | en => enConstraints
           end]
       ++ (if truthy (trim (status snapshot))
           then [[]; js "Git status (short):"; status snapshot]
           else [])
       ++ [[]; js "Git diff:";
           orElse (diff snapshot) (js "(no diff provided)")]
       ++ (if wasFileLimited snapshot
           then [[];
                 js "Note: Changed files were limited to "
                 ++ numberToString (includedChangedFiles snapshot) ++ js "/"
                 ++ numberToString (totalChangedFiles snapshot)
                 ++ js " by maxChangedFiles."]
           else [])
       ++ (if wasTruncated snapshot
           then [[];
                 js "Note: Diff content was truncated for performance limits."]
           else [])).
Proof.
  intros Hlf Hne. rewrite <- (includes_join_lines _ _ Hlf Hne). f_equal.
  rewrite userPrompt_layout.
  generalize (orElse (diff snapshot) (js "(no diff provided)")). intros shown.
  generalize (numberToString (includedChangedFiles snapshot)),
    (numberToString (totalChangedFiles snapshot)). intros included total.
  repeat match goal with
         | |- context [js ?s] => generalize (js s); intro
         end.
  generalize zhConstraints, enConstraints. intros zhLines enLines.
  destruct (truthy (trim (additionalRules config))), (language config),
    (truthy (trim (status snapshot))), (wasFileLimited snapshot),
    (wasTruncated snapshot);
    cbn [app join]; unfold nl; rewrite <- ?app_assoc, ?app_nil_r; reflexivity.
Qed.

(** Settles [includes] of a phrase of one line in the user prompt, for a
    phrase that the texts of the caller do not hold; [witness] is a
    character of the phrase that the note on limited files lacks. *)
Ltac by_lines phrase witness :=
  let Hr := fresh "Hr" in
  let Ha := fresh "Ha" in
  let Hs := fresh "Hs" in
  let Hd := fresh "Hd" in
  let Hlf := fresh "Hlf" in
  let Hne := fresh "Hne" in
  let Hnote := fresh "Hnote" in
  unfold quotes; rewrite !orb_false_iff; intros [[[Hr Ha] Hs] Hd];
  apply includes_trim in Ha;
  assert (Hlf : 10%N ∉ phrase) by (apply lacks_check; vm_compute; reflexivity);
  assert (Hne : phrase <> [])
    by (apply truthy_true; vm_compute; reflexivity);
  pose proof (limitNote_lacking witness phrase) as Hnote;
  rewrite (userPrompt_lines phrase Hlf Hne); unfold orElse;
  destruct (truthy (trim (additionalRules config))), (language config),
    (truthy (trim (status snapshot))), (truthy (diff snapshot)),
    (wasFileLimited snapshot), (wasTruncated snapshot);
    cbn [existsb app];
    rewrite ?Hr, ?Ha, ?Hs, ?Hd, ?Hnote, ?includes_here
      by (vm_compute; reflexivity);
    vm_compute; reflexivity.

Lemma status_phrase :
  quotes snapshot config (js "Git status (short):") = false ->
  includes (payload_userPrompt (buildPrompt snapshot config))
    (js "Git status (short):") = truthy (trim (status snapshot)).
Proof. by_lines (js "Git status (short):") 71%N. Qed.

Lemma additionalRules_phrase :
  quotes snapshot config (js "Additional rules:") = false ->
  includes (payload_userPrompt (buildPrompt snapshot config))
    (js "Additional rules:") = truthy (trim (additionalRules config)).
Proof. by_lines (js "Additional rules:") 65%N. Qed.

Lemma fileLimit_phrase :
  quotes snapshot config (js "Note: Changed files were limited to ") = false ->
  includes (payload_userPrompt (buildPrompt snapshot config))
    (js "Note: Changed files were limited to ") = wasFileLimited snapshot.
Proof. by_lines (js "Note: Changed files were limited to ") 0%N. Qed.

Lemma truncation_phrase :
  quotes snapshot config
    (js "Note: Diff content was truncated for performance limits.") = false ->
  includes (payload_userPrompt (buildPrompt snapshot config))
    (js "Note: Diff content was truncated for performance limits.")
  = wasTruncated snapshot.
Proof.
  by_lines (js "Note: Diff content was truncated for performance limits.") 68%N.
Qed.

Lemma sectionWhen_truthy (text section : jsstring) :
  sectionWhen (text <> []) section
    (if truthy text then nl ++ nl ++ section else []).
Proof.
  destruct text; [right | left]; split; congruence || reflexivity.
Qed.

Lemma sectionWhen_flag (flag : bool) (section : jsstring) :
  sectionWhen (flag = true) section (if flag then nl ++ nl ++ section else []).
Proof.
  destruct flag; [left | right]; split; congruence || reflexivity.
Qed.

Lemma diff_phrase :
  includes (payload_userPrompt (buildPrompt snapshot config))
    (nl ++ nl ++ js "Git diff:" ++ nl
     ++ orElse (diff snapshot) (js "(no diff provided)")) = true.
Proof.
  apply includes_spec. rewrite userPrompt_layout.
  generalize (orElse (diff snapshot) (js "(no diff provided)")). intros shown.
  repeat match goal with
         | |- context [js ?s] => generalize (js s); intro
         end.
  match goal with
  | |- exists a b, ?task ++ ?rest = _ =>
      match rest with
      | context C [nl ++ nl ++ ?header ++ nl ++ shown ++ ?after] =>
          let before := context C [@nil N] in
          exists (task ++ before), after
      end
  end.
  rewrite <- !app_assoc, ?app_nil_r. reflexivity.
Qed.

End PromptStrings.

(* ================================================================== *)
(** ** The byte-bounded truncator *)
(* ================================================================== *)

Lemma trimUtf8_byteLength (text : jsstring) (maxBytes : Z) :
  (0 <= maxBytes)%Z ->
  (Z.of_nat (byteLength (fst (trimUtf8 text maxBytes)))
   <= maxBytes + 2 + Z.of_nat (byteLength truncationMarker))%Z.
Proof.
  intros Hmax.
  destruct (Z.le_gt_cases (Z.of_nat (byteLength text)) maxBytes) as [Hin|Hout].
  - rewrite trimUtf8_within by exact Hin. cbn [fst]. lia.
  - rewrite trimUtf8_cut by lia. cbn [fst].
    pose proof (cut_byteLength text (Z.to_nat maxBytes)). lia.
Qed.

(** C1 (as the code has it). When truncation is enabled and the budget is
    at least 4096, the UTF-8 byte length of the snapshot's [diff] is at most
    [maxDiffBytes] plus 2 plus the byte length of the truncation marker: a
    code point split by the cut is decoded to U+FFFD, whose three bytes can
    take the place of a single byte. *)
Theorem diff_within_budget_when_truncating (h : Host) (repositoryPath : jsstring)
    (config : ExtensionConfig) (snapshot : ChangeSnapshot) :
  truncateDiff config = true ->
  (4096 <= maxDiffBytes config)%Z ->
  outcome (collectRepositoryChanges h repositoryPath config) = Ok snapshot ->
  (Z.of_nat (byteLength (diff snapshot))
   <= maxDiffBytes config + 2 + Z.of_nat (byteLength truncationMarker))%Z.
Proof.
  intros Htrunc Hmax Hrun.
  apply collect_Ok in Hrun as (l & Hbody & ->).
  apply collectBody_Ok in Hbody
    as (_ & _ & _ & _ & _ & _ & _ & _ & Hdiff & _).
  rewrite Hdiff, Htrunc. apply trimUtf8_byteLength. lia.
Qed.

Lemma diff_within_budget_when_truncating_witness :
  exists snapshot,
    outcome (collectRepositoryChanges (stagedOnly accents) repo
               (settings true 10 4096 true)) = Ok snapshot /\
    byteLength (diff snapshot) = 4142%nat /\
    (Z.of_nat (byteLength (diff snapshot))
     <= 4096 + 2 + Z.of_nat (byteLength truncationMarker))%Z.
Proof.
  eexists. split; [vm_compute; reflexivity|].
  split; [vm_compute; reflexivity|].
  apply (diff_within_budget_when_truncating (stagedOnly accents) repo
           (settings true 10 4096 true));
    [reflexivity | apply Z.leb_le; reflexivity | vm_compute; reflexivity].
Defined.

(** C1 (as stated) fails twice over.  With truncation disabled the diff is
    not cut at all; with truncation enabled a cut inside a two-byte code
    point leaves two bytes more than the budget and the marker. *)
Lemma diff_exceeds_budget :
  (exists snapshot,
     outcome (collectRepositoryChanges (stagedOnly accents) repo
                (settings true 10 4096 false)) = Ok snapshot /\
     (4096 + Z.of_nat (byteLength truncationMarker)
      < Z.of_nat (byteLength (diff snapshot)))%Z) /\
  (exists snapshot,
     outcome (collectRepositoryChanges (stagedOnly accents) repo
                (settings true 10 4096 true)) = Ok snapshot /\
     (4096 + Z.of_nat (byteLength truncationMarker)
      < Z.of_nat (byteLength (diff snapshot)))%Z).
Proof.
  split; eexists; (split; [vm_compute; reflexivity|]);
    apply Z.ltb_lt; vm_compute; reflexivity.
Qed.

(** C2 (as the code has it). When the text is longer than a non-negative
    budget, [trimUtf8] returns the decoding of the first [maxBytes] bytes
    followed by the marker, with [truncated = true]: the whole code points
    that fit (a lone surrogate as U+FFFD), then one U+FFFD in place of the
    code point the cut falls in, which is replaced and not dropped.  When
    the cut falls between code points the result is the one of the spec.
    The returned string decodes cleanly. *)
Theorem trimUtf8_replaces_partial (text : jsstring) (maxBytes : Z) :
  (0 <= maxBytes < Z.of_nat (byteLength text))%Z ->
  let whole := wholePrefix (codePoints text) (Z.to_nat maxBytes) in
  trimUtf8 text maxBytes =
    (fromCodePoints
       (map scalarValue whole ++
        (if (length (encodeCodePoints whole) =? Z.to_nat maxBytes)%nat
         then [] else [REPLACEMENT]))
     ++ truncationMarker, true) /\
  whole `prefix_of` codePoints text /\
  (length (encodeCodePoints whole) <= Z.to_nat maxBytes)%nat /\
  (length (encodeCodePoints whole) = Z.to_nat maxBytes ->
   fst (trimUtf8 text maxBytes) = truncateDropping text maxBytes) /\
  decodesCleanly (fst (trimUtf8 text maxBytes)).
Proof.
  intros Hcut whole.
  pose proof (trimUtf8_cut text maxBytes Hcut) as Heq.
  unfold keptCodePoints in Heq. fold whole in Heq.
  split; [exact Heq|].
  split; [apply wholePrefix_prefix|].
  split; [apply wholePrefix_fits|].
  split.
  - intros Hexact. rewrite Heq. cbn [fst]. unfold truncateDropping. fold whole.
    apply Nat.eqb_eq in Hexact. rewrite Hexact, app_nil_r. reflexivity.
  - rewrite trimUtf8_cut by exact Hcut. cbn [fst]. apply cut_decodesCleanly.
Qed.

Lemma trimUtf8_replaces_partial_witness :
  trimUtf8 (js "aé") 2 = ([97; 0xFFFD]%N ++ truncationMarker, true) /\
  decodesCleanly (fst (trimUtf8 (js "aé") 2)).
Proof.
  assert (Hcut : (0 <= 2 < Z.of_nat (byteLength (js "aé")))%Z).
  { split; [apply Z.leb_le | apply Z.ltb_lt]; vm_compute; reflexivity. }
  destruct (trimUtf8_replaces_partial (js "aé") 2 Hcut) as (Heq & _ & _ & _ & Hclean).
  split; [rewrite Heq; vm_compute; reflexivity | exact Hclean].
Defined.

(** C2 (as stated) fails: cutting U+00E9 after its first byte returns
    U+FFFD and the marker, not the marker alone. *)
Lemma trimUtf8_keeps_replacement :
  (1 < Z.of_nat (byteLength (js "é")))%Z /\
  fst (trimUtf8 (js "é") 1) = [0xFFFD]%N ++ truncationMarker /\
  truncateDropping (js "é") 1 = truncationMarker /\
  fst (trimUtf8 (js "é") 1) <> truncateDropping (js "é") 1.
Proof.
  split; [apply Z.ltb_lt; vm_compute; reflexivity|].
  split; [vm_compute; reflexivity|].
  split; [vm_compute; reflexivity|].
  vm_compute. discriminate.
Qed.

(** C6. A text whose UTF-8 byte length is at most the budget is returned
    unchanged, with no marker, and [truncated] is [false]. *)
Theorem trimUtf8_within_budget (text : jsstring) (maxBytes : Z) :
  (Z.of_nat (byteLength text) <= maxBytes)%Z ->
  trimUtf8 text maxBytes = (text, false).
Proof. apply trimUtf8_within. Qed.

Lemma trimUtf8_within_budget_witness :
  byteLength (js "héllo") = 6%nat /\
  trimUtf8 (js "héllo") 6 = (js "héllo", false).
Proof.
  split; [vm_compute; reflexivity|].
  apply trimUtf8_within_budget. apply Z.leb_le. vm_compute. reflexivity.
Defined.

(* ================================================================== *)
(** ** The changed-file list *)
(* ================================================================== *)

(** C3. For any staged, unstaged and untracked lists, the merged list holds
    each distinct path exactly once, in first-seen order over staged, then
    unstaged, then untracked, paths being compared as strings; and in every
    run [totalChangedFiles] is the length of the merged list. *)
Theorem merged_files_first_seen (staged unstaged untracked : list jsstring) :
  let all := staged ++ unstaged ++ untracked in
  let merged := uniqueLines all in
  NoDup merged /\
  (forall p, p ∈ merged <-> p ∈ staged \/ p ∈ unstaged \/ p ∈ untracked) /\
  (forall i j x y,
     merged !! i = Some x -> merged !! j = Some y -> (i < j)%nat ->
     seenBefore all x y) /\
  merged = firstSeen all /\
  (forall h repositoryPath config l,
     outcome (collectBody h repositoryPath config) = Ok l ->
     l_stagedFiles l = staged -> l_unstagedFiles l = unstaged ->
     l_untrackedFiles l = untracked ->
     l_allChangedFiles l = merged /\
     totalChangedFiles (l_returned l) = Z.of_nat (length merged)).
Proof.
  intros all merged. subst merged. rewrite uniqueLines_firstSeen.
  split; [apply firstSeen_NoDup|].
  split.
  { intros p. rewrite firstSeen_elem. subst all. rewrite !elem_of_app. tauto. }
  split; [intros i j x y; apply firstSeen_order|].
  split; [reflexivity|].
  intros h repositoryPath config l Hrun Hs Hu Ht.
  apply collectBody_Ok in Hrun
    as (_ & _ & _ & _ & Hall & _ & _ & _ & _ & _ & _ & Htotal & _).
  rewrite Hs, Hu, Ht, uniqueLines_firstSeen in Hall.
  fold all in Hall. rewrite Htotal, Hall. auto.
Qed.

Lemma merged_files_first_seen_witness :
  uniqueLines ([js "b"; js "a"] ++ [js "a"; js "c"; js "b"] ++ [js "d"; js "c"])
  = [js "b"; js "a"; js "c"; js "d"] /\
  NoDup (uniqueLines ([js "b"; js "a"] ++ [js "a"; js "c"; js "b"]
                      ++ [js "d"; js "c"])).
Proof.
  split; [vm_compute; reflexivity|].
  apply (merged_files_first_seen [js "b"; js "a"] [js "a"; js "c"; js "b"]
           [js "d"; js "c"]).
Defined.

(** C4. In every run: [includedChangedFiles] is at most
    [totalChangedFiles]; [wasFileLimited] holds exactly when it is smaller;
    the working set is a prefix of the merged list, the first
    [maxChangedFiles] entries of it for a non-negative [maxChangedFiles];
    and [includedChangedFiles] is the length of the working set, whatever
    the number of blocks rendered. *)
Theorem file_limit_counts (h : Host) (repositoryPath : jsstring)
    (config : ExtensionConfig) (l : Locals) :
  outcome (collectBody h repositoryPath config) = Ok l ->
  let snapshot := l_returned l in
  (includedChangedFiles snapshot <= totalChangedFiles snapshot)%Z /\
  (wasFileLimited snapshot = true <->
   (includedChangedFiles snapshot < totalChangedFiles snapshot)%Z) /\
  l_limitedFiles l `prefix_of` l_allChangedFiles l /\
  ((0 <= maxChangedFiles config)%Z ->
   l_limitedFiles l =
     take (Z.to_nat (maxChangedFiles config)) (l_allChangedFiles l) /\
   (includedChangedFiles snapshot <= maxChangedFiles config)%Z) /\
  totalChangedFiles snapshot = Z.of_nat (length (l_allChangedFiles l)) /\
  includedChangedFiles snapshot = Z.of_nat (length (l_limitedFiles l)) /\
  (length (l_diffParts l) <= length (l_limitedFiles l))%nat.
Proof.
  intros Hrun snapshot. subst snapshot.
  apply collectBody_Ok in Hrun
    as (_ & _ & _ & _ & _ & Hlim & Hparts & _ & _ & _ & Hflag & Htotal & Hincl).
  assert (Hpre : l_limitedFiles l `prefix_of` l_allChangedFiles l)
    by (rewrite Hlim; apply slice0_prefix).
  pose proof (prefix_length _ _ Hpre) as Hlen.
  rewrite Hflag, Htotal, Hincl, Nat.ltb_lt.
  split; [lia|]. split; [lia|]. split; [exact Hpre|].
  split.
  { intros Hmax. rewrite Hlim, slice0_nonneg by exact Hmax.
    split; [reflexivity|]. rewrite length_take. lia. }
  split; [reflexivity|]. split; [reflexivity|].
  apply diffPartsLoop_length in Hparts. simpl in Hparts. exact Hparts.
Qed.

Lemma file_limit_counts_witness :
  exists l,
    outcome (collectBody workingTree repo (settings false 2 100000 true)) = Ok l /\
    l_allChangedFiles l = [js "gone.txt"; js "a.txt"; js "b.bin"] /\
    l_limitedFiles l = [js "gone.txt"; js "a.txt"] /\
    length (l_diffParts l) = 1%nat /\
    includedChangedFiles (l_returned l) = 2%Z /\
    totalChangedFiles (l_returned l) = 3%Z /\
    (wasFileLimited (l_returned l) = true <->
     (includedChangedFiles (l_returned l) < totalChangedFiles (l_returned l))%Z).
Proof.
  eexists. split; [vm_compute; reflexivity|].
  repeat (split; [vm_compute; reflexivity|]).
  apply (file_limit_counts workingTree repo (settings false 2 100000 true)).
  vm_compute. reflexivity.
Defined.

(** C10. Every entry that [parseLines] returns is non-empty and has no
    leading or trailing white space; so, in every run, is every path of
    the staged, unstaged and untracked lists, of the merged list and of the
    working set, and every block of the diff is headed by such a path. *)
Theorem parsed_paths_trimmed :
  (forall value line, line ∈ parseLines value -> line <> [] /\ trimmed line) /\
  (forall h repositoryPath config l,
     outcome (collectBody h repositoryPath config) = Ok l ->
     (forall p,
        p ∈ l_stagedFiles l \/ p ∈ l_unstagedFiles l \/ p ∈ l_untrackedFiles l \/
        p ∈ l_allChangedFiles l \/ p ∈ l_limitedFiles l ->
        p <> [] /\ trimmed p) /\
     (forall part, part ∈ l_diffParts l ->
        exists filePath sections,
          filePath ∈ l_limitedFiles l /\ filePath <> [] /\ trimmed filePath /\
          part = js "## " ++ filePath ++ nl ++ join (nl ++ nl) sections)).
Proof.
  split; [apply parseLines_entry|].
  intros h repositoryPath config l Hrun.
  apply collectBody_Ok in Hrun
    as ((vs & Hs) & (vu & Hu) & (vt & Ht) & _ & Hall & Hlim & Hparts & _).
  assert (Hlists : forall p,
            p ∈ l_stagedFiles l \/ p ∈ l_unstagedFiles l \/ p ∈ l_untrackedFiles l ->
            p <> [] /\ trimmed p).
  { intros p [H|[H|H]]; [rewrite Hs in H | rewrite Hu in H | rewrite Ht in H];
      eapply parseLines_entry, H. }
  assert (Hmerged : forall p, p ∈ l_allChangedFiles l -> p <> [] /\ trimmed p).
  { intros p H. apply Hlists. rewrite Hall, uniqueLines_firstSeen,
      firstSeen_elem, !elem_of_app in H. exact H. }
  assert (Hworking : forall p, p ∈ l_limitedFiles l -> p <> [] /\ trimmed p).
  { intros p H. apply Hmerged. rewrite Hlim in H.
    eapply elem_of_prefix; [exact H | apply slice0_prefix]. }
  split.
  - intros p [H|[H|[H|[H|H]]]]; auto.
  - intros part Hin.
    destruct (diffPartsLoop_blocks _ _ _ _ _ _ _ _ _ Hparts part Hin)
      as [Hnil | (filePath & sections & Hf & Heq)].
    + apply elem_of_nil in Hnil. contradiction.
    + exists filePath, sections. destruct (Hworking _ Hf). auto.
Qed.

Lemma parsed_paths_trimmed_witness :
  parseLines (js "a.txt" ++ [13; 10; 10; 32; 32]%N ++ js "b c.txt" ++ [9; 13; 10]%N)
  = [js "a.txt"; js "b c.txt"] /\
  (js "b c.txt" <> [] /\ trimmed (js "b c.txt")).
Proof.
  split; [vm_compute; reflexivity|].
  apply (proj1 parsed_paths_trimmed
           (js "a.txt" ++ [13; 10; 10; 32; 32]%N ++ js "b c.txt" ++ [9; 13; 10]%N)).
  vm_compute. do 1 constructor. constructor.
Defined.

(* ================================================================== *)
(** ** The classifier, untracked files, failing commands, the prompt *)
(* ================================================================== *)

(** C5. [looksBinary] is a function of the bytes alone: the empty buffer is
    not binary; a buffer with a NUL byte is binary; any other buffer is
    binary exactly when, among its first [min(length, 1024)] bytes, those
    below 32 other than tab, line feed and carriage return are strictly
    more than a tenth; so a buffer of printable ASCII is not binary. *)
Theorem looksBinary_classification :
  looksBinary [] = false /\
  (forall buffer, 0%N ∈ buffer -> looksBinary buffer = true) /\
  (forall buffer, buffer <> [] -> 0%N ∉ buffer ->
     let sample := take (Nat.min (length buffer) 1024) buffer in
     let control :=
       filter (fun b => (b < 32 /\ b <> 9 /\ b <> 10 /\ b <> 13)%N) sample in
     looksBinary buffer = true <->
     (Z.of_nat (length sample) < 10 * Z.of_nat (length control))%Z) /\
  (forall buffer, Forall (fun b => (32 <= b < 127)%N) buffer ->
     looksBinary buffer = false).
Proof.
  assert (Hsample : forall buffer, buffer <> [] -> 0%N ∉ buffer ->
            looksBinary buffer = true <->
            (Z.of_nat (length (take (Nat.min (length buffer) 1024) buffer))
             < 10 * Z.of_nat
                 (length (filter (fun b => (b < 32 /\ b <> 9 /\ b <> 10 /\ b <> 13)%N)
                                 (take (Nat.min (length buffer) 1024) buffer))))%Z).
  { intros buffer Hne Hnul.
    assert (Htake : take (Nat.min (length buffer) 1024) buffer = take 1024 buffer).
    { destruct (Nat.le_ge_cases 1024 (length buffer)).
      - rewrite Nat.min_r by assumption. reflexivity.
      - rewrite Nat.min_l by assumption. rewrite !take_ge by lia. reflexivity. }
    rewrite Htake, looksBinary_sample, Z.ltb_lt by assumption.
    rewrite (list_filter_iff (fun b => isControl b = true)
               (fun b => (b < 32 /\ b <> 9 /\ b <> 10 /\ b <> 13)%N))
      by (intros b; apply isControl_spec).
    reflexivity. }
  split; [reflexivity|].
  split.
  { intros buffer Hin. unfold looksBinary.
    destruct buffer as [|b buffer]; [apply elem_of_nil in Hin; contradiction|].
    change (length (b :: buffer) =? 0)%nat with false. cbv iota.
    apply existsb_zero in Hin. rewrite Hin. reflexivity. }
  split; [exact Hsample|].
  intros buffer Hprint.
  destruct buffer as [|b0 buffer]; [reflexivity|].
  set (buf := b0 :: buffer) in *.
  assert (Hnul : 0%N ∉ buf).
  { intros Hin. rewrite Forall_forall in Hprint.
    specialize (Hprint 0%N Hin). lia. }
  apply not_true_is_false. rewrite Hsample by (subst buf; congruence).
  assert (Hnone : filter (fun b => (b < 32 /\ b <> 9 /\ b <> 10 /\ b <> 13)%N)
                    (take (Nat.min (length buf) 1024) buf) = []).
  { assert (Hs : Forall (fun b => (32 <= b < 127)%N)
                    (take (Nat.min (length buf) 1024) buf))
      by apply Forall_take, Hprint.
    induction Hs as [|b l Hb _ IH]; [reflexivity|].
    rewrite filter_cons_False by lia. exact IH. }
  rewrite Hnone. simpl. lia.
Qed.

Lemma looksBinary_classification_witness :
  looksBinary [0; 0]%N = true /\ looksBinary (js "plain text") = false /\
  looksBinary [1; 65; 65; 65; 65; 65; 65; 65; 65]%N = true.
Proof.
  destruct looksBinary_classification as (_ & Hnul & Hsample & Hprint).
  split; [apply Hnul; constructor|].
  split.
  - apply Hprint. literals. repeat (constructor; [lia|]). constructor.
  - assert (Hne : [1; 65; 65; 65; 65; 65; 65; 65; 65]%N <> []) by discriminate.
    assert (Hnonul : 0%N ∉ [1; 65; 65; 65; 65; 65; 65; 65; 65]%N).
    { rewrite !not_elem_of_cons. repeat (split; [discriminate|]).
      apply not_elem_of_nil. }
    apply (proj2 (Hsample _ Hne Hnonul)). vm_compute. reflexivity.
Defined.

(** C7. A git command issued during collection whose [execFile] reports an
    error ends the collection: [collectRepositoryChanges] rejects with
    the message [git <arguments> failed: <details>], the details being the
    trimmed stderr, or the message of the error when stderr is empty or
    blank; no snapshot is returned.  The status fetch is issued first in
    every run. *)
Theorem failing_command_aborts_collection (h : Host) (repositoryPath : jsstring)
    (config : ExtensionConfig) (args : list jsstring) (message : jsstring) :
  args ∈ issued (collectRepositoryChanges h repositoryPath config) ->
  exec_error (gitOutcome h repositoryPath config args) = Some message ->
  let stderr := exec_stderr (gitOutcome h repositoryPath config args) in
  let run := collectRepositoryChanges h repositoryPath config in
  outcome run =
    Rejected (js "git " ++ join (js " ") args ++ js " failed: "
              ++ orElse (trim stderr) message) /\
  (trim stderr <> [] ->
   outcome run =
     Rejected (js "git " ++ join (js " ") args ++ js " failed: " ++ trim stderr)) /\
  (stderr = [] ->
   outcome run =
     Rejected (js "git " ++ join (js " ") args ++ js " failed: " ++ message)) /\
  (forall snapshot, outcome run <> Ok snapshot) /\
  head (issued run) = Some [js "status"; js "--short"].
Proof.
  intros Hin Herr stderr run.
  pose proof (abortsOnFailure_collect h repositoryPath config args message
                Hin Herr) as Hrej.
  unfold commandError in Hrej. fold stderr run in Hrej.
  split; [exact Hrej|].
  split.
  { intros Hne. rewrite Hrej. unfold orElse.
    apply truthy_true in Hne. rewrite Hne. reflexivity. }
  split.
  { intros Hempty. rewrite Hrej, Hempty. reflexivity. }
  split.
  { intros snapshot. rewrite Hrej. discriminate. }
  apply collect_issues_status.
Qed.

Lemma failing_command_aborts_collection_witness :
  outcome (collectRepositoryChanges brokenIndex repo (settings false 10 4096 true))
  = Rejected (js "git diff --name-only failed: fatal: index file corrupt").
Proof.
  destruct (failing_command_aborts_collection brokenIndex repo
              (settings false 10 4096 true) [js "diff"; js "--name-only"]
              (js "Command failed: git diff --name-only")) as (Hrej & _).
  - vm_compute. do 2 apply list_elem_of_further. apply list_elem_of_here.
  - vm_compute. reflexivity.
  - rewrite Hrej. vm_compute. reflexivity.
Defined.

(** C8. [readUntrackedFileContent] always returns a non-blank text and
    never rejects: a path that is not a regular file gives
    ["[Skipped non-regular file]"]; a file classified binary, such as one
    holding only two NUL bytes, gives ["[Skipped binary file]"]; a file
    that passes the classifier and whose decoded, trimmed text is empty
    gives ["[Empty text file]"]; a failed [stat] or read gives
    ["[Untracked file unavailable: <reason>]"] with the message of the
    error.  A path that is only untracked always gets its section, without
    any command being issued. *)
Theorem untracked_placeholders (h : Host) (filePath : jsstring) :
  let content := readUntrackedFileContent h filePath in
  truthy (trim content) = true /\
  (fs_stat_isFile h filePath = Ok false ->
   content = js "[Skipped non-regular file]") /\
  (forall buffer,
     fs_stat_isFile h filePath = Ok true -> fs_readFile h filePath = Ok buffer ->
     (looksBinary buffer = true -> content = js "[Skipped binary file]") /\
     (looksBinary buffer = false -> trim (toString buffer) = [] ->
      content = js "[Empty text file]") /\
     (looksBinary buffer = false -> trim (toString buffer) <> [] ->
      content = trim (toString buffer))) /\
  looksBinary [0; 0]%N = true /\
  (forall reason,
     fs_stat_isFile h filePath = Rejected reason \/
     (fs_stat_isFile h filePath = Ok true /\
      fs_readFile h filePath = Rejected reason) ->
     content = js "[Untracked file unavailable: " ++ reason ++ js "]") /\
  (forall repositoryPath config (S U T : gset jsstring) path,
     path ∉ S -> path ∉ U -> path ∈ T ->
     fileSections h repositoryPath config S U T path =
       ret [js "# Untracked file content" ++ nl
            ++ readUntrackedFileContent h (path_join h repositoryPath path)]).
Proof.
  intros content. subst content.
  split; [apply readUntrackedFileContent_nonblank|].
  unfold readUntrackedFileContent.
  split; [intros ->; reflexivity|].
  split.
  { intros buffer -> ->. cbn [negb]. cbv zeta.
    split; [intros ->; reflexivity|].
    split; intros ->.
    - intros ->. reflexivity.
    - intros Hne. unfold orElse. apply truthy_true in Hne. rewrite Hne.
      reflexivity. }
  split; [reflexivity|].
  split.
  { intros reason [-> | [-> ->]]; reflexivity. }
  intros repositoryPath config S U T path HS HU HT. unfold fileSections.
  rewrite (bool_decide_eq_false_2 _ HS), (bool_decide_eq_false_2 _ HU),
    (bool_decide_eq_true_2 _ HT).
  rewrite untracked_section. reflexivity.
Qed.

Lemma untracked_placeholders_witness :
  readUntrackedFileContent disk (js "/work/repo/dir")
    = js "[Skipped non-regular file]" /\
  readUntrackedFileContent disk (js "/work/repo/zeros")
    = js "[Skipped binary file]" /\
  readUntrackedFileContent disk (js "/work/repo/empty")
    = js "[Empty text file]" /\
  readUntrackedFileContent disk (js "/work/repo/locked")
    = js "[Untracked file unavailable: EACCES: permission denied]" /\
  readUntrackedFileContent disk (js "/work/repo/missing")
    = js "[Untracked file unavailable: ENOENT: no such file or directory]".
Proof.
  split.
  { apply (untracked_placeholders disk (js "/work/repo/dir")).
    vm_compute. reflexivity. }
  repeat split; vm_compute; reflexivity.
Defined.

(** C9. [buildPrompt] copies [systemPrompt] from the configuration.  Its
    [userPrompt] is the sections joined by blank lines, and as a string it
    is: the task, the rules, the additional rules exactly when they are not
    blank, the language lines, the status section exactly when the status
    is not blank, the diff section (always, with ["(no diff provided)"]
    for an empty diff), the note on limited files with the included and
    the total count exactly when [wasFileLimited] is true, and the note on
    truncation exactly when [wasTruncated] is true, in this order, each
    after a blank line.  When the texts of the caller do not hold the
    phrase that opens a section, the phrase is in the user prompt exactly
    when the section is due. *)
Theorem buildPrompt_sections (snapshot : ChangeSnapshot) (config : ExtensionConfig) :
  let prompt := buildPrompt snapshot config in
  let sections := promptSections snapshot config in
  let userPrompt := payload_userPrompt prompt in
  payload_systemPrompt prompt = systemPrompt config /\
  payload_userPrompt prompt = join (nl ++ nl) sections /\
  (hasSection (js "Git status (short):" ++ nl) sections <->
   trim (status snapshot) <> []) /\
  (trim (status snapshot) <> [] ->
   js "Git status (short):" ++ nl ++ status snapshot ∈ sections) /\
  js "Git diff:" ++ nl ++ orElse (diff snapshot) (js "(no diff provided)")
    ∈ sections /\
  (diff snapshot = [] ->
   js "Git diff:" ++ nl ++ js "(no diff provided)" ∈ sections) /\
  (hasSection (js "Additional rules:" ++ nl) sections <->
   trim (additionalRules config) <> []) /\
  (trim (additionalRules config) <> [] ->
   js "Additional rules:" ++ nl ++ trim (additionalRules config) ∈ sections) /\
  (hasSection (js "Note: Changed files were limited to ") sections <->
   wasFileLimited snapshot = true) /\
  (wasFileLimited snapshot = true ->
   js "Note: Changed files were limited to "
   ++ numberToString (includedChangedFiles snapshot) ++ js "/"
   ++ numberToString (totalChangedFiles snapshot) ++ js " by maxChangedFiles."
     ∈ sections) /\
  (js "Note: Diff content was truncated for performance limits." ∈ sections <->
   wasTruncated snapshot = true) /\
  (exists additionalPart statusPart limitPart truncationPart,
     userPrompt =
       js "Task: Create one detailed git commit message based on the repository changes."
       ++ nl ++ nl ++ js "Rules:" ++ nl ++ ruleTemplate config
       ++ additionalPart
       ++ nl ++ nl
       ++ (match language config with
           | zh => js "语言要求：输出必须为简体中文。" ++ nl ++ nl ++ zhConstraints
           | en => js "Language requirement: Output must be in English."
                   ++ nl ++ nl ++ enConstraints
           end)
       ++ statusPart
       ++ nl ++ nl ++ js "Git diff:" ++ nl
       ++ orElse (diff snapshot) (js "(no diff provided)")
       ++ limitPart ++ truncationPart /\
     sectionWhen (trim (additionalRules config) <> [])
       (js "Additional rules:" ++ nl ++ trim (additionalRules config))
       additionalPart /\
     sectionWhen (trim (status snapshot) <> [])
       (js "Git status (short):" ++ nl ++ status snapshot) statusPart /\
     sectionWhen (wasFileLimited snapshot = true)
       (js "Note: Changed files were limited to "
        ++ numberToString (includedChangedFiles snapshot) ++ js "/"
        ++ numberToString (totalChangedFiles snapshot)
        ++ js " by maxChangedFiles.") limitPart /\
     sectionWhen (wasTruncated snapshot = true)
       (js "Note: Diff content was truncated for performance limits.")
       truncationPart) /\
  includes userPrompt
    (nl ++ nl ++ js "Git diff:" ++ nl
     ++ orElse (diff snapshot) (js "(no diff provided)")) = true /\
  (quotes snapshot config (js "Git status (short):") = false ->
   (includes userPrompt (js "Git status (short):") = true <->
    trim (status snapshot) <> [])) /\
  (quotes snapshot config (js "Additional rules:") = false ->
   (includes userPrompt (js "Additional rules:") = true <->
    trim (additionalRules config) <> [])) /\
  (quotes snapshot config (js "Note: Changed files were limited to ") = false ->
   (includes userPrompt (js "Note: Changed files were limited to ") = true <->
    wasFileLimited snapshot = true)) /\
  (quotes snapshot config
     (js "Note: Diff content was truncated for performance limits.") = false ->
   (includes userPrompt
      (js "Note: Diff content was truncated for performance limits.") = true <->
    wasTruncated snapshot = true)).
Proof.
  intros prompt sections userPrompt. subst prompt sections userPrompt.
  split; [reflexivity|]. split; [reflexivity|].
  split; [rewrite status_section; apply truthy_true|].
  split.
  { intros Hne. apply truthy_true in Hne. unfold promptSections. rewrite Hne.
    rewrite !elem_of_app. do 4 right. left. left. }
  split; [apply diff_section|].
  split.
  { intros Hempty. pose proof (diff_section snapshot config) as H.
    rewrite Hempty in H. exact H. }
  split; [rewrite additionalRules_section; apply truthy_true|].
  split.
  { intros Hne. apply truthy_true in Hne. unfold promptSections. rewrite Hne.
    rewrite !elem_of_app. do 2 right. left. left. }
  split; [apply fileLimit_section|].
  split.
  { intros Hlim. unfold promptSections. rewrite Hlim.
    rewrite !elem_of_app. do 6 right. left. left. }
  split; [apply truncation_section|].
  split.
  { exists (if truthy (trim (additionalRules config))
            then nl ++ nl ++ js "Additional rules:" ++ nl
                 ++ trim (additionalRules config)
            else []),
           (if truthy (trim (status snapshot))
            then nl ++ nl ++ js "Git status (short):" ++ nl ++ status snapshot
            else []),
           (if wasFileLimited snapshot
            then nl ++ nl
                 ++ (js "Note: Changed files were limited to "
                     ++ numberToString (includedChangedFiles snapshot) ++ js "/"
                     ++ numberToString (totalChangedFiles snapshot)
                     ++ js " by maxChangedFiles.")
            else []),
           (if wasTruncated snapshot
            then nl ++ nl
                 ++ js "Note: Diff content was truncated for performance limits."
            else []).
    split; [exact (userPrompt_layout snapshot config)|].
    split; [apply sectionWhen_truthy|]. split; [apply sectionWhen_truthy|].
    split; apply sectionWhen_flag. }
  split; [exact (diff_phrase snapshot config)|].
  split.
  { intros Hq. rewrite status_phrase by exact Hq. apply truthy_true. }
  split.
  { intros Hq. rewrite additionalRules_phrase by exact Hq. apply truthy_true. }
  split.
  { intros Hq. rewrite fileLimit_phrase by exact Hq. reflexivity. }
  intros Hq. rewrite truncation_phrase by exact Hq. reflexivity.
Qed.

Lemma buildPrompt_sections_witness :
  includes (payload_userPrompt (buildPrompt limitedTree (settings false 10 4096 true)))
    (js "Git status (short):") = true /\
  includes (payload_userPrompt (buildPrompt limitedTree (settings false 10 4096 true)))
    (js "Note: Diff content was truncated for performance limits.") = false.
Proof.
  pose proof (buildPrompt_sections limitedTree (settings false 10 4096 true)) as H.
  cbv zeta in H.
  destruct H as (_ & _ & _ & _ & _ & _ & _ & _ & _ & _ & _ & _ & _
                 & Hstatus & _ & _ & Htruncation).
  split.
  - apply Hstatus; [vm_compute; reflexivity | vm_compute; discriminate].
  - apply not_true_is_false. intros Hin.
    apply Htruncation in Hin; [discriminate Hin | vm_compute; reflexivity].
Defined.

(* ================================================================== *)
(** ** Further properties: lines and merging *)
(* ================================================================== *)

Section MoreLines.

Lemma splitLinesFrom_end (l cur : jsstring) :
  10%N ∉ l -> splitLinesFrom cur l = [rev cur ++ l].
Proof.
  revert cur. induction l as [|u l IH]; intros cur Hlf.
  - simpl. rewrite app_nil_r. reflexivity.
  - apply not_elem_of_cons in Hlf as [Hu Hl].
    assert (Hstep : splitLinesFrom cur (u :: l) = splitLinesFrom (u :: cur) l).
    { cbn [splitLinesFrom].
      destruct (N.eqb_spec u 10); [congruence|].
      destruct (N.eqb_spec u 13); [|reflexivity].
      destruct l as [|v l]; [reflexivity|].
      apply not_elem_of_cons in Hl as [Hv _].
      destruct (N.eqb_spec v 10); [congruence | reflexivity]. }
    rewrite Hstep, IH by exact Hl. simpl. rewrite <- app_assoc. reflexivity.
Qed.

Lemma splitLinesFrom_lf (l cur rest : jsstring) :
  10%N ∉ l -> last (rev cur ++ l) <> Some 13%N ->
  splitLinesFrom cur (l ++ 10%N :: rest) = (rev cur ++ l) :: splitLinesFrom [] rest.
Proof.
  revert cur. induction l as [|u l IH]; intros cur Hlf Hlast.
  - simpl. rewrite app_nil_r. reflexivity.
  - apply not_elem_of_cons in Hlf as [Hu Hl].
    assert (Hstep : splitLinesFrom cur ((u :: l) ++ 10%N :: rest) =
                    splitLinesFrom (u :: cur) (l ++ 10%N :: rest)).
    { cbn [splitLinesFrom app].
      destruct (N.eqb_spec u 10); [congruence|].
      destruct (N.eqb_spec u 13) as [->|]; [|reflexivity].
      destruct l as [|v l].
      - exfalso. apply Hlast. rewrite last_snoc. reflexivity.
      - cbn [app]. apply not_elem_of_cons in Hl as [Hv _].
        destruct (N.eqb_spec v 10); [congruence | reflexivity]. }
    rewrite Hstep, IH.
    + simpl. rewrite <- app_assoc. reflexivity.
    + exact Hl.
    + simpl. rewrite <- app_assoc. exact Hlast.
Qed.

Lemma splitLinesFrom_crlf (l cur rest : jsstring) :
  10%N ∉ l ->
  splitLinesFrom cur (l ++ 13%N :: 10%N :: rest)
  = (rev cur ++ l) :: splitLinesFrom [] rest.
Proof.
  revert cur. induction l as [|u l IH]; intros cur Hlf.
  - simpl. rewrite app_nil_r. reflexivity.
  - apply not_elem_of_cons in Hlf as [Hu Hl].
    assert (Hstep : splitLinesFrom cur ((u :: l) ++ 13%N :: 10%N :: rest) =
                    splitLinesFrom (u :: cur) (l ++ 13%N :: 10%N :: rest)).
    { cbn [splitLinesFrom app].
      destruct (N.eqb_spec u 10); [congruence|].
      destruct (N.eqb_spec u 13) as [->|]; [|reflexivity].
      destruct l as [|v l]; [reflexivity|].
      cbn [app]. apply not_elem_of_cons in Hl as [Hv _].
      destruct (N.eqb_spec v 10); [congruence | reflexivity]. }
    rewrite Hstep, IH by exact Hl. simpl. rewrite <- app_assoc. reflexivity.
Qed.

Lemma pathLine_last (line : jsstring) :
  pathLine line -> last line <> Some 13%N.
Proof.
  intros (_ & [_ Hl] & _) H. apply Hl in H. discriminate.
Qed.

Lemma splitLines_join (sep : jsstring) (lines : list jsstring) :
  sep = [10%N] \/ sep = [13%N; 10%N] ->
  Forall pathLine lines -> lines <> [] ->
  splitLines (join sep lines) = lines.
Proof.
  intros Hsep Hall. unfold splitLines.
  induction Hall as [|line lines Hline Hall IH]; [congruence|]. intros _.
  destruct lines as [|next lines].
  - simpl. rewrite splitLinesFrom_end by apply Hline. reflexivity.
  - change (join sep (line :: next :: lines))
      with (line ++ sep ++ join sep (next :: lines)).
    destruct Hsep as [-> | ->]; cbn [app].
    + rewrite splitLinesFrom_lf; [|apply Hline|apply pathLine_last, Hline].
      rewrite IH by discriminate. reflexivity.
    + rewrite splitLinesFrom_crlf by apply Hline.
      rewrite IH by discriminate. reflexivity.
Qed.

Lemma parseLines_of_lines (lines : list jsstring) :
  Forall pathLine lines ->
  filter (fun line => (0 < length line)%nat) (map trim lines) = lines.
Proof.
  induction 1 as [|line lines (Hne & Htrim & _) _ IH]; [reflexivity|].
  cbn [map]. rewrite (trimmed_trim _ Htrim).
  rewrite filter_cons_True by (destruct line; [congruence | simpl; lia]).
  f_equal. exact IH.
Qed.

Lemma filter_other_id (x : jsstring) (l : list jsstring) :
  x ∉ l -> filter (fun q => q <> x) l = l.
Proof.
  induction l as [|y l IH]; [reflexivity|]. intros Hx.
  apply not_elem_of_cons in Hx as [Hne Hx].
  rewrite filter_cons_True by congruence. f_equal. apply IH, Hx.
Qed.

Lemma firstSeen_NoDup_id (l : list jsstring) : NoDup l -> firstSeen l = l.
Proof.
  induction 1 as [|x l Hx _ IH]; [reflexivity|].
  simpl. rewrite IH. f_equal. apply filter_other_id, Hx.
Qed.

Lemma firstSeen_app (l1 l2 : list jsstring) :
  firstSeen (l1 ++ l2) =
    firstSeen l1 ++ filter (fun q => q ∉ l1) (firstSeen l2).
Proof.
  induction l1 as [|x l1 IH].
  - simpl. induction (firstSeen l2) as [|q l IHl]; [reflexivity|].
    rewrite filter_cons_True by apply not_elem_of_nil. f_equal. exact IHl.
  - cbn [app firstSeen]. rewrite IH, filter_app. f_equal. f_equal.
    rewrite list_filter_filter. apply list_filter_iff.
    intros q. rewrite not_elem_of_cons. tauto.
Qed.

(** X1. Reading back a list of paths printed one per line, with line feeds
    or with carriage return and line feed between them, gives the list. *)
Theorem parseLines_join (lines : list jsstring) :
  Forall pathLine lines ->
  parseLines (join nl lines) = lines /\
  parseLines (join [13; 10]%N lines) = lines.
Proof.
  intros Hall. destruct lines as [|line lines]; [split; reflexivity|].
  unfold parseLines.
  rewrite !splitLines_join by (auto || discriminate).
  split; apply parseLines_of_lines, Hall.
Qed.

Lemma parseLines_join_witness :
  parseLines (join nl [js "a.txt"; js "src/b c.txt"])
  = [js "a.txt"; js "src/b c.txt"].
Proof.
  assert (Hlines : Forall pathLine [js "a.txt"; js "src/b c.txt"]).
  { literals. repeat constructor; try discriminate;
      try (intros u Hu; injection Hu as <-; reflexivity);
      rewrite !not_elem_of_cons; repeat (split; [discriminate|]);
      apply not_elem_of_nil. }
  exact (proj1 (parseLines_join _ Hlines)).
Defined.

(** X2. Merging is idempotent, leaves a list without repetition as it is,
    and keeps the merged staged files at the head of the merged list. *)
Theorem uniqueLines_idempotent (l1 l2 : list jsstring) :
  uniqueLines (uniqueLines l1) = uniqueLines l1 /\
  (NoDup l1 -> uniqueLines l1 = l1) /\
  uniqueLines l1 `prefix_of` uniqueLines (l1 ++ l2).
Proof.
  rewrite !uniqueLines_firstSeen.
  split; [apply firstSeen_NoDup_id, firstSeen_NoDup|].
  split; [apply firstSeen_NoDup_id|].
  rewrite firstSeen_app. apply prefix_app_r. reflexivity.
Qed.

End MoreLines.

Section MoreClassifier.

(** X3. Without a NUL byte, only the first 1024 bytes of a buffer count. *)
Theorem looksBinary_sample_only (buffer : list N) :
  0%N ∉ buffer -> looksBinary buffer = looksBinary (take 1024 buffer).
Proof.
  intros Hnul. destruct buffer as [|b buffer]; [reflexivity|].
  assert (Hnul' : 0%N ∉ take 1024 (b :: buffer)).
  { intros Hin. apply Hnul. eapply elem_of_prefix; [exact Hin | apply prefix_take]. }
  rewrite (looksBinary_sample (b :: buffer)) by (congruence || exact Hnul).
  rewrite (looksBinary_sample (take 1024 (b :: buffer)))
    by (simpl; congruence || exact Hnul').
  rewrite take_take, Nat.min_id. reflexivity.
Qed.

Lemma looksBinary_sample_only_witness :
  looksBinary [1; 65; 66; 67]%N = looksBinary (take 1024 [1; 65; 66; 67]%N).
Proof.
  apply looksBinary_sample_only.
  rewrite !not_elem_of_cons. repeat (split; [discriminate|]).
  apply not_elem_of_nil.
Defined.

End MoreClassifier.

Section MoreUtf8.

Local Ltac Zify.zify_post_hook ::= Z.to_euclidean_division_equations.

Lemma codePoints_pair (u v : N) (text : jsstring) :
  codePoints (u :: v :: text) =
    if isHighSurrogate u && isLowSurrogate v
    then (0x10000 + (u - 0xD800) * 0x400 + (v - 0xDC00))%N :: codePoints text
    else u :: codePoints (v :: text).
Proof. reflexivity. Qed.

Lemma fromCodePoints_cons (c : N) (cps : list N) :
  fromCodePoints (c :: cps) = codeUnits c ++ fromCodePoints cps.
Proof. reflexivity. Qed.

Lemma fromCodePoints_codePoints_bounded (n : nat) (text : jsstring) :
  (length text <= n)%nat ->
  Forall (fun u => (u < 0x10000)%N) text ->
  fromCodePoints (codePoints text) = text.
Proof.
  revert text. induction n as [|n IH]; intros text Hlen Hunits.
  - destruct text; [reflexivity | simpl in Hlen; lia].
  - destruct text as [|u [|v text]]; [reflexivity | |].
    + apply Forall_cons in Hunits as [Hu _].
      cbn [codePoints fromCodePoints flat_map]. unfold codeUnits.
      apply N.ltb_lt in Hu. rewrite Hu. reflexivity.
    + apply Forall_cons in Hunits as [Hu Hrest].
      pose proof Hrest as Hrest'.
      apply Forall_cons in Hrest' as [Hv Htext].
      rewrite codePoints_pair.
      destruct (isHighSurrogate u && isLowSurrogate v) eqn:Hpair.
      * apply andb_true_iff in Hpair as [Hhi Hlo].
        unfold isHighSurrogate in Hhi. unfold isLowSurrogate in Hlo.
        apply andb_true_iff in Hhi as [Hu1 Hu2].
        apply andb_true_iff in Hlo as [Hv1 Hv2].
        apply N.leb_le in Hu1, Hu2, Hv1, Hv2.
        rewrite fromCodePoints_cons, IH by (simpl in Hlen; lia || exact Htext).
        unfold codeUnits.
        destruct (N.ltb_spec (0x10000 + (u - 0xD800) * 0x400 + (v - 0xDC00))
                    0x10000)%N; [lia|].
        cbn [app]. f_equal; [lia|]. f_equal. lia.
      * rewrite fromCodePoints_cons, IH
          by (simpl in Hlen |- *; lia || exact Hrest).
        unfold codeUnits. apply N.ltb_lt in Hu. rewrite Hu. reflexivity.
Qed.

Lemma wellFormedText_decodesCleanly (text : jsstring) :
  wellFormedText text -> decodesCleanly text.
Proof.
  intros [Hunits Hscalar]. unfold decodesCleanly, toString, bufferFrom.
  rewrite decode_encodeCodePoints, map_scalarValue_id by exact Hscalar.
  apply (fromCodePoints_codePoints_bounded (length text)); [lia | exact Hunits].
Qed.

(** X4. A regular file that holds the UTF-8 bytes of a well-formed text,
    and that the classifier takes for text, is returned as that text,
    trimmed; as ["[Empty text file]"] when the text is blank. *)
Theorem untracked_text_verbatim (h : Host) (filePath text : jsstring) :
  wellFormedText text ->
  fs_stat_isFile h filePath = Ok true ->
  fs_readFile h filePath = Ok (bufferFrom text) ->
  looksBinary (bufferFrom text) = false ->
  readUntrackedFileContent h filePath =
    if truthy (trim text) then trim text else js "[Empty text file]".
Proof.
  intros Hwf Hstat Hread Htext. unfold readUntrackedFileContent.
  rewrite Hstat, Hread, Htext. cbn [negb]. cbv zeta.
  rewrite (wellFormedText_decodesCleanly _ Hwf). reflexivity.
Qed.

Lemma untracked_text_verbatim_witness :
  readUntrackedFileContent textDisk (js "/work/repo/notes.txt") = js "héllo 😀".
Proof.
  rewrite (untracked_text_verbatim textDisk (js "/work/repo/notes.txt") notes);
    try (vm_compute; reflexivity).
  split.
  - apply Forall_forall. intros u Hu. apply list_elem_of_In in Hu.
    assert (Hall : forallb (fun u => N.ltb u 0x10000) notes = true)
      by (vm_compute; reflexivity).
    rewrite forallb_forall in Hall. apply N.ltb_lt, Hall, Hu.
  - apply Forall_forall. intros c Hc. apply list_elem_of_In in Hc.
    assert (Hall : forallb (fun c => N.eqb (scalarValue c) c) (codePoints notes)
                   = true) by (vm_compute; reflexivity).
    rewrite forallb_forall in Hall. apply N.eqb_eq, Hall, Hc.
Defined.

End MoreUtf8.

(* ================================================================== *)
(** ** Further properties: the collector *)
(* ================================================================== *)

Section MoreRuns.

Context {A B : Type}.

Lemma issued_bind_elem (m : GitM A) (f : A -> GitM B) (args : list jsstring) :
  args ∈ issued (bind m f) ->
  args ∈ issued m \/ exists a, outcome m = Ok a /\ args ∈ issued (f a).
Proof.
  unfold issued, outcome, bind. destruct m as [log [a|e]]; cbn [fst snd].
  - destruct (f a) as [log' r] eqn:Hf. cbn [fst]. rewrite elem_of_app.
    intros [H|H]; [auto|]. right. exists a. rewrite Hf. auto.
  - auto.
Qed.

Lemma length_issued_bind (m : GitM A) (f : A -> GitM B) (k : nat) :
  (forall a, outcome m = Ok a -> length (issued (f a)) <= k)%nat ->
  (length (issued (bind m f)) <= length (issued m) + k)%nat.
Proof.
  unfold issued, outcome, bind. destruct m as [log [a|e]]; cbn [fst snd].
  - intros H. specialize (H a eq_refl). destruct (f a) as [log' r].
    cbn [fst] in *. rewrite length_app. lia.
  - intros _. lia.
Qed.

Lemma length_issued_bind_le (m : GitM A) (f : A -> GitM B) (n k : nat) :
  (length (issued m) <= n)%nat ->
  (forall a, length (issued (f a)) <= k)%nat ->
  (length (issued (bind m f)) <= n + k)%nat.
Proof.
  intros Hm Hf.
  pose proof (length_issued_bind m f k (fun a _ => Hf a)). lia.
Qed.

Lemma bind_ext (m : GitM A) (f g : A -> GitM B) :
  (forall a, outcome m = Ok a -> f a = g a) -> bind m f = bind m g.
Proof.
  unfold outcome, bind. destruct m as [log [a|e]]; cbn [snd]; [|reflexivity].
  intros H. rewrite (H a eq_refl). reflexivity.
Qed.

End MoreRuns.

Section MoreCollector.

Variable h : Host.
Variable repositoryPath : jsstring.
Variable config : ExtensionConfig.

Lemma issued_runGit (args : list jsstring) :
  issued (runGit h args repositoryPath (commandTimeoutMs config)) = [args].
Proof. reflexivity. Qed.

Lemma issued_fileSections_staged (S : gset jsstring) (filePath : jsstring)
    (args : list jsstring) :
  args ∈ issued (fileSections h repositoryPath config S ∅ ∅ filePath) ->
  stagedQuery args.
Proof.
  unfold fileSections.
  rewrite !(bool_decide_eq_false_2 (filePath ∈ (∅ : gset jsstring)))
    by apply not_elem_of_empty.
  intros Hin. apply issued_bind_elem in Hin as [Hin | (a & _ & Hin)].
  - destruct (bool_decide (filePath ∈ S)); [|apply elem_of_nil in Hin; contradiction].
    apply issued_bind_elem in Hin as [Hin | (a & _ & Hin)].
    + apply list_elem_of_singleton in Hin. subst args.
      right. right. eauto.
    + apply elem_of_nil in Hin. contradiction.
  - vm_compute in Hin. inversion Hin.
Qed.

Lemma issued_diffPartsLoop_staged (S : gset jsstring)
    (files diffParts : list jsstring) (args : list jsstring) :
  args ∈ issued (diffPartsLoop h repositoryPath config S ∅ ∅ files diffParts) ->
  stagedQuery args.
Proof.
  revert diffParts. induction files as [|filePath rest IH]; intros diffParts.
  - intros Hin. apply elem_of_nil in Hin. contradiction.
  - cbn [diffPartsLoop]. intros Hin.
    apply issued_bind_elem in Hin as [Hin | (a & _ & Hin)].
    + eapply issued_fileSections_staged, Hin.
    + eapply IH, Hin.
Qed.

Lemma runGit_same_runner (h' : Host) (args : list jsstring) :
  execFile h = execFile h' ->
  runGit h args repositoryPath (commandTimeoutMs config)
  = runGit h' args repositoryPath (commandTimeoutMs config).
Proof. intros Heq. unfold runGit. rewrite Heq. reflexivity. Qed.

Lemma fileSections_same_runner (h' : Host) (S : gset jsstring)
    (filePath : jsstring) :
  execFile h = execFile h' ->
  fileSections h repositoryPath config S ∅ ∅ filePath
  = fileSections h' repositoryPath config S ∅ ∅ filePath.
Proof.
  intros Heq. unfold fileSections.
  rewrite !(bool_decide_eq_false_2 (filePath ∈ (∅ : gset jsstring)))
    by apply not_elem_of_empty.
  rewrite (runGit_same_runner h' _ Heq). reflexivity.
Qed.

Lemma diffPartsLoop_same_runner (h' : Host) (S : gset jsstring)
    (files diffParts : list jsstring) :
  execFile h = execFile h' ->
  diffPartsLoop h repositoryPath config S ∅ ∅ files diffParts
  = diffPartsLoop h' repositoryPath config S ∅ ∅ files diffParts.
Proof.
  intros Heq. revert diffParts.
  induction files as [|filePath rest IH]; intros diffParts; [reflexivity|].
  cbn [diffPartsLoop]. rewrite (fileSections_same_runner h' _ _ Heq).
  apply bind_ext. intros sections _. apply IH.
Qed.

Lemma length_issued_fileSections (S U T : gset jsstring) (filePath : jsstring) :
  (length (issued (fileSections h repositoryPath config S U T filePath)) <= 2)%nat.
Proof.
  unfold fileSections.
  destruct (bool_decide (filePath ∈ S)), (bool_decide (filePath ∈ U)),
    (bool_decide (filePath ∈ T));
    unfold issued, bind, runGit, ret; cbn [fst snd];
    repeat match goal with
           | |- context [match exec_error ?r with _ => _ end] =>
               destruct (exec_error r)
           end; simpl; lia.
Qed.

Lemma length_issued_diffPartsLoop (S U T : gset jsstring)
    (files diffParts : list jsstring) :
  (length (issued (diffPartsLoop h repositoryPath config S U T files diffParts))
   <= 2 * length files)%nat.
Proof.
  revert diffParts. induction files as [|filePath rest IH]; intros diffParts.
  - simpl. lia.
  - cbn [diffPartsLoop].
    pose proof (length_issued_fileSections S U T filePath) as Hfile.
    etransitivity.
    + apply (length_issued_bind _ _ (2 * length rest)). intros a _. apply IH.
    + simpl. lia.
Qed.

Lemma fileSections_labelled (S U T : gset jsstring) (filePath : jsstring)
    (sections : list jsstring) :
  outcome (fileSections h repositoryPath config S U T filePath) = Ok sections ->
  Forall labelledSection sections.
Proof.
  unfold fileSections. intros H.
  bind_inv H. bind_inv H. bind_inv H. rewrite outcome_ret in H.
  injection H as <-.
  assert (Hone : forall label text,
            label = js "# Staged diff" \/ label = js "# Unstaged diff" \/
            label = js "# Untracked file content" ->
            Forall labelledSection
              (if truthy (trim text) then [label ++ nl ++ text] else [])).
  { intros label text Hlabel. destruct (truthy (trim text)) eqn:Htext;
      [|constructor].
    constructor; [|constructor]. exists label, text.
    apply truthy_true in Htext. auto. }
  rewrite !Forall_app. repeat split.
  - destruct (bool_decide (filePath ∈ S)).
    + bind_inv Hm. rewrite outcome_ret in Hm. injection Hm as <-.
      match goal with
      | |- Forall _ (if truthy (trim ?t) then _ else _) =>
          apply (Hone (js "# Staged diff") t)
      end. auto.
    + rewrite outcome_ret in Hm. injection Hm as <-. constructor.
  - destruct (bool_decide (filePath ∈ U)).
    + bind_inv Hm0. rewrite outcome_ret in Hm0. injection Hm0 as <-.
      match goal with
      | |- Forall _ (if truthy (trim ?t) then _ else _) =>
          apply (Hone (js "# Unstaged diff") t)
      end. auto.
    + rewrite outcome_ret in Hm0. injection Hm0 as <-. constructor.
  - destruct (bool_decide (filePath ∈ T)).
    + rewrite outcome_ret in Hm1. injection Hm1 as <-.
      match goal with
      | |- Forall _ (if truthy (trim ?t) then _ else _) =>
          apply (Hone (js "# Untracked file content") t)
      end. auto.
    + rewrite outcome_ret in Hm1. injection Hm1 as <-. constructor.
Qed.

Lemma diffPartsLoop_order (S U T : gset jsstring)
    (files diffParts parts : list jsstring) :
  outcome (diffPartsLoop h repositoryPath config S U T files diffParts)
    = Ok parts ->
  exists shown blocks,
    parts = diffParts ++ blocks /\ shown `sublist_of` files /\
    Forall2 blockOf blocks shown.
Proof.
  revert diffParts. induction files as [|filePath rest IH]; intros diffParts.
  - cbn [diffPartsLoop]. rewrite outcome_ret. intros [= <-].
    exists [], []. rewrite app_nil_r. repeat split; constructor.
  - cbn [diffPartsLoop]. intros H. bind_inv H.
    apply fileSections_labelled in Hm as Hlab.
    destruct (IH _ H) as (shown & blocks & Heq & Hsub & Hblocks).
    destruct v as [|section sections].
    + exists shown, blocks.
      split; [exact Heq|]. split; [apply sublist_cons, Hsub | exact Hblocks].
    + change (0 <? length (section :: sections))%nat with true in Heq.
      cbv iota in Heq. rewrite <- app_assoc in Heq.
      exists (filePath :: shown),
        ((js "## " ++ filePath ++ nl ++ join (nl ++ nl) (section :: sections))
           :: blocks).
      split; [exact Heq|]. split; [apply sublist_skip, Hsub|].
      constructor; [|exact Hblocks].
      exists (section :: sections). repeat split; [discriminate | exact Hlab].
Qed.

End MoreCollector.

(** X5. With [includeOnlyStaged] set, every command of a run is the
    status fetch, the list of staged names or the staged diff of one file:
    the unstaged and the untracked files are never asked for. *)
Theorem only_staged_queries (h : Host) (repositoryPath : jsstring)
    (config : ExtensionConfig) (args : list jsstring) :
  includeOnlyStaged config = true ->
  args ∈ issued (collectRepositoryChanges h repositoryPath config) ->
  stagedQuery args.
Proof.
  intros Honly Hin. unfold collectRepositoryChanges in Hin.
  apply issued_bind_elem in Hin as [Hin | (l & _ & Hin)];
    [|apply elem_of_nil in Hin; contradiction].
  unfold collectBody in Hin. rewrite Honly in Hin.
  apply issued_bind_elem in Hin as [Hin | (status & _ & Hin)].
  { apply list_elem_of_singleton in Hin. left. exact Hin. }
  apply issued_bind_elem in Hin as [Hin | (stagedFiles & _ & Hin)].
  { apply issued_bind_elem in Hin as [Hin | (out & _ & Hin)].
    - apply list_elem_of_singleton in Hin. right. left. exact Hin.
    - apply elem_of_nil in Hin. contradiction. }
  apply issued_bind_elem in Hin as [Hin | (unstagedFiles & Hu & Hin)];
    [apply elem_of_nil in Hin; contradiction|].
  apply issued_bind_elem in Hin as [Hin | (untrackedFiles & Ht & Hin)];
    [apply elem_of_nil in Hin; contradiction|].
  rewrite outcome_ret in Hu, Ht. injection Hu as <-. injection Ht as <-.
  apply issued_bind_elem in Hin as [Hin | (diffParts & _ & Hin)];
    [|apply elem_of_nil in Hin; contradiction].
  eapply issued_diffPartsLoop_staged, Hin.
Qed.

Lemma only_staged_queries_witness :
  stagedQuery [js "diff"; js "--staged"; js "--no-color"; js "--no-ext-diff";
               js "--"; js "f"].
Proof.
  apply (only_staged_queries (stagedOnly (js "+x")) repo
           (settings true 10 4096 true)); [reflexivity|].
  vm_compute. do 2 apply list_elem_of_further. apply list_elem_of_here.
Defined.

(** X6. With [includeOnlyStaged] set, the run depends on the host through
    the process runner only: the file system is not read. *)
Theorem only_staged_ignores_disk (h h' : Host) (repositoryPath : jsstring)
    (config : ExtensionConfig) :
  includeOnlyStaged config = true ->
  execFile h = execFile h' ->
  collectRepositoryChanges h repositoryPath config
  = collectRepositoryChanges h' repositoryPath config.
Proof.
  intros Honly Heq. unfold collectRepositoryChanges. f_equal.
  unfold collectBody. rewrite Honly.
  rewrite !(runGit_same_runner h repositoryPath config h' _ Heq).
  apply bind_ext. intros status _.
  apply bind_ext. intros stagedFiles _.
  apply bind_ext. intros unstagedFiles Hu.
  apply bind_ext. intros untrackedFiles Ht.
  rewrite outcome_ret in Hu, Ht. injection Hu as <-. injection Ht as <-.
  rewrite (diffPartsLoop_same_runner h repositoryPath config h' _ _ _ Heq).
  reflexivity.
Qed.

Lemma only_staged_ignores_disk_witness :
  collectRepositoryChanges (stagedOnly (js "+x")) repo (settings true 10 4096 true)
  = collectRepositoryChanges
      (scripted
         [([js "status"; js "--short"], succeeded (js "M  f"));
          ([js "diff"; js "--name-only"; js "--staged"], succeeded (js "f"));
          (stagedDiffOf (js "f"), succeeded (js "+x"))]
         [(js "/work/repo/f", Directory)])
      repo (settings true 10 4096 true).
Proof.
  apply only_staged_ignores_disk; reflexivity.
Defined.

(** X7. For a non-negative [maxChangedFiles], a run issues at most four
    commands and two more for each file of the working set. *)
Theorem git_invocations_bounded (h : Host) (repositoryPath : jsstring)
    (config : ExtensionConfig) :
  (0 <= maxChangedFiles config)%Z ->
  (1 <= length (issued (collectRepositoryChanges h repositoryPath config))
     <= 4 + 2 * Z.to_nat (maxChangedFiles config))%nat.
Proof.
  intros Hmax. split.
  { pose proof (collect_issues_status h repositoryPath config) as Hhead.
    destruct (issued (collectRepositoryChanges h repositoryPath config));
      [discriminate | simpl; lia]. }
  set (k := Z.to_nat (maxChangedFiles config)).
  assert (Hlist : forall (b : bool) args,
            (length (issued
               (if b then ret []
                else await! out := runGit h args repositoryPath
                                     (commandTimeoutMs config) in
                     ret (parseLines out))) <= 1)%nat).
  { intros [] args; [simpl; lia|].
    apply (Nat.le_trans _ (1 + 0));
      [apply length_issued_bind; intros; simpl; lia | lia]. }
  unfold collectRepositoryChanges.
  apply (Nat.le_trans _ ((4 + 2 * k) + 0)); [|lia].
  apply length_issued_bind_le; [|intros; simpl; lia].
  unfold collectBody.
  apply (Nat.le_trans _ (1 + (3 + 2 * k))); [|lia].
  apply length_issued_bind_le; [simpl; lia|]. intros status.
  apply (Nat.le_trans _ (1 + (2 + 2 * k))); [|lia].
  apply length_issued_bind_le; [apply (Hlist false)|]. intros stagedFiles.
  apply (Nat.le_trans _ (1 + (1 + 2 * k))); [|lia].
  apply length_issued_bind_le; [apply Hlist|]. intros unstagedFiles.
  apply (Nat.le_trans _ (1 + 2 * k)); [|lia].
  apply length_issued_bind_le; [apply Hlist|]. intros untrackedFiles.
  cbv zeta.
  apply (Nat.le_trans _ (2 * k + 0)); [|lia].
  apply length_issued_bind_le; [|intros; simpl; lia].
  etransitivity; [apply length_issued_diffPartsLoop|].
  rewrite slice0_nonneg by exact Hmax. rewrite length_take. lia.
Qed.

Lemma git_invocations_bounded_witness :
  (1 <= length (issued (collectRepositoryChanges workingTree repo
                          (settings false 1 100000 true)))
     <= 4 + 2 * Z.to_nat 1)%nat.
Proof.
  apply (git_invocations_bounded workingTree repo (settings false 1 100000 true)).
  apply Z.leb_le. reflexivity.
Defined.

(** X8. In every run, [wasTruncated] is true exactly when truncation is
    enabled and the merged blocks are longer than [maxDiffBytes]; the diff
    is then what is kept followed by the marker, and otherwise the merged
    blocks as they are. *)
Theorem truncation_flag (h : Host) (repositoryPath : jsstring)
    (config : ExtensionConfig) (l : Locals) :
  outcome (collectBody h repositoryPath config) = Ok l ->
  let snapshot := l_returned l in
  (wasTruncated snapshot = true <->
   truncateDiff config = true /\
   (maxDiffBytes config < Z.of_nat (byteLength (l_merged l)))%Z) /\
  (wasTruncated snapshot = false -> diff snapshot = l_merged l) /\
  (wasTruncated snapshot = true ->
   truncationMarker `suffix_of` diff snapshot) /\
  l_merged l = join (nl ++ nl) (l_diffParts l).
Proof.
  intros Hrun snapshot. subst snapshot.
  apply collectBody_Ok in Hrun
    as (_ & _ & _ & _ & _ & _ & _ & Hmerged & Hdiff & Hflag & _).
  rewrite Hdiff, Hflag. unfold trimUtf8.
  destruct (truncateDiff config); cbn [fst snd].
  - destruct (Z.leb_spec (Z.of_nat (byteLength (l_merged l))) (maxDiffBytes config));
      cbn [fst snd].
    + split; [split; [discriminate | intros [_ H']; lia]|].
      split; [reflexivity|]. split; [discriminate | exact Hmerged].
    + split; [split; [intros _; split; [reflexivity | lia] | reflexivity]|].
      split; [discriminate|].
      split; [intros _; apply suffix_app_r; reflexivity | exact Hmerged].
  - split; [split; [discriminate | intros [H' _]; discriminate]|].
    split; [reflexivity|]. split; [discriminate | exact Hmerged].
Qed.

Lemma truncation_flag_witness :
  exists l,
    outcome (collectBody (stagedOnly accents) repo (settings true 10 4096 true))
      = Ok l /\
    wasTruncated (l_returned l) = true /\
    truncationMarker `suffix_of` diff (l_returned l).
Proof.
  eexists. split; [vm_compute; reflexivity|].
  split; [vm_compute; reflexivity|].
  apply (truncation_flag (stagedOnly accents) repo (settings true 10 4096 true));
    vm_compute; reflexivity.
Defined.

(** X9. In every run the blocks of the diff follow the order of the
    working set, with at most one block for a file; each block is the
    header of its file and at least one section, and each section is one
    of the three labels followed by a text that is not blank. *)
Theorem blocks_follow_working_set (h : Host) (repositoryPath : jsstring)
    (config : ExtensionConfig) (l : Locals) :
  outcome (collectBody h repositoryPath config) = Ok l ->
  exists shown,
    shown `sublist_of` l_limitedFiles l /\ NoDup shown /\
    Forall2 blockOf (l_diffParts l) shown.
Proof.
  intros Hrun.
  apply collectBody_Ok in Hrun
    as (_ & _ & _ & _ & Hall & Hlim & Hparts & _).
  apply diffPartsLoop_order in Hparts as (shown & blocks & Heq & Hsub & Hblocks).
  simpl in Heq. subst blocks.
  exists shown. split; [exact Hsub|]. split; [|exact Hblocks].
  eapply sublist_NoDup; [|exact Hsub].
  eapply sublist_NoDup; [|rewrite Hlim; apply sublist_take].
  rewrite Hall, uniqueLines_firstSeen. apply firstSeen_NoDup.
Qed.

Lemma blocks_follow_working_set_witness :
  exists l shown,
    outcome (collectBody workingTree repo (settings false 10 100000 true)) = Ok l /\
    l_limitedFiles l = [js "gone.txt"; js "a.txt"; js "b.bin"] /\
    shown `sublist_of` l_limitedFiles l /\
    Forall2 blockOf (l_diffParts l) shown.
Proof.
  eexists.
  destruct (blocks_follow_working_set workingTree repo
              (settings false 10 100000 true) _ eq_refl)
    as (shown & Hsub & _ & Hblocks).
  exists shown. split; [reflexivity|].
  split; [vm_compute; reflexivity|]. split; assumption.
Defined.

(* ================================================================== *)
(** ** Further properties: paths and the choice of a repository *)
(* ================================================================== *)

Section MorePaths.

Variable toLowerCase : jsstring -> jsstring.

Lemma slashes_idem (value : jsstring) : slashes (slashes value) = slashes value.
Proof.
  unfold slashes. rewrite map_map. apply map_ext. intros u.
  destruct (N.eqb_spec u 0x5C); [reflexivity|].
  destruct (N.eqb_spec u 0x5C); [contradiction | reflexivity].
Qed.

Lemma isPathInside_spec (target root : jsstring) :
  isPathInside toLowerCase target root = true <->
  normalizePath toLowerCase target = normalizePath toLowerCase root \/
  (normalizePath toLowerCase root ++ js "/")
    `prefix_of` normalizePath toLowerCase target.
Proof.
  unfold isPathInside. cbv zeta.
  rewrite orb_true_iff, bool_decide_eq_true, startsWith_prefix. reflexivity.
Qed.

(** X10. Whatever [toLowerCase] does: [sameFsPath] is an equivalence that
    does not tell a backslash from a slash; a path is inside every path it
    is the same as; and being inside is transitive. *)
Theorem paths_compare (a b c : jsstring) :
  sameFsPath toLowerCase a a = true /\
  (sameFsPath toLowerCase a b = true -> sameFsPath toLowerCase b a = true) /\
  (sameFsPath toLowerCase a b = true -> sameFsPath toLowerCase b c = true ->
   sameFsPath toLowerCase a c = true) /\
  sameFsPath toLowerCase (slashes a) a = true /\
  (sameFsPath toLowerCase a b = true -> isPathInside toLowerCase a b = true) /\
  (isPathInside toLowerCase a b = true -> isPathInside toLowerCase b c = true ->
   isPathInside toLowerCase a c = true).
Proof.
  unfold sameFsPath. rewrite !bool_decide_eq_true.
  split; [reflexivity|].
  split; [congruence|].
  split; [congruence|].
  split; [unfold normalizePath; rewrite slashes_idem; reflexivity|].
  split; [intros H; apply isPathInside_spec; auto|].
  rewrite !isPathInside_spec.
  intros [Hab | [k Hab]] [Hbc | [k' Hbc]].
  - left. congruence.
  - right. rewrite Hab. exists k'. exact Hbc.
  - right. rewrite <- Hbc. exists k. exact Hab.
  - right. rewrite Hab, Hbc. exists (k' ++ js "/" ++ k).
    rewrite <- !app_assoc. reflexivity.
Qed.

Variable activeUri : option Uri.

Lemma insertByRootLength_elem (repo x : GitRepository)
    (sorted : list GitRepository) :
  x ∈ insertByRootLength repo sorted <-> x = repo \/ x ∈ sorted.
Proof.
  induction sorted as [|other rest IH]; simpl.
  - rewrite list_elem_of_singleton, elem_of_nil. tauto.
  - destruct (length (fsPath (rootUri repo))
              <? length (fsPath (rootUri other)))%nat.
    + rewrite !elem_of_cons, IH. tauto.
    + rewrite !elem_of_cons. tauto.
Qed.

Lemma sortByRootLength_elem (x : GitRepository) (repos : list GitRepository) :
  x ∈ sortByRootLength repos <-> x ∈ repos.
Proof.
  induction repos as [|repo repos IH]; simpl; [reflexivity|].
  rewrite insertByRootLength_elem, elem_of_cons, IH. reflexivity.
Qed.

Lemma longestFirst_cons (x : GitRepository) (l : list GitRepository) :
  longestFirst (x :: l) <->
  (forall y, y ∈ l ->
     (length (fsPath (rootUri y)) <= length (fsPath (rootUri x)))%nat) /\
  longestFirst l.
Proof.
  unfold longestFirst. split.
  - intros H. split.
    + intros y Hy. apply (H [] x l y eq_refl Hy).
    + intros l1 x' l2 y Heq Hy. apply (H (x :: l1) x' l2 y); [|exact Hy].
      rewrite Heq. reflexivity.
  - intros [Hx Hl] l1 x' l2 y Heq Hy. destruct l1 as [|z l1].
    + injection Heq as <- <-. apply Hx, Hy.
    + injection Heq as <- Heq. apply (Hl l1 x' l2 y Heq Hy).
Qed.

Lemma insertByRootLength_sorted (repo : GitRepository)
    (sorted : list GitRepository) :
  longestFirst sorted -> longestFirst (insertByRootLength repo sorted).
Proof.
  induction sorted as [|other rest IH]; intros Hs; simpl.
  - apply longestFirst_cons. split; [intros y Hy; inversion Hy|].
    intros l1 x l2 y Heq. destruct l1; discriminate.
  - apply longestFirst_cons in Hs as [Hother Hrest].
    destruct (Nat.ltb_spec (length (fsPath (rootUri repo)))
                (length (fsPath (rootUri other)))).
    + apply longestFirst_cons. split; [|apply IH, Hrest].
      intros y Hy. apply insertByRootLength_elem in Hy as [-> | Hy];
        [lia | apply Hother, Hy].
    + apply longestFirst_cons. split.
      * intros y Hy. apply elem_of_cons in Hy as [-> | Hy]; [lia|].
        specialize (Hother y Hy). lia.
      * apply longestFirst_cons. auto.
Qed.

Lemma sortByRootLength_sorted (repos : list GitRepository) :
  longestFirst (sortByRootLength repos).
Proof.
  induction repos as [|repo repos IH]; simpl.
  - intros l1 x l2 y Heq. destruct l1; discriminate.
  - apply insertByRootLength_sorted, IH.
Qed.

Lemma find_first {A : Type} (P : A -> bool) (l : list A) (x : A) :
  List.find P l = Some x ->
  exists l1 l2, l = l1 ++ x :: l2 /\ P x = true /\
                forall y, y ∈ l1 -> P y = false.
Proof.
  induction l as [|z l IH]; simpl; [discriminate|].
  destruct (P z) eqn:Hz.
  - intros [= <-]. exists [], l. repeat split; [exact Hz|].
    intros y Hy. inversion Hy.
  - intros H. destruct (IH H) as (l1 & l2 & -> & Hx & Hbefore).
    exists (z :: l1), l2. repeat split; [exact Hx|].
    intros y Hy. apply elem_of_cons in Hy as [-> | Hy]; auto.
Qed.

Lemma find_none {A : Type} (P : A -> bool) (l : list A) :
  List.find P l = None -> forall y, y ∈ l -> P y = false.
Proof.
  intros H y Hy. apply list_elem_of_In in Hy.
  apply (find_none P l H y Hy).
Qed.

(** X11. No repository is chosen from an empty list, and one of the list
    from any other; without a context root and without an active editor it
    is the first of the list. *)
Theorem pickRepository_member (repos : list GitRepository) (scmContext : Unknown) :
  pickRepository toLowerCase activeUri [] scmContext = None /\
  (repos <> [] ->
   exists found,
     pickRepository toLowerCase activeUri repos scmContext = Some found /\
     found ∈ repos) /\
  (extractContextRoot scmContext = None -> activeUri = None ->
   pickRepository toLowerCase activeUri repos scmContext = head repos).
Proof.
  split; [reflexivity|]. split.
  - intros Hne. unfold pickRepository.
    destruct repos as [|first rest]; [congruence|].
    change (length (first :: rest) =? 0)%nat with false. cbv iota zeta.
    match goal with
    | |- context [match ?c with Some found => Some found | None => _ end] =>
        destruct c as [found|] eqn:Hctx
    end.
    + exists found. split; [reflexivity|].
      destruct (extractContextRoot scmContext); [|discriminate].
      apply find_some in Hctx as [Hin _]. apply list_elem_of_In, Hin.
    + match goal with
      | |- context [match ?c with Some found => Some found | None => _ end] =>
          destruct c as [found|] eqn:Hed
      end.
      * exists found. split; [reflexivity|].
        destruct activeUri as [uri|]; [|discriminate].
        destruct (bool_decide (scheme uri = js "file")); [|discriminate].
        apply find_some in Hed as [Hin _].
        apply list_elem_of_In in Hin.
        apply (proj1 (sortByRootLength_elem _ _)) in Hin. exact Hin.
      * exists first. split; [reflexivity | left].
  - intros Hctx Hactive. unfold pickRepository. rewrite Hctx, Hactive.
    destruct repos; reflexivity.
Qed.

(** X12. When the context carries a root that is the same path as the
    root of some repository, the first such repository of the list is
    chosen, whatever the active editor. *)
Theorem pickRepository_context (repos : list GitRepository)
    (scmContext : Unknown) (fromContext : Uri) (repo : GitRepository) :
  extractContextRoot scmContext = Some fromContext ->
  repo ∈ repos ->
  sameFsPath toLowerCase (fsPath (rootUri repo)) (fsPath fromContext) = true ->
  exists before found after,
    pickRepository toLowerCase activeUri repos scmContext = Some found /\
    repos = before ++ found :: after /\
    sameFsPath toLowerCase (fsPath (rootUri found)) (fsPath fromContext) = true /\
    forall other, other ∈ before ->
      sameFsPath toLowerCase (fsPath (rootUri other)) (fsPath fromContext) = false.
Proof.
  intros Hctx Hin Hsame. unfold pickRepository. rewrite Hctx.
  destruct repos as [|first rest]; [inversion Hin|].
  change (length (first :: rest) =? 0)%nat with false. cbv iota zeta.
  destruct (List.find
              (fun r => sameFsPath toLowerCase (fsPath (rootUri r))
                          (fsPath fromContext)) (first :: rest))
    as [found|] eqn:Hfind.
  - destruct (find_first _ _ _ Hfind) as (l1 & l2 & Heq & Hfound & Hbefore).
    exists l1, found, l2. auto.
  - pose proof (find_none _ _ Hfind repo Hin) as Hnone. cbv beta in Hnone.
    congruence.
Qed.

(** X13. When no repository has the root of the context and the active
    editor shows a file inside some repository, the chosen repository
    contains the file, and no repository that contains the file has a
    longer root. *)
Theorem pickRepository_innermost (repos : list GitRepository)
    (scmContext : Unknown) (uri : Uri) (repo : GitRepository) :
  (forall fromContext r,
     extractContextRoot scmContext = Some fromContext -> r ∈ repos ->
     sameFsPath toLowerCase (fsPath (rootUri r)) (fsPath fromContext) = false) ->
  activeUri = Some uri -> scheme uri = js "file" ->
  repo ∈ repos ->
  isPathInside toLowerCase (fsPath uri) (fsPath (rootUri repo)) = true ->
  exists found,
    pickRepository toLowerCase activeUri repos scmContext = Some found /\
    found ∈ repos /\
    isPathInside toLowerCase (fsPath uri) (fsPath (rootUri found)) = true /\
    forall other, other ∈ repos ->
      isPathInside toLowerCase (fsPath uri) (fsPath (rootUri other)) = true ->
      (length (fsPath (rootUri other)) <= length (fsPath (rootUri found)))%nat.
Proof.
  intros Hctx Hactive Hscheme Hin Hinside. unfold pickRepository.
  destruct repos as [|first rest]; [inversion Hin|].
  change (length (first :: rest) =? 0)%nat with false. cbv iota zeta.
  set (repos := first :: rest) in *.
  assert (Hnoctx :
    match extractContextRoot scmContext with
    | Some fromContext =>
        List.find
          (fun r => sameFsPath toLowerCase (fsPath (rootUri r))
                      (fsPath fromContext)) repos
    | None => None
    end = None).
  { destruct (extractContextRoot scmContext) as [fromContext|] eqn:He;
      [|reflexivity].
    destruct (List.find _ repos) as [found|] eqn:Hfind; [|reflexivity].
    apply find_some in Hfind as [Hf Hsame].
    apply list_elem_of_In in Hf.
    rewrite (Hctx fromContext found eq_refl Hf) in Hsame. discriminate. }
  rewrite Hnoctx, Hactive, Hscheme.
  rewrite bool_decide_eq_true_2 by reflexivity.
  destruct (List.find
              (fun r => isPathInside toLowerCase (fsPath uri) (fsPath (rootUri r)))
              (sortByRootLength repos)) as [found|] eqn:Hfind.
  - destruct (find_first _ _ _ Hfind) as (l1 & l2 & Heq & Hfound & Hbefore).
    exists found. split; [reflexivity|].
    assert (Hmem : found ∈ sortByRootLength repos).
    { rewrite Heq, elem_of_app, elem_of_cons. auto. }
    split; [apply (proj1 (sortByRootLength_elem _ _)), Hmem|].
    split; [exact Hfound|].
    intros other Hother Hoin.
    apply (proj2 (sortByRootLength_elem _ _)) in Hother. rewrite Heq in Hother.
    apply elem_of_app in Hother as [Hother | Hother].
    + rewrite (Hbefore other Hother) in Hoin. discriminate.
    + apply elem_of_cons in Hother as [-> | Hother]; [lia|].
      apply (sortByRootLength_sorted repos l1 found l2 other Heq Hother).
  - apply (proj2 (sortByRootLength_elem _ _)) in Hin.
    pose proof (find_none _ _ Hfind repo Hin) as Hnone. cbv beta in Hnone.
    congruence.
Qed.

End MorePaths.

Lemma pickRepository_context_witness :
  pickRepository lowerAscii None workspace
    (AnObject (Some (fileUri (js "\WORK\App")))) = Some (repoAt (js "/work/app")).
Proof.
  destruct (pickRepository_context lowerAscii None workspace
              (AnObject (Some (fileUri (js "\WORK\App"))))
              (fileUri (js "\WORK\App")) (repoAt (js "/work/app")))
    as (before & found & after & Hpick & _);
    [reflexivity
    | vm_compute; apply list_elem_of_further, list_elem_of_here
    | vm_compute; reflexivity |].
  rewrite Hpick. vm_compute in Hpick. injection Hpick as <-.
  vm_compute. reflexivity.
Defined.

Lemma pickRepository_innermost_witness :
  pickRepository lowerAscii (Some (fileUri (js "/work/app/src/main.ts")))
    workspace NotAnObject = Some (repoAt (js "/work/app")).
Proof.
  destruct (pickRepository_innermost lowerAscii
              (Some (fileUri (js "/work/app/src/main.ts"))) workspace NotAnObject
              (fileUri (js "/work/app/src/main.ts")) (repoAt (js "/Work")))
    as (found & Hpick & _);
    [intros ? ? H; discriminate H
    | reflexivity
    | reflexivity
    | vm_compute; apply list_elem_of_here
    | vm_compute; reflexivity |].
  rewrite Hpick. vm_compute in Hpick. injection Hpick as <-.
  vm_compute. reflexivity.
Defined.

(* ================================================================== *)
(** ** Further properties: base URL and request path *)
(* ================================================================== *)

Section MoreConfig.

Lemma dropLeadingSlashes_head (s : jsstring) :
  head (dropLeadingSlashes s) <> Some 0x2F%N.
Proof.
  induction s as [|u s IH]; simpl; [discriminate|].
  destruct (N.eqb_spec u 0x2F); [exact IH|].
  simpl. congruence.
Qed.

Lemma dropLeadingSlashes_fixed (s : jsstring) :
  head s <> Some 0x2F%N -> dropLeadingSlashes s = s.
Proof.
  destruct s as [|u s]; simpl; [reflexivity|]. intros H.
  destruct (N.eqb_spec u 0x2F); [congruence | reflexivity].
Qed.

Lemma dropLeadingSlashes_suffix (s : jsstring) :
  exists k, s = k ++ dropLeadingSlashes s /\ Forall (fun u => u = 0x2F%N) k.
Proof.
  induction s as [|u s (k & Hk & Hall)]; simpl.
  - exists []. split; [reflexivity | constructor].
  - destruct (N.eqb_spec u 0x2F) as [->|].
    + exists (0x2F%N :: k). split; [simpl; congruence | constructor; auto].
    + exists []. split; [reflexivity | constructor].
Qed.

Lemma stripTrailingSlashes_last (value : jsstring) :
  last (stripTrailingSlashes value) <> Some 0x2F%N.
Proof.
  unfold stripTrailingSlashes. rewrite last_rev_head.
  apply dropLeadingSlashes_head.
Qed.

(** X14. [stripTrailingSlashes] removes the slashes that end a string and
    nothing else, and [resolveBaseUrl] never ends with a slash: not for a
    configured base URL, not for the URL of a provider. *)
Theorem base_url_without_trailing_slash (config : EndpointConfig)
    (value : jsstring) :
  last (resolveBaseUrl config) <> Some 0x2F%N /\
  last (stripTrailingSlashes value) <> Some 0x2F%N /\
  (exists k, value = stripTrailingSlashes value ++ k /\
             Forall (fun u => u = 0x2F%N) k) /\
  stripTrailingSlashes (stripTrailingSlashes value) = stripTrailingSlashes value.
Proof.
  split.
  { unfold resolveBaseUrl. destruct (truthy (baseUrl config)).
    - apply stripTrailingSlashes_last.
    - destruct (provider config); vm_compute; discriminate. }
  split; [apply stripTrailingSlashes_last|].
  split.
  { unfold stripTrailingSlashes.
    destruct (dropLeadingSlashes_suffix (rev value)) as (k & Hk & Hall).
    exists (rev k). split.
    - rewrite <- rev_app_distr, <- Hk, rev_involutive. reflexivity.
    - apply Forall_forall. intros u Hu. rewrite Forall_forall in Hall.
      apply Hall. apply list_elem_of_In, in_rev, list_elem_of_In in Hu. exact Hu. }
  unfold stripTrailingSlashes. rewrite rev_involutive.
  rewrite (dropLeadingSlashes_fixed (dropLeadingSlashes (rev value)))
    by apply dropLeadingSlashes_head.
  reflexivity.
Qed.

(** X15. [ensureLeadingSlash] always returns a path that starts with a
    slash, leaves such a path as it is, and is idempotent. *)
Theorem request_path_with_leading_slash (value : jsstring) :
  head (ensureLeadingSlash value) = Some 0x2F%N /\
  (head value = Some 0x2F%N -> ensureLeadingSlash value = value) /\
  ensureLeadingSlash (ensureLeadingSlash value) = ensureLeadingSlash value.
Proof.
  assert (Hkeep : forall v, head v = Some 0x2F%N -> ensureLeadingSlash v = v).
  { intros [|u v]; [discriminate|]. simpl. intros [= ->]. reflexivity. }
  assert (Hhead : head (ensureLeadingSlash value) = Some 0x2F%N).
  { unfold ensureLeadingSlash. destruct value as [|u value]; [reflexivity|].
    cbn [truthy negb].
    destruct (startsWith (u :: value) (js "/")) eqn:Hs; [|reflexivity].
    apply startsWith_prefix in Hs as [k Hk]. rewrite Hk. reflexivity. }
  split; [exact Hhead|]. split; [apply Hkeep|]. apply Hkeep, Hhead.
Qed.

End MoreConfig.

(* ================================================================== *)
(** ** Further properties: the command *)
(* ================================================================== *)

Section MoreCommand.

Variable toLowerCase : jsstring -> jsstring.
Variable editor : Editor.
Variable h : Host.

Lemma andThen_awaited_Ok {A B : Type} (a : A) (f : A -> Run B) :
  andThen (awaited (Ok a)) f = f a.
Proof. unfold andThen, awaited. destruct (f a). reflexivity. Qed.

Lemma andThen_effect {B : Type} (e : Effect) (f : unit -> Run B) :
  andThen (effect e) f = (e :: fst (f tt), snd (f tt)).
Proof. unfold andThen, effect. destruct (f tt). reflexivity. Qed.

Lemma andThen_git_Rejected {A B : Type} (m : GitM A) (f : A -> Run B)
    (message : jsstring) :
  outcome m = Rejected message ->
  andThen (git m) f = (map RunGit (issued m), Rejected message).
Proof. unfold andThen, git. intros ->. reflexivity. Qed.

Lemma andThen_git_Ok {A B : Type} (m : GitM A) (f : A -> Run B) (a : A) :
  outcome m = Ok a ->
  andThen (git m) f = (map RunGit (issued m) ++ fst (f a), snd (f a)).
Proof. unfold andThen, git. intros ->. destruct (f a). reflexivity. Qed.

Lemma filter_RunGit (P : Effect -> bool) (log : list (list jsstring)) :
  (forall args, P (RunGit args) = false) ->
  List.filter P (map RunGit log) = [].
Proof.
  intros HP. induction log as [|args log IH]; [reflexivity|].
  simpl. rewrite HP. exact IH.
Qed.

Lemma commandBody_chosen (scmContext : Unknown) (api : GitAPI)
    (repository : GitRepository) :
  getGitApi (gitExtension editor) = Ok (Some api) ->
  pickRepository toLowerCase (activeTextEditorUri editor) (repositories api)
    scmContext = Some repository ->
  commandBody toLowerCase editor h scmContext
  = generationTask editor h repository.
Proof.
  intros Hapi Hpick. unfold commandBody. rewrite Hapi.
  rewrite andThen_awaited_Ok, Hpick. reflexivity.
Qed.

End MoreCommand.

Section CommandRuns.

Variable toLowerCase : jsstring -> jsstring.
Variable editor : Editor.
Variable h : Host.
Variable scmContext : Unknown.
Variable api : GitAPI.
Variable repository : GitRepository.

Hypothesis Hapi : getGitApi (gitExtension editor) = Ok (Some api).
Hypothesis Hpick :
  pickRepository toLowerCase (activeTextEditorUri editor) (repositories api)
    scmContext = Some repository.

Let collected :=
  collectRepositoryChanges h (fsPath (rootUri repository)) (readConfig editor).

Lemma command_rejected (message : jsstring) :
  outcome collected = Rejected message ->
  runGenerateCommitMessage toLowerCase editor h scmContext =
    map RunGit (issued collected)
    ++ [ShowErrorMessage (js "AutoGit LLM failed: " ++ message)].
Proof using Hapi Hpick.
  intros Hrej. unfold runGenerateCommitMessage.
  rewrite (commandBody_chosen _ _ _ _ _ _ Hapi Hpick).
  unfold generationTask. cbv zeta. fold collected.
  rewrite (andThen_git_Rejected _ _ _ Hrej). reflexivity.
Qed.

Lemma command_clean (snapshot : ChangeSnapshot) :
  outcome collected = Ok snapshot -> trim (status snapshot) = [] ->
  runGenerateCommitMessage toLowerCase editor h scmContext =
    map RunGit (issued collected)
    ++ [ShowInformationMessage (js "No changes detected in this repository.")].
Proof using Hapi Hpick.
  intros Hok Hblank. unfold runGenerateCommitMessage.
  rewrite (commandBody_chosen _ _ _ _ _ _ Hapi Hpick).
  unfold generationTask. cbv zeta. fold collected.
  rewrite (andThen_git_Ok _ _ _ Hok), Hblank. reflexivity.
Qed.

Lemma command_asked (snapshot : ChangeSnapshot) :
  outcome collected = Ok snapshot -> trim (status snapshot) <> [] ->
  runGenerateCommitMessage toLowerCase editor h scmContext =
    map RunGit (issued collected)
    ++ AskModel (buildPrompt snapshot (readConfig editor))
    :: match generateCommitText editor (buildPrompt snapshot (readConfig editor))
               (readConfig editor) with
       | Rejected message =>
           [ShowErrorMessage (js "AutoGit LLM failed: " ++ message)]
       | Ok reply =>
           SetInputBox repository reply
           :: (if copyToClipboard editor then
                 WriteClipboard reply
                 :: match clipboard_writeText editor reply with
                    | Ok _ =>
                        [ShowInformationMessage
                           (js "Commit message generated and filled into Source Control input.")]
                    | Rejected message =>
                        [ShowErrorMessage (js "AutoGit LLM failed: " ++ message)]
                    end
               else
                 [ShowInformationMessage
                    (js "Commit message generated and filled into Source Control input.")])
       end.
Proof using Hapi Hpick.
  intros Hok Hstatus. unfold runGenerateCommitMessage.
  rewrite (commandBody_chosen _ _ _ _ _ _ Hapi Hpick).
  unfold generationTask. cbv zeta. fold collected.
  rewrite (andThen_git_Ok _ _ _ Hok).
  apply truthy_true in Hstatus. rewrite Hstatus. cbn [negb].
  unfold andThen, effect, awaited, done.
  destruct (generateCommitText editor _ _) as [reply|message]; cbn [fst snd app].
  - destruct (copyToClipboard editor); cbn [fst snd app].
    + destruct (clipboard_writeText editor reply) as [[]|message];
        cbn [fst snd app]; rewrite <- ?app_assoc; reflexivity.
    + rewrite <- ?app_assoc. reflexivity.
  - rewrite <- ?app_assoc. reflexivity.
Qed.

End CommandRuns.

Section CommandInvariants.

Lemma endsWell_wellEnded (log : list (list jsstring)) (tail : list Effect) :
  endsWell tail = true -> wellEnded (map RunGit log ++ tail).
Proof.
  unfold endsWell, wellEnded. rewrite !andb_true_iff, !Nat.leb_le.
  intros [[Hend Hask] Hset].
  rewrite !List.filter_app, !filter_RunGit by reflexivity. cbn [app].
  split; [|split; assumption].
  destruct (rev tail) as [|message before] eqn:Hrev; [discriminate|].
  apply andb_true_iff in Hend as [Hmsg Hbefore].
  assert (Htail : tail = rev before ++ [message]).
  { rewrite <- (rev_involutive tail), Hrev. reflexivity. }
  exists (map RunGit log ++ rev before), message.
  split; [rewrite Htail, app_assoc; reflexivity|]. split; [exact Hmsg|].
  apply Forall_app. split.
  - apply Forall_forall. intros e He.
    apply list_elem_of_In, in_map_iff in He as (args & <- & _). reflexivity.
  - apply Forall_forall. intros e He.
    rewrite forallb_forall in Hbefore.
    apply list_elem_of_In, in_rev in He. apply Hbefore in He.
    apply negb_true_iff, He.
Qed.

Lemma not_RunGit_elem (e : Effect) (log : list (list jsstring)) :
  isRunGit e = false -> e ∉ map RunGit log.
Proof.
  intros He Hin. apply list_elem_of_In, in_map_iff in Hin as (args & <- & _).
  discriminate.
Qed.

End CommandInvariants.

(** X16. When collecting the changes of the chosen repository fails, the
    command shows ["AutoGit LLM failed: "] followed by the message of the
    failure, once the git commands of the run are done, and does nothing
    else: the model is not asked and the input box is not set. *)
Theorem command_reports_collection_failure (toLowerCase : jsstring -> jsstring)
    (editor : Editor) (h : Host) (scmContext : Unknown) (api : GitAPI)
    (repository : GitRepository) (message : jsstring) :
  getGitApi (gitExtension editor) = Ok (Some api) ->
  pickRepository toLowerCase (activeTextEditorUri editor) (repositories api)
    scmContext = Some repository ->
  outcome (collectRepositoryChanges h (fsPath (rootUri repository))
             (readConfig editor)) = Rejected message ->
  runGenerateCommitMessage toLowerCase editor h scmContext =
    map RunGit (issued (collectRepositoryChanges h (fsPath (rootUri repository))
                          (readConfig editor)))
    ++ [ShowErrorMessage (js "AutoGit LLM failed: " ++ message)].
Proof.
  intros Hapi Hpick Hrun. eapply command_rejected; eassumption.
Qed.

Lemma command_reports_collection_failure_witness :
  runGenerateCommitMessage lowerAscii (editorWith true (Ok (js "fix: x")))
    notARepository NotAnObject =
  [RunGit [js "status"; js "--short"];
   ShowErrorMessage
     (js "AutoGit LLM failed: git status --short failed: fatal: not a git repository")].
Proof.
  rewrite (command_reports_collection_failure lowerAscii
             (editorWith true (Ok (js "fix: x"))) notARepository NotAnObject
             {| repositories := [repoAt repo] |} (repoAt repo)
             (js "git status --short failed: fatal: not a git repository"));
    vm_compute; reflexivity.
Defined.

(** X17. When the status of the chosen repository is blank, the command
    shows ["No changes detected in this repository."] and stops: the model
    is not asked and the input box is not set. *)
Theorem command_stops_without_changes (toLowerCase : jsstring -> jsstring)
    (editor : Editor) (h : Host) (scmContext : Unknown) (api : GitAPI)
    (repository : GitRepository) (snapshot : ChangeSnapshot) :
  getGitApi (gitExtension editor) = Ok (Some api) ->
  pickRepository toLowerCase (activeTextEditorUri editor) (repositories api)
    scmContext = Some repository ->
  outcome (collectRepositoryChanges h (fsPath (rootUri repository))
             (readConfig editor)) = Ok snapshot ->
  trim (status snapshot) = [] ->
  runGenerateCommitMessage toLowerCase editor h scmContext =
    map RunGit (issued (collectRepositoryChanges h (fsPath (rootUri repository))
                          (readConfig editor)))
    ++ [ShowInformationMessage (js "No changes detected in this repository.")].
Proof.
  intros Hapi Hpick Hrun Hblank. eapply command_clean; eassumption.
Qed.

Lemma command_stops_without_changes_witness :
  runGenerateCommitMessage lowerAscii (editorWith true (Ok (js "fix: x")))
    cleanTree NotAnObject =
  [RunGit [js "status"; js "--short"];
   RunGit [js "diff"; js "--name-only"; js "--staged"];
   ShowInformationMessage (js "No changes detected in this repository.")].
Proof.
  rewrite (command_stops_without_changes lowerAscii
             (editorWith true (Ok (js "fix: x"))) cleanTree NotAnObject
             {| repositories := [repoAt repo] |} (repoAt repo)
             {| status := []; diff := []; wasTruncated := false;
                wasFileLimited := false; totalChangedFiles := 0;
                includedChangedFiles := 0 |});
    vm_compute; reflexivity.
Defined.

(** X18. When the changes are collected, the status is not blank, the
    model answers and the clipboard, if it is used, accepts the text: the
    command asks the model once, with the prompt built from the snapshot,
    puts the answer in the input box of the chosen repository, copies it to
    the clipboard exactly when [copyToClipboard] is set, and ends with the
    message of success. *)
Theorem command_fills_input_box (toLowerCase : jsstring -> jsstring)
    (editor : Editor) (h : Host) (scmContext : Unknown) (api : GitAPI)
    (repository : GitRepository) (snapshot : ChangeSnapshot)
    (reply : jsstring) :
  getGitApi (gitExtension editor) = Ok (Some api) ->
  pickRepository toLowerCase (activeTextEditorUri editor) (repositories api)
    scmContext = Some repository ->
  outcome (collectRepositoryChanges h (fsPath (rootUri repository))
             (readConfig editor)) = Ok snapshot ->
  trim (status snapshot) <> [] ->
  generateCommitText editor (buildPrompt snapshot (readConfig editor))
    (readConfig editor) = Ok reply ->
  (copyToClipboard editor = true -> clipboard_writeText editor reply = Ok tt) ->
  runGenerateCommitMessage toLowerCase editor h scmContext =
    map RunGit (issued (collectRepositoryChanges h (fsPath (rootUri repository))
                          (readConfig editor)))
    ++ [AskModel (buildPrompt snapshot (readConfig editor));
        SetInputBox repository reply]
    ++ (if copyToClipboard editor then [WriteClipboard reply] else [])
    ++ [ShowInformationMessage
          (js "Commit message generated and filled into Source Control input.")].
Proof.
  intros Hapi Hpick Hok Hstatus Hreply Hclip.
  rewrite (command_asked _ _ _ _ _ _ Hapi Hpick _ Hok Hstatus), Hreply.
  destruct (copyToClipboard editor); [rewrite Hclip by reflexivity|];
    reflexivity.
Qed.

Lemma command_fills_input_box_witness :
  runGenerateCommitMessage lowerAscii (editorWith true (Ok (js "fix: x")))
    (stagedOnly (js "+x")) NotAnObject =
  [RunGit [js "status"; js "--short"];
   RunGit [js "diff"; js "--name-only"; js "--staged"];
   RunGit (stagedDiffOf (js "f"));
   AskModel
     (buildPrompt
        {| status := js "M  f";
           diff := js "## f" ++ nl ++ js "# Staged diff" ++ nl ++ js "+x";
           wasTruncated := false; wasFileLimited := false;
           totalChangedFiles := 1; includedChangedFiles := 1 |}
        (settings true 10 4096 true));
   SetInputBox (repoAt repo) (js "fix: x");
   WriteClipboard (js "fix: x");
   ShowInformationMessage
     (js "Commit message generated and filled into Source Control input.")].
Proof.
  rewrite (command_fills_input_box lowerAscii
             (editorWith true (Ok (js "fix: x"))) (stagedOnly (js "+x"))
             NotAnObject {| repositories := [repoAt repo] |} (repoAt repo)
             {| status := js "M  f";
                diff := js "## f" ++ nl ++ js "# Staged diff" ++ nl ++ js "+x";
                wasTruncated := false; wasFileLimited := false;
                totalChangedFiles := 1; includedChangedFiles := 1 |}
             (js "fix: x"));
    try (vm_compute; reflexivity).
  vm_compute. discriminate.
Defined.

(** X19. Every run of the command ends with a message, the only one it
    shows; it asks the model at most once and sets an input box at most
    once. *)
Theorem command_one_message (toLowerCase : jsstring -> jsstring)
    (editor : Editor) (h : Host) (scmContext : Unknown) :
  wellEnded (runGenerateCommitMessage toLowerCase editor h scmContext).
Proof.
  destruct (getGitApi (gitExtension editor)) as [[api|]|failure] eqn:Hapi.
  - destruct (pickRepository toLowerCase (activeTextEditorUri editor)
                (repositories api) scmContext) as [repository|] eqn:Hpick.
    + destruct (outcome (collectRepositoryChanges h (fsPath (rootUri repository))
                           (readConfig editor))) as [snapshot|message] eqn:Hrun.
      * destruct (trim (status snapshot)) as [|u rest] eqn:Hstatus.
        -- rewrite (command_clean _ _ _ _ _ _ Hapi Hpick _ Hrun Hstatus).
           apply endsWell_wellEnded. reflexivity.
        -- rewrite (command_asked _ _ _ _ _ _ Hapi Hpick _ Hrun)
             by (rewrite Hstatus; discriminate).
           apply endsWell_wellEnded.
           destruct (generateCommitText editor _ _); [|reflexivity].
           destruct (copyToClipboard editor); [|reflexivity].
           destruct (clipboard_writeText editor _); reflexivity.
      * rewrite (command_rejected _ _ _ _ _ _ Hapi Hpick _ Hrun).
        apply endsWell_wellEnded. reflexivity.
    + unfold runGenerateCommitMessage, commandBody.
      rewrite Hapi, andThen_awaited_Ok, Hpick.
      apply (endsWell_wellEnded []). reflexivity.
  - unfold runGenerateCommitMessage, commandBody.
    rewrite Hapi, andThen_awaited_Ok.
    apply (endsWell_wellEnded []). reflexivity.
  - unfold runGenerateCommitMessage, commandBody. rewrite Hapi.
    apply (endsWell_wellEnded []). reflexivity.
Qed.

(** X20. An input box is only ever set for the chosen repository, to what
    the model answered for the changes collected in it, the status being
    not blank. *)
Theorem input_box_holds_model_reply (toLowerCase : jsstring -> jsstring)
    (editor : Editor) (h : Host) (scmContext : Unknown)
    (repository : GitRepository) (value : jsstring) :
  SetInputBox repository value
    ∈ runGenerateCommitMessage toLowerCase editor h scmContext ->
  (exists api,
     getGitApi (gitExtension editor) = Ok (Some api) /\
     pickRepository toLowerCase (activeTextEditorUri editor) (repositories api)
       scmContext = Some repository) /\
  modelReply editor h repository value.
Proof.
  assert (Hlast : forall log (e : Effect),
            isRunGit (SetInputBox repository value) = false ->
            SetInputBox repository value ∈ map RunGit log ++ [e] ->
            isMessage e = true -> False).
  { intros log e _ Hin He. apply elem_of_app in Hin as [Hin|Hin].
    - eapply not_RunGit_elem, Hin. reflexivity.
    - apply list_elem_of_singleton in Hin. subst e. discriminate. }
  destruct (getGitApi (gitExtension editor)) as [[api|]|failure] eqn:Hapi.
  - destruct (pickRepository toLowerCase (activeTextEditorUri editor)
                (repositories api) scmContext) as [chosen|] eqn:Hpick.
    + destruct (outcome (collectRepositoryChanges h (fsPath (rootUri chosen))
                           (readConfig editor))) as [snapshot|message] eqn:Hrun.
      * destruct (trim (status snapshot)) as [|u rest] eqn:Hstatus.
        -- rewrite (command_clean _ _ _ _ _ _ Hapi Hpick _ Hrun Hstatus).
           intros Hin. exfalso. eapply Hlast; [reflexivity | exact Hin | reflexivity].
        -- rewrite (command_asked _ _ _ _ _ _ Hapi Hpick _ Hrun)
             by (rewrite Hstatus; discriminate).
           intros Hin. apply elem_of_app in Hin as [Hin|Hin];
             [exfalso; eapply not_RunGit_elem, Hin; reflexivity|].
           apply elem_of_cons in Hin as [Hin|Hin]; [discriminate|].
           destruct (generateCommitText editor _ _) as [reply|message] eqn:Hreply.
           ++ assert (Hset : SetInputBox repository value
                             = SetInputBox chosen reply).
              { apply elem_of_cons in Hin as [Hin|Hin]; [exact Hin|]. exfalso.
                destruct (copyToClipboard editor).
                - apply elem_of_cons in Hin as [Hin|Hin]; [discriminate|].
                  destruct (clipboard_writeText editor reply);
                    apply list_elem_of_singleton in Hin; discriminate.
                - apply list_elem_of_singleton in Hin. discriminate. }
              injection Hset as -> ->. split; [eauto|].
              exists snapshot. rewrite Hstatus. repeat split;
                [exact Hrun | discriminate | exact Hreply].
           ++ apply list_elem_of_singleton in Hin. discriminate.
      * rewrite (command_rejected _ _ _ _ _ _ Hapi Hpick _ Hrun).
        intros Hin. exfalso. eapply Hlast; [reflexivity | exact Hin | reflexivity].
    + unfold runGenerateCommitMessage, commandBody.
      rewrite Hapi, andThen_awaited_Ok, Hpick. cbn.
      intros Hin. apply list_elem_of_singleton in Hin. discriminate.
  - unfold runGenerateCommitMessage, commandBody.
    rewrite Hapi, andThen_awaited_Ok. cbn.
    intros Hin. apply list_elem_of_singleton in Hin. discriminate.
  - unfold runGenerateCommitMessage, commandBody. rewrite Hapi. cbn.
    intros Hin. apply list_elem_of_singleton in Hin. discriminate.
Qed.

Lemma input_box_holds_model_reply_witness :
  modelReply (editorWith false (Ok (js "fix: x"))) (stagedOnly (js "+x"))
    (repoAt repo) (js "fix: x").
Proof.
  apply (input_box_holds_model_reply lowerAscii
           (editorWith false (Ok (js "fix: x"))) (stagedOnly (js "+x"))
           NotAnObject (repoAt repo) (js "fix: x")).
  vm_compute. do 4 apply list_elem_of_further. apply list_elem_of_here.
Defined.

(* ================================================================== *)

(* ================================================================== *)
(** ** Further properties: the earlier collector *)
(* ================================================================== *)

(** X21. The earlier collector always truncates: for a non-negative
    budget, the diff of every snapshot it returns is at most
    [maxDiffBytes] plus 2 plus the marker, in bytes; and [wasTruncated]
    tells whether the marker was added. *)
Theorem earlier_collector_within_budget (h : Host) (repositoryPath : jsstring)
    (config : ExtensionConfig) (snapshot : GitV1.ChangeSnapshot) :
  (0 <= maxDiffBytes config)%Z ->
  outcome (GitV1.collectRepositoryChanges h repositoryPath config) = Ok snapshot ->
  (Z.of_nat (byteLength (GitV1.diff snapshot))
   <= maxDiffBytes config + 2 + Z.of_nat (byteLength truncationMarker))%Z /\
  (GitV1.wasTruncated snapshot = true ->
   truncationMarker `suffix_of` GitV1.diff snapshot) /\
  (GitV1.wasTruncated snapshot = false ->
   (Z.of_nat (byteLength (GitV1.diff snapshot)) <= maxDiffBytes config)%Z).
Proof.
  intros Hmax Hrun. unfold GitV1.collectRepositoryChanges in Hrun.
  bind_inv Hrun. bind_inv Hrun. bind_inv Hrun.
  rewrite outcome_ret in Hrun. injection Hrun as <-.
  cbn [GitV1.diff GitV1.wasTruncated].
  split; [apply trimUtf8_byteLength, Hmax|].
  unfold trimUtf8.
  match goal with |- context [(Z.of_nat (byteLength ?m) <=? _)%Z] =>
    destruct (Z.leb_spec (Z.of_nat (byteLength m)) (maxDiffBytes config))
  end; cbn [fst snd].
  - split; [discriminate | intros _; assumption].
  - split; [intros _; apply suffix_app_r; reflexivity | discriminate].
Qed.

Lemma earlier_collector_within_budget_witness :
  exists snapshot,
    outcome (GitV1.collectRepositoryChanges earlierTree repo
               (settings true 10 4096 false)) = Ok snapshot /\
    GitV1.wasTruncated snapshot = true /\
    (Z.of_nat (byteLength (GitV1.diff snapshot))
     <= 4096 + 2 + Z.of_nat (byteLength truncationMarker))%Z.
Proof.
  eexists. split; [vm_compute; reflexivity|].
  split; [vm_compute; reflexivity|].
  refine (proj1 (earlier_collector_within_budget earlierTree repo
                   (settings true 10 4096 false) _ _ _));
    [apply Z.leb_le; reflexivity | vm_compute; reflexivity].
Defined.

(** X22. The earlier collector issues the status fetch, the staged diff
    and, unless [includeOnlyStaged] is set, the unstaged diff, in this
    order and nothing else: a run issues a non-empty prefix of this list,
    and all of it when it returns a snapshot. *)
Theorem earlier_collector_commands (h : Host) (repositoryPath : jsstring)
    (config : ExtensionConfig) :
  let all :=
    [[js "status"; js "--short"];
     [js "diff"; js "--staged"; js "--no-color"; js "--no-ext-diff"]]
    ++ (if includeOnlyStaged config then []
        else [[js "diff"; js "--no-color"; js "--no-ext-diff"]]) in
  let run := GitV1.collectRepositoryChanges h repositoryPath config in
  issued run `prefix_of` all /\
  issued run <> [] /\
  ((exists snapshot, outcome run = Ok snapshot) -> issued run = all).
Proof.
  intros all run. subst all run. unfold GitV1.collectRepositoryChanges.
  set (status := GitV1.runGit h [js "status"; js "--short"] repositoryPath
                   (commandTimeoutMs config)).
  set (staged := GitV1.runGit h
                   [js "diff"; js "--staged"; js "--no-color"; js "--no-ext-diff"]
                   repositoryPath (commandTimeoutMs config)).
  set (unstaged := GitV1.runGit h
                     [js "diff"; js "--no-color"; js "--no-ext-diff"]
                     repositoryPath (commandTimeoutMs config)).
  assert (Hstatus : issued status = [[js "status"; js "--short"]])
    by reflexivity.
  assert (Hstaged : issued staged =
            [[js "diff"; js "--staged"; js "--no-color"; js "--no-ext-diff"]])
    by reflexivity.
  assert (Hunstaged : issued unstaged =
            [[js "diff"; js "--no-color"; js "--no-ext-diff"]])
    by reflexivity.
  destruct (outcome status) as [out1|e1] eqn:H1.
  2: { match goal with
       | |- context [bind status ?f] =>
           destruct (bind_of_Rejected status f e1 H1) as [-> ->]
       end. rewrite Hstatus.
       split; [eexists; reflexivity|]. split; [discriminate|].
       intros [? H]; discriminate H. }
  rewrite (issued_bind_Ok _ _ _ H1), (outcome_bind_of_Ok _ _ _ H1), Hstatus.
  destruct (outcome staged) as [out2|e2] eqn:H2.
  2: { match goal with
       | |- context [bind staged ?f] =>
           destruct (bind_of_Rejected staged f e2 H2) as [-> ->]
       end. rewrite Hstaged.
       split; [eexists; reflexivity|]. split; [discriminate|].
       intros [? H]; discriminate H. }
  rewrite (issued_bind_Ok _ _ _ H2), (outcome_bind_of_Ok _ _ _ H2), Hstaged.
  destruct (includeOnlyStaged config); cbn [negb].
  - split; [eexists; reflexivity|]. split; [discriminate|].
    reflexivity.
  - destruct (outcome unstaged) as [out3|e3] eqn:H3.
    + match goal with
      | |- context [bind (bind unstaged ?g) ?f] =>
          pose proof (outcome_bind_of_Ok unstaged g out3 H3) as Hin;
          pose proof (issued_bind_Ok unstaged g out3 H3) as Hiss
      end.
      cbv beta in Hin, Hiss. rewrite outcome_ret in Hin.
      rewrite (issued_bind_Ok _ _ _ Hin), (outcome_bind_of_Ok _ _ _ Hin), Hiss,
        Hunstaged.
      split; [eexists; reflexivity|]. split; [discriminate|].
      reflexivity.
    + match goal with
      | |- context [bind (bind unstaged ?g) ?f] =>
          destruct (bind_of_Rejected unstaged g e3 H3) as [Hiss Hrej];
          destruct (bind_of_Rejected (bind unstaged g) f e3 Hrej) as [-> ->]
      end.
      rewrite Hiss, Hunstaged.
      split; [eexists; reflexivity|]. split; [discriminate|].
      intros [? H]; discriminate H.
Qed.

(* ================================================================== *)
(** ** Further properties: the prompt *)
(* ================================================================== *)

Lemma join_cons2 (sep p q : jsstring) (rest : list jsstring) :
  join sep (p :: q :: rest) = p ++ sep ++ join sep (q :: rest).
Proof. reflexivity. Qed.

(** X23. The user prompt always starts with the task, a blank line and the
    rules under their header, and always goes on after them. *)
Theorem userPrompt_starts_with_task (snapshot : ChangeSnapshot)
    (config : ExtensionConfig) :
  exists rest,
    payload_userPrompt (buildPrompt snapshot config) =
      js "Task: Create one detailed git commit message based on the repository changes."
      ++ nl ++ nl ++ js "Rules:" ++ nl ++ ruleTemplate config
      ++ nl ++ nl ++ rest /\
    rest <> [].
Proof.
  unfold buildPrompt, promptSections. cbn [payload_userPrompt app].
  match goal with
  | |- context [join _ (_ :: _ :: ?tail)] =>
      assert (Htail : exists s more, tail = s :: more /\ s <> [])
  end.
  { destruct (truthy (trim (additionalRules config))); cbn [app].
    - eexists _, _. split; [reflexivity|]. vm_compute. discriminate.
    - destruct (language config); cbn [app];
        (eexists _, _; split; [reflexivity|]); vm_compute; discriminate. }
  destruct Htail as (s & more & -> & Hs).
  rewrite !join_cons2. eexists. split.
  - rewrite <- !app_assoc. reflexivity.
  - destruct more; cbn [join]; [exact Hs|].
    destruct s; [congruence | discriminate].
Qed.
